(** * JSLiteDB: the in-memory collection store, its cache, its write mutex
      and its persistence, embedded from [src/index.js], [Collection.js]
      and [WriteMutex.js].

    The development follows the JavaScript source method by method.
    Asynchronous methods are run to completion one after the other; a call
    that has to wait for the write mutex is reported as [Pending].  The
    interleaving of writers is studied on its own in [Module Scheduler]. *)

From stdpp Require Import gmap strings list fin_maps pretty.
From Stdlib Require Import ZArith Lia.

Set Warnings "-register-all".

Local Open Scope string_scope.
Local Open Scope Z_scope.
Local Open Scope list_scope.

(* ===================================================================== *)
(** * JavaScript values *)
(* ===================================================================== *)

(** Documents are schema-less.  The values the store keeps are the ones
    [JSON.stringify] writes and [JSON.parse] reads back: null, booleans,
    numbers, strings, arrays and plain objects.  Numbers are modelled by
    integers.  A plain object is the list of its own properties in
    enumeration order. *)
Inductive json : Type :=
| JNull
| JBool (b : bool)
| JNum (n : Z)
| JStr (s : string)
| JArr (items : list json)
| JObj (props : list (string * json)).

(** Truthiness, as tested by [if (x)], [!x], [x && y], [x || y]. *)
Definition truthy (v : json) : bool :=
  match v with
  | JNull => false
  | JBool b => b
  | JNum n => negb (n =? 0)
  | JStr s => negb (s =? "")%string
  | JArr _ | JObj _ => true
  end.

(** [String(v)] and the conversion a template literal applies to [v]. *)
Fixpoint ToString (v : json) : string :=
  match v with
  | JNull => "null"
  | JBool true => "true"
  | JBool false => "false"
  | JNum n => pretty n
  | JStr s => s
  | JArr items =>
      (fix join (l : list json) : string :=
         match l with
         | [] => ""
         | x :: r =>
             let sx := match x with JNull => "" | _ => ToString x end in
             match r with
             | [] => sx
             | _ :: _ => sx +:+ "," +:+ join r
             end
         end) items
  | JObj _ => "[object Object]"
  end.

(* ===================================================================== *)
(** * The built-in [Map] *)
(* ===================================================================== *)

(** A [Map] with string keys iterates in insertion order; [set] on a
    present key keeps its position. *)
Module JsMap.

Abbreviation t V := (list (string * V)) (only parsing).

Section Ops.
Context {V : Type}.

Definition empty : t V := [].

Fixpoint has (k : string) (m : t V) : bool :=
  match m with
  | [] => false
  | (k', _) :: r => (k =? k')%string || has k r
  end.

Fixpoint get (k : string) (m : t V) : option V :=
  match m with
  | [] => None
  | (k', v) :: r => if (k =? k')%string then Some v else get k r
  end.

Fixpoint set (k : string) (v : V) (m : t V) : t V :=
  match m with
  | [] => [(k, v)]
  | (k', v') :: r =>
      if (k =? k')%string then (k', v) :: r else (k', v') :: set k v r
  end.

Definition delete (k : string) (m : t V) : t V :=
  filter (fun kv => kv.1 ≠ k) m.

Definition keys (m : t V) : list string := m.*1.
Definition values (m : t V) : list V := m.*2.
Definition size (m : t V) : Z := Z.of_nat (length m).

(** [new Map(entries)] *)
Definition ofEntries (entries : list (string * V)) : t V :=
  fold_left (fun m kv => set kv.1 kv.2 m) entries [].

(** A [Map] never holds a key twice. *)
Definition wf (m : t V) : Prop := NoDup (keys m).
End Ops.

Arguments empty {V}.
End JsMap.


(* ===================================================================== *)
(** * Property keys and plain objects *)
(* ===================================================================== *)

Module JsObject.

Definition digit (a : Ascii.ascii) : option N :=
  let n := Ascii.N_of_ascii a in
  if ((48 <=? n) && (n <=? 57))%N then Some (n - 48)%N else None.

Fixpoint digits (s : string) (acc : N) : option N :=
  match s with
  | EmptyString => Some acc
  | String a r =>
      match digit a with
      | Some d => digits r (10 * acc + d)%N
      | None => None
      end
  end.

(** An array index is the canonical decimal form of an integer below
    [2^32 - 1].  Own keys that are array indices are enumerated first, in
    ascending order; the other string keys follow in creation order. *)
Definition array_index (k : string) : option N :=
  match k with
  | EmptyString => None
  | String _ _ =>
      match digits k 0%N with
      | Some n =>
          if ((pretty n =? k)%string && (n <? 4294967295)%N)%bool
          then Some n else None
      | None => None
      end
  end.

(** [before k k'] : a fresh key [k] is enumerated before the existing
    key [k']. *)
Definition before (k k' : string) : bool :=
  match array_index k, array_index k' with
  | Some n, Some n' => (n <? n')%N
  | Some _, None => true
  | None, _ => false
  end.

Abbreviation t := (list (string * json)) (only parsing).

(** Own properties are looked up like the entries of a [Map]. *)
Definition has (k : string) (o : t) : bool := JsMap.has k o.

Definition get (k : string) (o : t) : option json := JsMap.get k o.

Fixpoint replace (k : string) (v : json) (o : t) : t :=
  match o with
  | [] => []
  | (k', v') :: r =>
      if (k =? k')%string then (k', v) :: r else (k', v') :: replace k v r
  end.

Fixpoint place (k : string) (v : json) (o : t) : t :=
  match o with
  | [] => [(k, v)]
  | (k', v') :: r =>
      if before k k' then (k, v) :: (k', v') :: r
      else (k', v') :: place k v r
  end.

(** CreateDataProperty: what an object literal, a spread,
    [Object.fromEntries] and [JSON.parse] do for each key. *)
Definition define (k : string) (v : json) (o : t) : t :=
  if has k o then replace k v o else place k v o.

(** [o[k] = v] on an object made by a literal.  The key [__proto__] is
    an accessor inherited from [Object.prototype]: assigning to it changes
    the prototype and creates no own property. *)
Definition assign (k : string) (v : json) (o : t) : t :=
  if (k =? "__proto__")%string then o else define k v o.

(** [Object.fromEntries(iterable)] *)
Definition fromEntries (entries : list (string * json)) : t :=
  fold_left (fun o kv => define kv.1 kv.2 o) entries [].

Fixpoint indexed (i : N) (l : list json) : list (string * json) :=
  match l with
  | [] => []
  | x :: r => (pretty i, x) :: indexed (i + 1)%N r
  end.

Fixpoint chars (s : string) : list json :=
  match s with
  | EmptyString => []
  | String a r => JStr (String a EmptyString) :: chars r
  end.

(** Own enumerable string-keyed properties of [ToObject(v)], for a [v]
    that is neither null nor undefined. *)
Definition ownProperties (v : json) : list (string * json) :=
  match v with
  | JObj props => props
  | JArr items => indexed 0%N items
  | JStr s => indexed 0%N (chars s)
  | JNull | JBool _ | JNum _ => []
  end.

(** The object spread [{ ...acc, ...v }]: null spreads to nothing. *)
Definition spread (v : json) (acc : t) : t :=
  fold_left (fun o kv => define kv.1 kv.2 o) (ownProperties v) acc.

End JsObject.

(** [{ id, ...document }] *)
Definition withId (id : json) (document : json) : json :=
  JObj (JsObject.spread document [("id"%string, id)]).

(* ===================================================================== *)
(** * WriteMutex *)
(* ===================================================================== *)

(** [queue] holds the [resolve] callbacks of the callers that wait; [W]
    names such a callback. *)
Module WriteMutex.

Record t (W : Type) : Type := Mk { locked : bool; queue : list W }.
Arguments Mk {W}.
Arguments locked {W}.
Arguments queue {W}.

(** [constructor()] *)
Definition new {W : Type} : t W := Mk false [].

(** [_acquire()]: the promise executor, given the [resolve] of the new
    promise.  The boolean tells whether [resolve] was called at once. *)
Definition _acquire {W : Type} (resolve : W) (m : t W) : t W * bool :=
  if negb (locked m)
  then (Mk true (queue m), true)
  else (Mk (locked m) (queue m ++ [resolve]), false).

(** [release()]: the callback it calls, if any, is returned. *)
Definition release {W : Type} (m : t W) : t W * option W :=
  match queue m with
  | next :: rest => (Mk (locked m) rest, Some next)
  | [] => (Mk false [], None)
  end.

(** [getStatus()] *)
Definition getStatus {W : Type} (m : t W) : bool * Z :=
  (locked m, Z.of_nat (length (queue m))).

Definition idle {W : Type} (m : t W) : Prop :=
  locked m = false ∧ queue m = [].

End WriteMutex.

(* ===================================================================== *)
(** * Errors, files and the JSON text of a file *)
(* ===================================================================== *)

Inductive Error : Type :=
| ENOENT (path : string)
| EISDIR (path : string)
| EEXIST (path : string)
| SyntaxError
| TypeError
| DocumentExists (id collection : string)
    (* Document with id '..' already exists in collection '..' *)
| Failure (what : string) (cause : Error).
    (* new Error(`${what}: ${cause.message}`) *)

(** [error.code] *)
Definition code (e : Error) : option string :=
  match e with
  | ENOENT _ => Some "ENOENT"
  | EISDIR _ => Some "EISDIR"
  | EEXIST _ => Some "EEXIST"
  | _ => None
  end.

(** The text of a file is either the JSON text of a value or something
    [JSON.parse] rejects.  The payload of [Json] is the value the text
    parses to. *)
Inductive FileText : Type :=
| Json (value : json)
| Garbled (raw : string).

Definition JSON_parse (t : FileText) : Error + json :=
  match t with
  | Json value => inr value
  | Garbled _ => inl SyntaxError
  end.

(** [JSON.stringify(value)], with or without indentation. *)
Definition JSON_stringify (value : json) : FileText := Json value.

(** [Object.entries(v)] throws on null. *)
Definition Object_entries (v : json) : Error + list (string * json) :=
  match v with
  | JNull => inl TypeError
  | _ => inr (JsObject.ownProperties v)
  end.

(** [v.name] for a property name that no built-in prototype defines;
    [None] is undefined. *)
Definition getProperty (v : json) (name : string) : Error + option json :=
  match v with
  | JNull => inl TypeError
  | JObj props => inr (JsObject.get name props)
  | _ => inr None
  end.

(** What [for (const x of v)] iterates over. *)
Definition iterate (v : option json) : Error + list json :=
  match v with
  | Some (JArr items) => inr items
  | Some (JStr s) => inr (JsObject.chars s)
  | _ => inl TypeError
  end.

Module Path.

Fixpoint startsWith (s pre : string) : bool :=
  match pre, s with
  | EmptyString, _ => true
  | String a pre', String b s' => (Ascii.eqb a b) && startsWith s' pre'
  | String _ _, EmptyString => false
  end.

Fixpoint dropPrefix (s pre : string) : option string :=
  match pre, s with
  | EmptyString, _ => Some s
  | String a pre', String b s' =>
      if Ascii.eqb a b then dropPrefix s' pre' else None
  | String _ _, EmptyString => None
  end.

Definition endsWith (s suf : string) : bool :=
  startsWith (String.rev s) (String.rev suf).

(** [s.slice(0, -n)] *)
Definition dropLast (n : nat) (s : string) : string :=
  String.substring 0 (String.length s - n) s.

Fixpoint hasSlash (s : string) : bool :=
  match s with
  | EmptyString => false
  | String a r => (Ascii.N_of_ascii a =? 47)%N || hasSlash r
  end.

(** [path.join(folder, file)], for segments that need no normalising. *)
Definition join (folder file : string) : string := folder +:+ "/" +:+ file.

(** The name under which [p] is listed in [folder], if it is listed. *)
Definition childOf (folder p : string) : option string :=
  match dropPrefix p (folder +:+ "/") with
  | Some name => if hasSlash name || (name =? "")%string then None else Some name
  | None => None
  end.

End Path.

(** The disk: regular files by path, and the paths that are directories.
    Reading, writing or unlinking a directory fails. *)
Record Fs : Type := {
  files : gmap string FileText;
  dirs : gset string
}.

Module fs.

Definition readFile (p : string) (d : Fs) : Error + FileText :=
  if bool_decide (p ∈ dirs d) then inl (EISDIR p)
  else match files d !! p with
       | Some t => inr t
       | None => inl (ENOENT p)
       end.

Definition writeFile (p : string) (t : FileText) (d : Fs) : Error + Fs :=
  if bool_decide (p ∈ dirs d) then inl (EISDIR p)
  else inr {| files := <[p := t]> (files d); dirs := dirs d |}.

Definition unlink (p : string) (d : Fs) : Error + Fs :=
  if bool_decide (p ∈ dirs d) then inl (EISDIR p)
  else match files d !! p with
       | Some _ => inr {| files := delete p (files d); dirs := dirs d |}
       | None => inl (ENOENT p)
       end.

(** [mkdir(p, { recursive: true })] *)
Definition mkdir (p : string) (d : Fs) : Error + Fs :=
  match files d !! p with
  | Some _ => inl (EEXIST p)
  | None => inr {| files := files d; dirs := {[p]} ∪ dirs d |}
  end.

Definition readdir (p : string) (d : Fs) : Error + list string :=
  if bool_decide (p ∈ dirs d)
  then inr (omap (Path.childOf p) (elements (dom (files d) ∪ dirs d)))
  else inl (ENOENT p).

End fs.

(* ===================================================================== *)
(** * The database object and the world around it *)
(* ===================================================================== *)

(** The fields of a [JSLiteDB] instance that the storage core uses. *)
Record Db : Type := {
  folderPath : string;
  indexFilePath : string;
  collectionFiles : JsMap.t string;            (* Map<collection, filepath> *)
  collectionData : JsMap.t (JsMap.t json);     (* Map<collection, Map<id, document>> *)
  cache : JsMap.t json;                        (* key: "collection:id" *)
  isInitialized : bool;
  maxMemoryItems : Z;
  writeMutex : WriteMutex.t unit
}.

Definition upd_collectionFiles (f : JsMap.t string → JsMap.t string) (d : Db) : Db :=
  {| folderPath := folderPath d; indexFilePath := indexFilePath d;
     collectionFiles := f (collectionFiles d); collectionData := collectionData d;
     cache := cache d; isInitialized := isInitialized d;
     maxMemoryItems := maxMemoryItems d; writeMutex := writeMutex d |}.

Definition upd_collectionData
    (f : JsMap.t (JsMap.t json) → JsMap.t (JsMap.t json)) (d : Db) : Db :=
  {| folderPath := folderPath d; indexFilePath := indexFilePath d;
     collectionFiles := collectionFiles d; collectionData := f (collectionData d);
     cache := cache d; isInitialized := isInitialized d;
     maxMemoryItems := maxMemoryItems d; writeMutex := writeMutex d |}.

Definition upd_cache (f : JsMap.t json → JsMap.t json) (d : Db) : Db :=
  {| folderPath := folderPath d; indexFilePath := indexFilePath d;
     collectionFiles := collectionFiles d; collectionData := collectionData d;
     cache := f (cache d); isInitialized := isInitialized d;
     maxMemoryItems := maxMemoryItems d; writeMutex := writeMutex d |}.

Definition set_isInitialized (b : bool) (d : Db) : Db :=
  {| folderPath := folderPath d; indexFilePath := indexFilePath d;
     collectionFiles := collectionFiles d; collectionData := collectionData d;
     cache := cache d; isInitialized := b;
     maxMemoryItems := maxMemoryItems d; writeMutex := writeMutex d |}.

Definition set_writeMutex (m : WriteMutex.t unit) (d : Db) : Db :=
  {| folderPath := folderPath d; indexFilePath := indexFilePath d;
     collectionFiles := collectionFiles d; collectionData := collectionData d;
     cache := cache d; isInitialized := isInitialized d;
     maxMemoryItems := maxMemoryItems d; writeMutex := m |}.

(** The events handed to [emit]. *)
Inductive Event : Type :=
| collection_insert (collection : string) (id document : json)
| collection_update (collection : string) (id document : json)
| collection_delete (collection : string) (id document : json)
| collection_dropped (collection : string)
| database_cleared
| backup_done (backupPath : string)
| restore_done (backupPath : string).

(** A world is the database object, the disk, the value [Date.now()]
    reads, the string [_generateId] draws from the clock and the random
    source, and the events emitted so far. *)
Record World : Type := {
  db : Db;
  disk : Fs;
  clock : Z;
  freshId : string;
  emitted : list Event
}.

Definition upd_db (f : Db → Db) (w : World) : World :=
  {| db := f (db w); disk := disk w; clock := clock w;
     freshId := freshId w; emitted := emitted w |}.

Definition set_disk (d : Fs) (w : World) : World :=
  {| db := db w; disk := d; clock := clock w;
     freshId := freshId w; emitted := emitted w |}.

Definition add_event (e : Event) (w : World) : World :=
  {| db := db w; disk := disk w; clock := clock w;
     freshId := freshId w; emitted := emitted w ++ [e] |}.

(* ===================================================================== *)
(** * Computations: state, exceptions, and waiting on the mutex *)
(* ===================================================================== *)

Inductive Outcome (A : Type) : Type :=
| Returned (a : A)
| Thrown (e : Error)
| Pending.
Arguments Returned {A}.
Arguments Thrown {A}.
Arguments Pending {A}.

Definition M (A : Type) : Type := World → Outcome A * World.

Definition ret {A : Type} (a : A) : M A := fun w => (Returned a, w).

Definition throw {A : Type} (e : Error) : M A := fun w => (Thrown e, w).

Definition bind {A B : Type} (c : M A) (k : A → M B) : M B :=
  fun w =>
    match c w with
    | (Returned a, w') => k a w'
    | (Thrown e, w') => (Thrown e, w')
    | (Pending, w') => (Pending, w')
    end.

(** [try { body } catch (error) { handler }] *)
Definition tryCatch {A : Type} (body : M A) (handler : Error → M A) : M A :=
  fun w =>
    match body w with
    | (Thrown e, w') => handler e w'
    | r => r
    end.

Notation "'let*' x := c 'in' k" := (bind c (fun x => k))
  (at level 10, x name, c at level 100, k at level 200).
Notation "c >>> k" := (bind c (fun _ => k))
  (at level 100, k at level 200, right associativity).

Definition lift {A : Type} (r : Error + A) : M A :=
  match r with
  | inl e => throw e
  | inr a => ret a
  end.

Definition this : M Db := fun w => (Returned (db w), w).

Definition modify (f : Db → Db) : M unit := fun w => (Returned tt, upd_db f w).

Definition Date_now : M Z := fun w => (Returned (clock w), w).

Definition emit (e : Event) : M unit := fun w => (Returned tt, add_event e w).

Definition onDisk {A : Type} (op : Fs → Error + A) : M A :=
  fun w => lift (op (disk w)) w.

Definition changeDisk (op : Fs → Error + Fs) : M unit :=
  fun w =>
    match op (disk w) with
    | inl e => (Thrown e, w)
    | inr d => (Returned tt, set_disk d w)
    end.

Fixpoint forEach {A : Type} (l : list A) (body : A → M unit) : M unit :=
  match l with
  | [] => ret tt
  | x :: r => body x >>> forEach r body
  end.

(** [writeMutex.acquire(fn)]:
    [await this._acquire(); try { return await fn(); } finally { this.release(); }] *)
Definition acquire {A : Type} (fn : M A) : M A :=
  fun w =>
    let '(m, granted) := WriteMutex._acquire tt (writeMutex (db w)) in
    let w1 := upd_db (set_writeMutex m) w in
    if granted then
      match fn w1 with
      | (Pending, w2) => (Pending, w2)
      | (r, w2) =>
          (r, upd_db (set_writeMutex (WriteMutex.release (writeMutex (db w2))).1) w2)
      end
    else (Pending, w1).

(* ===================================================================== *)
(** * class JSLiteDB *)
(* ===================================================================== *)

Module JSLiteDB.

(** [constructor(options)], for the options the storage core reads.
    [folderPath] stands for the resolved path. *)
Definition new (folderPath : string) (maxMemoryItems : option Z) : Db :=
  {| folderPath := folderPath;
     indexFilePath := Path.join folderPath ".index.json";
     collectionFiles := JsMap.empty;
     collectionData := JsMap.empty;
     cache := JsMap.empty;
     isInitialized := false;
     maxMemoryItems :=
       match maxMemoryItems with
       | Some n => if n =? 0 then 10000 else n
       | None => 10000
       end;
     writeMutex := WriteMutex.new |}.

Definition _getCollectionFilePath (d : Db) (collectionName : string) : string :=
  Path.join (folderPath d) (collectionName +:+ ".json").

(** [Date.now().toString(36) + Math.random().toString(36).substring(2, 9)] *)
Definition _generateId : M string := fun w => (Returned (freshId w), w).

Definition _ensureFolder : M unit :=
  let* d := this in
  tryCatch (changeDisk (fs.mkdir (folderPath d)))
    (fun error =>
       if bool_decide (code error ≠ Some "EEXIST") then throw error else ret tt).

Definition _saveCollectionIndex : M unit :=
  let* d := this in
  let* now := Date_now in
  let indexData :=
    JObj [("version", JNum 2);
          ("timestamp", JNum now);
          ("collections", JArr (JStr <$> JsMap.keys (collectionFiles d)))] in
  changeDisk (fs.writeFile (indexFilePath d) (JSON_stringify indexData)).

(** The block shared by the loaders:
    [readFile], [JSON.parse], then [dataMap.set(id, document)] for each
    entry of the parsed object. *)
Definition readDataMap (filePath : string) : M (JsMap.t json) :=
  let* content := onDisk (fs.readFile filePath) in
  let* collectionData := lift (JSON_parse content) in
  let* entries := lift (Object_entries collectionData) in
  ret (JsMap.ofEntries entries).

Definition _scanCollections : M unit :=
  modify (upd_collectionFiles (fun _ => JsMap.empty)) >>>
  modify (upd_collectionData (fun _ => JsMap.empty)) >>>
  tryCatch
    (let* d := this in
     let* files := onDisk (fs.readdir (folderPath d)) in
     forEach files (fun file =>
       if Path.endsWith file ".json" && negb (Path.startsWith file ".") then
         let collectionName := Path.dropLast 5 file in
         let filePath := Path.join (folderPath d) file in
         modify (upd_collectionFiles (JsMap.set collectionName filePath)) >>>
         tryCatch
           (let* dataMap := readDataMap filePath in
            modify (upd_collectionData (JsMap.set collectionName dataMap)))
           (fun _ => ret tt)
       else ret tt))
    (fun error =>
       if bool_decide (code error ≠ Some "ENOENT") then throw error else ret tt).

(** A manifest lists collection names as strings; an entry of another
    type is keyed here by its string form. *)
Definition _loadCollectionIndex : M unit :=
  let* d := this in
  let* content := onDisk (fs.readFile (indexFilePath d)) in
  let* indexData := lift (JSON_parse content) in
  let* collections := lift (getProperty indexData "collections") in
  let* names := lift (iterate collections) in
  forEach names (fun entry =>
    let collectionName := ToString entry in
    let filePath := _getCollectionFilePath d collectionName in
    modify (upd_collectionFiles (JsMap.set collectionName filePath)) >>>
    tryCatch
      (let* dataMap := readDataMap filePath in
       modify (upd_collectionData (JsMap.set collectionName dataMap)))
      (fun _ => modify (upd_collectionFiles (JsMap.delete collectionName)))).

Definition _ensureInitialized : M unit :=
  let* d := this in
  if isInitialized d then ret tt
  else
    _ensureFolder >>>
    tryCatch _loadCollectionIndex
      (fun _ => _scanCollections >>> _saveCollectionIndex) >>>
    modify (set_isInitialized true).

Definition _saveCollection (collectionName : string) : M unit :=
  let* d := this in
  match JsMap.get collectionName (collectionData d) with
  | None => ret tt
  | Some collectionData =>
      let filePath := _getCollectionFilePath d collectionName in
      let dataObject := JObj (JsObject.fromEntries collectionData) in
      changeDisk (fs.writeFile filePath (JSON_stringify dataObject)) >>>
      modify (upd_collectionFiles (JsMap.set collectionName filePath))
  end.

Definition _loadCollection (collectionName : string) : M (JsMap.t json) :=
  let* d := this in
  let filePath := _getCollectionFilePath d collectionName in
  tryCatch
    (let* dataMap := readDataMap filePath in
     modify (upd_collectionData (JsMap.set collectionName dataMap)) >>>
     modify (upd_collectionFiles (JsMap.set collectionName filePath)) >>>
     ret dataMap)
    (fun error =>
       if bool_decide (code error = Some "ENOENT") then
         let dataMap := JsMap.empty in
         modify (upd_collectionData (JsMap.set collectionName dataMap)) >>>
         ret dataMap
       else throw error).

Definition _addToCache (key : string) (value : json) : M unit :=
  let* d := this in
  (if JsMap.size (cache d) >=? maxMemoryItems d then
     match JsMap.keys (cache d) with
     | firstKey :: _ => modify (upd_cache (JsMap.delete firstKey))
     | [] => ret tt
     end
   else ret tt) >>>
  modify (upd_cache (JsMap.set key value)).

(** [collections()] *)
Definition collections : M (list string) :=
  _ensureInitialized >>>
  let* d := this in
  ret (JsMap.keys (collectionData d)).

Definition unlinkQuietly (filePath : string) : M unit :=
  tryCatch (changeDisk (fs.unlink filePath)) (fun _ => ret tt).

Definition dropCollection (collectionName : string) : M bool :=
  _ensureInitialized >>>
  let* d := this in
  if negb (JsMap.has collectionName (collectionData d)) then ret false
  else
    modify (upd_collectionData (JsMap.delete collectionName)) >>>
    (match JsMap.get collectionName (collectionFiles d) with
     | Some filePath =>
         if negb (filePath =? "")%string then unlinkQuietly filePath else ret tt
     | None => ret tt
     end) >>>
    modify (upd_collectionFiles (JsMap.delete collectionName)) >>>
    let* d1 := this in
    let keysToRemove :=
      filter (fun cacheKey => Path.startsWith cacheKey (collectionName +:+ ":") = true)
             (JsMap.keys (cache d1)) in
    forEach keysToRemove (fun key => modify (upd_cache (JsMap.delete key))) >>>
    _saveCollectionIndex >>>
    emit (collection_dropped collectionName) >>>
    ret true.

Definition clear : M bool :=
  _ensureInitialized >>>
  tryCatch
    (let* d := this in
     forEach (JsMap.values (collectionFiles d)) unlinkQuietly >>>
     unlinkQuietly (indexFilePath d) >>>
     modify (upd_collectionData (fun _ => JsMap.empty)) >>>
     modify (upd_collectionFiles (fun _ => JsMap.empty)) >>>
     modify (upd_cache (fun _ => JsMap.empty)) >>>
     emit database_cleared >>>
     ret true)
    (fun error => throw (Failure "Failed to clear database" error)).

(** [count()]: documents over all collections *)
Definition count : M Z :=
  _ensureInitialized >>>
  let* d := this in
  ret (fold_left (fun total collectionData => total + JsMap.size collectionData)
                 (JsMap.values (collectionData d)) 0).

Definition init : M unit := _ensureInitialized.

(** [close()], without the HTTP server and the autosave timer. *)
Definition close : M unit :=
  let* d := this in
  (if isInitialized d
   then tryCatch _saveCollectionIndex (fun _ => ret tt)
   else ret tt) >>>
  modify (upd_cache (fun _ => JsMap.empty)) >>>
  modify (set_isInitialized false).

Definition save : M unit :=
  _ensureInitialized >>>
  let* d := this in
  forEach (JsMap.keys (collectionData d)) _saveCollection >>>
  _saveCollectionIndex.

Definition backup (backupPath : string) : M unit :=
  tryCatch
    (_ensureInitialized >>>
     let* now := Date_now in
     let* d := this in
     let collections :=
       fold_left
         (fun o entry => JsObject.assign entry.1 (JObj (JsObject.fromEntries entry.2)) o)
         (collectionData d) [] in
     let backupData :=
       JObj [("version", JNum 2);
             ("timestamp", JNum now);
             ("folderBased", JBool true);
             ("collections", JObj collections)] in
     changeDisk (fs.writeFile backupPath (JSON_stringify backupData)) >>>
     emit (backup_done backupPath))
    (fun error => throw (Failure "Failed to backup data" error)).

(** One turn of the loop over the collections of a backup. *)
Definition restoreOne (entry : string * json) : M unit :=
  let collectionName := entry.1 in
  let* documents := lift (Object_entries entry.2) in
  modify (upd_collectionData
            (JsMap.set collectionName (JsMap.ofEntries documents))) >>>
  _saveCollection collectionName.

(** The branch of [restore] for the folder-based format. *)
Definition restoreCollections (collections : json) : M unit :=
  let* entries := lift (Object_entries collections) in
  forEach entries restoreOne.

(** The branch of [restore] for the legacy key-value format. *)
Definition restoreLegacy (backupData : json) : M unit :=
  let* entries := lift (Object_entries backupData) in
  modify (upd_collectionData (JsMap.set "_default" (JsMap.ofEntries entries))) >>>
  _saveCollection "_default".

Definition truthy' (v : option json) : bool :=
  match v with
  | Some v' => truthy v'
  | None => false
  end.

Definition restore (backupPath : string) : M unit :=
  let* d0 := this in
  let oldCollectionData := collectionData d0 in     (* new Map(this.collectionData) *)
  let oldCollectionFiles := collectionFiles d0 in   (* new Map(this.collectionFiles) *)
  tryCatch
    (let* content := onDisk (fs.readFile backupPath) in
     let* backupData := lift (JSON_parse content) in
     _ensureInitialized >>>
     modify (upd_collectionData (fun _ => JsMap.empty)) >>>
     modify (upd_collectionFiles (fun _ => JsMap.empty)) >>>
     modify (upd_cache (fun _ => JsMap.empty)) >>>
     let* folderBased := lift (getProperty backupData "folderBased") in
     let* collections := lift (getProperty backupData "collections") in
     (match collections with
      | Some collections' =>
          if truthy' folderBased && truthy collections'
          then restoreCollections collections'
          else restoreLegacy backupData
      | None => restoreLegacy backupData
      end) >>>
     _saveCollectionIndex >>>
     emit (restore_done backupPath))
    (fun error =>
       modify (upd_collectionData (fun _ => oldCollectionData)) >>>
       modify (upd_collectionFiles (fun _ => oldCollectionFiles)) >>>
       throw (Failure "Failed to restore data" error)).

End JSLiteDB.

(* ===================================================================== *)
(** * class Collection *)
(* ===================================================================== *)

(** [options] of [find]; a field that is [None] is left out by the caller. *)
Record FindOptions : Type := {
  limit : option Z;
  skip : option Z;
  filter : option (json → string → bool)
}.

Definition noOptions : FindOptions :=
  {| limit := None; skip := None; filter := None |}.

(** The argument of [Collection.count]. *)
Inductive CountArg : Type :=
| CountAll                                            (* count() *)
| CountFilter (f : json → string → bool)              (* count(fn) *)
| CountOptions (f : option (json → string → bool)).   (* count({ filter }) *)

Module Collection.

Section Handle.
(** [this.name]; [this.db] is the database of the world. *)
Variable name : string.

Definition cacheKey (id : json) : string := name +:+ ":" +:+ ToString id.

(** [this.db.collectionData.get(this.name)], loaded on demand. *)
Definition getOrCreate : M (JsMap.t json) :=
  let* d := this in
  match JsMap.get name (collectionData d) with
  | Some collectionData => ret collectionData
  | None => JSLiteDB._loadCollection name
  end.

(** [insert(documentOrId, document)]; [document = None] is the call
    with one argument. *)
Definition insert (documentOrId : json) (document : option json) : M json :=
  JSLiteDB._ensureInitialized >>>
  acquire
    (let* args :=
       match document with
       | None =>
           let* id := JSLiteDB._generateId in ret (JStr id, documentOrId)
       | Some doc => ret (documentOrId, doc)
       end in
     let id := args.1 in
     let doc := args.2 in
     let stringId := ToString id in
     let* collectionData := getOrCreate in
     if JsMap.has stringId collectionData then
       throw (DocumentExists (ToString id) name)
     else
       modify (upd_collectionData
                 (JsMap.set name (JsMap.set stringId doc collectionData))) >>>
       JSLiteDB._addToCache (cacheKey id) doc >>>
       JSLiteDB._saveCollection name >>>
       JSLiteDB._saveCollectionIndex >>>
       emit (collection_insert name id doc) >>>
       ret (withId id doc)).

Definition update (id : json) (document : json) : M json :=
  JSLiteDB._ensureInitialized >>>
  acquire
    (let stringId := ToString id in
     let* collectionData := getOrCreate in
     modify (upd_collectionData
               (JsMap.set name (JsMap.set stringId document collectionData))) >>>
     JSLiteDB._addToCache (cacheKey id) document >>>
     JSLiteDB._saveCollection name >>>
     JSLiteDB._saveCollectionIndex >>>
     emit (collection_update name id document) >>>
     ret document).

(** [findById(id)]; the result [JNull] is [null]. *)
Definition findById (id : json) : M json :=
  JSLiteDB._ensureInitialized >>>
  let* d := this in
  match JsMap.get (cacheKey id) (cache d) with
  | Some cached => ret cached
  | None =>
      match JsMap.get name (collectionData d) with
      | None => ret JNull
      | Some collectionData =>
          match JsMap.get (ToString id) collectionData with
          | None => ret JNull
          | Some document =>
              if negb (truthy document) then ret JNull
              else
                JSLiteDB._addToCache (cacheKey id) document >>>
                ret document
          end
      end
  end.

(** [limit && results.length >= limit] *)
Definition limitReached (limit : option Z) (results : list json) : bool :=
  match limit with
  | Some n => negb (n =? 0) && (Z.of_nat (length results) >=? n)
  | None => false
  end.

(** [!filter || (typeof filter === 'function' && filter(document, id))] *)
Definition passes (filter : option (json → string → bool))
    (document : json) (id : string) : bool :=
  match filter with
  | None => true
  | Some f => f document id
  end.

(** The [for] loop of [find], from the entries still to visit, the
    counter [skipped] and the [results] pushed so far. *)
Fixpoint findLoop (limit : option Z) (skip : Z)
    (filter : option (json → string → bool))
    (entries : list (string * json)) (skipped : Z) (results : list json)
    : list json :=
  match entries with
  | [] => results
  | (id, document) :: rest =>
      if skipped <? skip then
        findLoop limit skip filter rest (skipped + 1) results      (* continue *)
      else if limitReached limit results then results                (* break *)
      else if passes filter document id then
        findLoop limit skip filter rest skipped
                 (results ++ [withId (JStr id) document])
      else findLoop limit skip filter rest skipped results
  end.

Definition find (options : FindOptions) : M (list json) :=
  JSLiteDB._ensureInitialized >>>
  let skip := default 0 (skip options) in
  let* d := this in
  match JsMap.get name (collectionData d) with
  | None => ret []
  | Some collectionData =>
      ret (findLoop (limit options) skip (filter options) collectionData 0 [])
  end.

(** [findOne(filter)]: [results[0] || null] *)
Definition findOne (filter : option (json → string → bool)) : M json :=
  let* results := find {| limit := Some 1; skip := None; filter := filter |} in
  ret (match results with
       | first :: _ => first
       | [] => JNull
       end).

Definition delete (id : json) : M bool :=
  JSLiteDB._ensureInitialized >>>
  acquire
    (let* d := this in
     match JsMap.get name (collectionData d) with
     | None => ret false
     | Some collectionData =>
         match JsMap.get (ToString id) collectionData with
         | None => ret false
         | Some document =>
             let collectionData' := JsMap.delete (ToString id) collectionData in
             modify (upd_collectionData (JsMap.set name collectionData')) >>>
             modify (upd_cache (JsMap.delete (cacheKey id))) >>>
             JSLiteDB._saveCollection name >>>
             (if JsMap.size collectionData' =? 0 then
                modify (upd_collectionData (JsMap.delete name)) >>>
                let* d1 := this in
                (match JsMap.get name (collectionFiles d1) with
                 | Some filePath =>
                     if negb (filePath =? "")%string
                     then JSLiteDB.unlinkQuietly filePath else ret tt
                 | None => ret tt
                 end) >>>
                modify (upd_collectionFiles (JsMap.delete name))
              else ret tt) >>>
             JSLiteDB._saveCollectionIndex >>>
             emit (collection_delete name id document) >>>
             ret true
         end
     end).

Definition count (options : CountArg) : M Z :=
  JSLiteDB._ensureInitialized >>>
  let* d := this in
  match JsMap.get name (collectionData d) with
  | None => ret 0
  | Some collectionData =>
      let filter :=
        match options with
        | CountAll => None
        | CountFilter f => Some f
        | CountOptions f => f
        end in
      match filter with
      | None => ret (JsMap.size collectionData)
      | Some f =>
          ret (fold_left
                 (fun count entry =>
                    if f entry.2 entry.1 then count + 1 else count)
                 collectionData 0)
      end
  end.

(** [stream()], consumed to its end: the values it yields. *)
Definition stream : M (list json) :=
  JSLiteDB._ensureInitialized >>>
  let* d := this in
  match JsMap.get name (collectionData d) with
  | None => ret []
  | Some collectionData =>
      ret (map (fun entry => withId (JStr entry.1) entry.2) collectionData)
  end.

End Handle.

End Collection.

(* ===================================================================== *)
(** * Callers of [acquire(fn)] sharing one mutex *)
(* ===================================================================== *)

(** Each caller of [acquire(fn)] is a natural number; the [resolve]
    callback it leaves in the queue is named after it.  A caller runs up to
    [await this._acquire()], later resumes and runs [fn], and, when [fn]
    has settled, runs [this.release()] in the [finally] block. *)
Module Scheduler.

Inductive Phase : Type :=
| Waiting    (* its resolve callback sits in the queue *)
| Granted    (* its promise is resolved, fn has not started yet *)
| Running    (* fn is executing *)
| Done.      (* fn has settled and release() was called *)

Record State : Type := {
  mutex : WriteMutex.t nat;
  phase : gmap nat Phase;      (* callers that have not called yet are absent *)
  arrivals : list nat;         (* callers in the order of their calls *)
  grants : list nat            (* callers in the order their promises were resolved *)
}.

Definition init : State :=
  {| mutex := WriteMutex.new; phase := ∅; arrivals := []; grants := [] |}.

(** Caller [c] enters [acquire(fn)] and runs [this._acquire()]. *)
Definition call (c : nat) (s : State) : State :=
  let '(m, granted) := WriteMutex._acquire c (mutex s) in
  {| mutex := m;
     phase := <[c := if granted then Granted else Waiting]> (phase s);
     arrivals := arrivals s ++ [c];
     grants := if granted then grants s ++ [c] else grants s |}.

(** The continuation of [await this._acquire()] runs: [fn()] is called. *)
Definition start (c : nat) (s : State) : State :=
  {| mutex := mutex s;
     phase := <[c := Running]> (phase s);
     arrivals := arrivals s;
     grants := grants s |}.

(** [fn] settles, by a result or by an exception: [this.release()]. *)
Definition finish (c : nat) (s : State) : State :=
  let '(m, woken) := WriteMutex.release (mutex s) in
  let settled := <[c := Done]> (phase s) in
  {| mutex := m;
     phase := match woken with
              | Some next => <[next := Granted]> settled
              | None => settled
              end;
     arrivals := arrivals s;
     grants := match woken with
               | Some next => grants s ++ [next]
               | None => grants s
               end |}.

Inductive step : State → State → Prop :=
| step_call (c : nat) (s : State) :
    phase s !! c = None → step s (call c s)
| step_start (c : nat) (s : State) :
    phase s !! c = Some Granted → step s (start c s)
| step_finish (c : nat) (s : State) :
    phase s !! c = Some Running → step s (finish c s).

(** The states a run of the callers can be in. *)
Inductive reachable : State → Prop :=
| reach_init : reachable init
| reach_step (s s' : State) : reachable s → step s s' → reachable s'.

(** The caller holds the lock. *)
Definition holds (s : State) (c : nat) : Prop :=
  phase s !! c = Some Granted ∨ phase s !! c = Some Running.

(** What every reachable state satisfies. *)
Definition invariant (s : State) : Prop :=
  (∀ c1 c2, holds s c1 → holds s c2 → c1 = c2)
  ∧ (∀ c, holds s c → WriteMutex.locked (mutex s) = true)
  ∧ (WriteMutex.locked (mutex s) = false → WriteMutex.queue (mutex s) = [])
  ∧ arrivals s = grants s ++ WriteMutex.queue (mutex s).

(** The queue holds the waiting callers, each once, and a locked mutex
    has a caller that will release it. *)
Definition accounted (s : State) : Prop :=
  (∀ c, phase s !! c = Some Waiting ↔ c ∈ WriteMutex.queue (mutex s))
  ∧ NoDup (WriteMutex.queue (mutex s))
  ∧ (WriteMutex.locked (mutex s) = true → ∃ c, holds s c).

End Scheduler.

(* ===================================================================== *)
(** * class QueryResult *)
(* ===================================================================== *)

(** [Array.prototype.slice(start, end)] for integer arguments; [end] is
    [None] when the argument is left out. *)
Definition slice {A : Type} (start : Z) (end_ : option Z) (l : list A) : list A :=
  let len := Z.of_nat (length l) in
  let relative := fun i => if i <? 0 then Z.max (len + i) 0 else Z.min i len in
  let k := relative start in
  let final := match end_ with
               | Some e => relative e
               | None => len
               end in
  take (Z.to_nat (final - k)) (drop (Z.to_nat k) l).

Module QueryResult.

(** An element of [this.results]: [{ key, value }]. *)
Record Item : Type := { key : string; value : json }.

(** The chainable methods return the new [this.results]; [sort] is left
    out. *)
Definition limit (count : Z) (results : list Item) : list Item :=
  slice 0 (Some count) results.

Definition skip (count : Z) (results : list Item) : list Item :=
  slice count None results.

Definition count (results : list Item) : Z := Z.of_nat (length results).

(** [this.results[0]]; [None] is undefined. *)
Definition first (results : list Item) : option Item := head results.

(** [this.results[this.results.length - 1]] *)
Definition last (results : list Item) : option Item := List.last (Some <$> results) None.

Definition toArray (results : list Item) : list Item := results.

Definition values (results : list Item) : list json := map value results.

Definition keys (results : list Item) : list string := map key results.

Definition filter (f : json → string → bool) (results : list Item) : list Item :=
  List.filter (fun item => f (value item) (key item)) results.

Definition map {B : Type} (mapper : json → string → B) (results : list Item) : list B :=
  List.map (fun item => mapper (value item) (key item)) results.

End QueryResult.

(* ===================================================================== *)
(** * Vocabulary of the statements *)
(* ===================================================================== *)

(** The store has been initialised and no writer is inside or waiting. *)
Definition ready (w : World) : Prop :=
  isInitialized (db w) = true ∧ WriteMutex.idle (writeMutex (db w)).

(** The ID-to-body mapping of a collection, and the mapping of the whole
    store, without the iteration order. *)
Definition bodies (m : JsMap.t json) : gmap string json := list_to_map m.

Definition store (cd : JsMap.t (JsMap.t json)) : gmap string (gmap string json) :=
  list_to_map (prod_map id bodies <$> cd).

(** Every [Map] of the database holds each key once. *)
Definition wellFormed (d : Db) : Prop :=
  JsMap.wf (collectionData d) ∧
  Forall (fun entry => JsMap.wf entry.2) (collectionData d).

(** The entries [find] selects according to the specification: drop
    [skip] entries, keep the ones that pass, attach the IDs. *)
Definition selected (skip : Z) (filter : option (json → string → bool))
    (entries : list (string * json)) : list json :=
  map (fun entry => withId (JStr entry.1) entry.2)
      (List.filter (fun entry => Collection.passes filter entry.2 entry.1)
                   (drop (Z.to_nat skip) entries)).

(** [find] as the specification words it: stop once [limit] passing
    entries have been collected. *)
Definition findAsSpecified (limit skip : Z) (filter : option (json → string → bool))
    (entries : list (string * json)) : list json :=
  take (Z.to_nat limit) (selected skip filter entries).

(** Taking and giving back a mutex nobody uses. *)
Definition lock (w : World) : World :=
  upd_db (set_writeMutex (WriteMutex.Mk true [])) w.

Definition unlock (w : World) : World :=
  upd_db (set_writeMutex (WriteMutex.release (writeMutex (db w))).1) w.

(** The passing entries of a list, with their IDs attached. *)
Definition matching (filter : option (json → string → bool))
    (entries : list (string * json)) : list json :=
  map (fun entry => withId (JStr entry.1) entry.2)
      (List.filter (fun entry => Collection.passes filter entry.2 entry.1) entries).

(** The part of [found] the loop of [find] still pushes when it already
    holds [results]. *)
Definition stillPushed (limit : option Z) (results found : list json) : list json :=
  match limit with
  | Some n =>
      if n =? 0 then found
      else take (Z.to_nat (n - Z.of_nat (length results))) found
  | None => found
  end.

(** What [find] computes on the entries of a collection: a limit of zero
    is no limit. *)
Definition findResult (limit skip : option Z) (filter : option (json → string → bool))
    (entries : list (string * json)) : list json :=
  let all := selected (default 0 skip) filter entries in
  match limit with
  | Some n => if n =? 0 then all else take (Z.to_nat n) all
  | None => all
  end.

(** C2 as the specification states it, for one call of [find]. *)
Definition findStopsAtLimit (name : string) (w : World)
    (limit skip : Z) (filter : json → string → bool) : Prop :=
  ∀ entries,
    JsMap.get name (collectionData (db w)) = Some entries →
    (Collection.find name
       {| limit := Some limit; skip := Some skip; filter := Some filter |} w).1
    = Returned (findAsSpecified limit skip (Some filter) entries).

(** The last clause of C9 for one store: a limit that changes the result
    of [find] is strictly positive. *)
Definition onlyPositiveLimitTruncates (name : string) (w : World) : Prop :=
  ∀ (n : Z) skip filter,
    (Collection.find name {| limit := Some n; skip := skip; filter := filter |} w).1
    ≠ (Collection.find name {| limit := None; skip := skip; filter := filter |} w).1 →
    0 < n.

(** C7 as the specification states it, for [update]: the returned
    document carries the ID. *)
Definition updateReturnsWithId (name : string) (w : World) (id body : json) : Prop :=
  ∀ r w', Collection.update name id body w = (Returned r, w') → r = withId id body.

(** The [id] property a body has of its own, if it has one. *)
Definition ownId (body : json) : option json :=
  JsObject.get "id" (JsObject.ownProperties body).

(** A body that holds each of its properties once and has no [id]
    property of its own. *)
Definition plain (body : json) : Prop :=
  JsMap.wf (JsObject.ownProperties body) ∧ ownId body = None.

(** [r] is an object whose [id] property is [id] and whose other
    properties are those of [body]. *)
Definition attached (id body r : json) : Prop :=
  ∃ props,
    r = JObj props
    ∧ JsObject.get "id" props = Some id
    ∧ ∀ k, k ≠ "id"%string →
           JsObject.get k props = JsObject.get k (JsObject.ownProperties body).


(** The cache once [_addToCache(key, value)] has run. *)
Definition cacheAfterAdd (key : string) (value : json) (d : Db) : JsMap.t json :=
  JsMap.set key value
    (if JsMap.size (cache d) >=? maxMemoryItems d then
       match JsMap.keys (cache d) with
       | firstKey :: _ => JsMap.delete firstKey (cache d)
       | [] => cache d
       end
     else cache d).

(** The manifest [_saveCollectionIndex] writes at time [now] for the
    collections [names]. *)
Definition manifest (now : Z) (names : list string) : FileText :=
  JSON_stringify
    (JObj [("version", JNum 2); ("timestamp", JNum now);
           ("collections", JArr (JStr <$> names))]).

(** The disk after a file has been written, and after one has been
    removed. *)
Definition written (p : string) (t : FileText) (d : Fs) : Fs :=
  {| files := <[p := t]> (files d); dirs := dirs d |}.

Definition removed (p : string) (d : Fs) : Fs :=
  {| files := delete p (files d); dirs := dirs d |}.

(** The [collections] object [backup] builds, and the document it writes
    at time [now]. *)
Definition backupCollections (cd : JsMap.t (JsMap.t json)) : JsObject.t :=
  fold_left
    (fun o entry => JsObject.assign entry.1 (JObj (JsObject.fromEntries entry.2)) o)
    cd [].

Definition backupDocument (now : Z) (cd : JsMap.t (JsMap.t json)) : json :=
  JObj [("version", JNum 2);
        ("timestamp", JNum now);
        ("folderBased", JBool true);
        ("collections", JObj (backupCollections cd))].

(** The disk after [unlink(p)] inside a [try] whose [catch] is empty. *)
Definition unlinked (d : Fs) (p : string) : Fs :=
  if bool_decide (p ∈ dirs d) then d else removed p d.

(** The collection data the folder-based branch of [restore] builds from
    the entries of the [collections] object. *)
Definition restoredData (entries : list (string * json))
    (cd : JsMap.t (JsMap.t json)) : JsMap.t (JsMap.t json) :=
  fold_left
    (fun cd' entry =>
       JsMap.set entry.1 (JsMap.ofEntries (JsObject.ownProperties entry.2)) cd')
    entries cd.

(** C5 as the specification states it, for one store and one path. *)
Definition backupRestoreRoundTrips (w : World) (backupPath : string) : Prop :=
  ∃ w1 w2 w3,
    JSLiteDB.backup backupPath w = (Returned tt, w1)
    ∧ JSLiteDB.clear w1 = (Returned true, w2)
    ∧ JSLiteDB.restore backupPath w2 = (Returned tt, w3)
    ∧ store (collectionData (db w3)) = store (collectionData (db w1)).

(** The world in which [insert] or [update] has stored [doc] under
    [id] in a collection that held [entries], and has emitted [ev]. *)
Definition afterStore (name : string) (id doc : json) (entries : JsMap.t json)
    (ev : Event) (w : World) : World :=
  let d := db w in
  let filePath := JSLiteDB._getCollectionFilePath d name in
  let entries' := JsMap.set (ToString id) doc entries in
  let files' := JsMap.set name filePath (collectionFiles d) in
  {| db :=
       {| folderPath := folderPath d;
          indexFilePath := indexFilePath d;
          collectionFiles := files';
          collectionData := JsMap.set name entries' (collectionData d);
          cache := cacheAfterAdd (Collection.cacheKey name id) doc d;
          isInitialized := isInitialized d;
          maxMemoryItems := maxMemoryItems d;
          writeMutex := writeMutex d |};
     disk :=
       written (indexFilePath d) (manifest (clock w) (JsMap.keys files'))
         (written filePath (JSON_stringify (JObj (JsObject.fromEntries entries')))
            (disk w));
     clock := clock w;
     freshId := freshId w;
     emitted := emitted w ++ [ev] |}.

(** The name holds no colon. *)
Fixpoint colonFree (s : string) : bool :=
  match s with
  | EmptyString => true
  | String a r => negb (Ascii.N_of_ascii a =? 58)%N && colonFree r
  end.

(** The data map the loaders build from the file at [p], when the file
    can be read, parsed and enumerated. *)
Definition fileData (d : Fs) (p : string) : option (JsMap.t json) :=
  match fs.readFile p d with
  | inr content =>
      match JSON_parse content with
      | inr value =>
          match Object_entries value with
          | inr entries => Some (JsMap.ofEntries entries)
          | inl _ => None
          end
      | inl _ => None
      end
  | inl _ => None
  end.

(** Of the collections [names], the ones whose file in [folder] can be
    loaded: their data maps and their files, in the order of [names]. *)
Definition loadedData (d : Fs) (folder : string) (names : list string)
    : JsMap.t (JsMap.t json) :=
  omap (fun name =>
          (fun dataMap => (name, dataMap))
            <$> fileData d (Path.join folder (name +:+ ".json")))
       names.

Definition loadedFiles (d : Fs) (folder : string) (names : list string)
    : JsMap.t string :=
  omap (fun name =>
          (fun _ => (name, Path.join folder (name +:+ ".json")))
            <$> fileData d (Path.join folder (name +:+ ".json")))
       names.

(** A small store used to run the code on concrete inputs. *)
Module Sample.

Definition ann : json := JObj [("name", JStr "Ann"); ("age", JNum 31)].
Definition bob : json := JObj [("name", JStr "Bob"); ("age", JNum 17)].

Definition database : Db :=
  {| folderPath := "data";
     indexFilePath := "data/.index.json";
     collectionFiles := [("users", "data/users.json")];
     collectionData := [("users", [("1", ann)])];
     cache := [];
     isInitialized := true;
     maxMemoryItems := 10000;
     writeMutex := WriteMutex.new |}.

Definition world : World :=
  {| db := database;
     disk := {| files := {[ "data/users.json" := Json (JObj [("1", ann)]);
                            "data/.index.json" := manifest 1700000000000 ["users"] ]};
                dirs := {[ "data" ]} |};
     clock := 1700000000001;
     freshId := "lozq3x1k8f2a9bc";
     emitted := [] |}.

(** Five documents; the filter below passes the ones at positions 1
    and 3. *)
Definition adult (document : json) (id : string) : bool :=
  match document with
  | JObj props =>
      match JsObject.get "age" props with
      | Some (JNum n) => 18 <=? n
      | _ => false
      end
  | _ => false
  end.

Definition person (name : string) (age : Z) : json :=
  JObj [("name", JStr name); ("age", JNum age)].

Definition five : list (string * json) :=
  [("a", person "Al" 12); ("b", person "Bea" 40); ("c", person "Cy" 9);
   ("d", person "Di" 25); ("e", person "Ed" 3)].

Definition fiveWorld : World :=
  upd_db (upd_collectionData (fun _ => [("people", five)])) world.

(** A backup of two collections, and a disk on which a directory sits
    where the file of the second one belongs. *)
Definition twoCollections : json :=
  backupDocument 1700000000000 [("a", [("1", ann)]); ("b", [("2", bob)])].

Definition blockedWorld : World :=
  {| db := database;
     disk := {| files := {[ "data/users.json" := Json (JObj [("1", ann)]);
                            "data/.index.json" := manifest 1700000000000 ["users"];
                            "backup.json" := Json twoCollections ]};
                dirs := {[ "data"; "data/b.json" ]} |};
     clock := 1700000000001;
     freshId := "lozq3x1k8f2a9bc";
     emitted := [] |}.

End Sample.

(* ===================================================================== *)
(** * Proof steps used throughout *)
(* ===================================================================== *)

(** Projections out of updated records. *)
Ltac norm :=
  unfold JSLiteDB._getCollectionFilePath, lock, unlock in *;
  cbn [db disk clock freshId emitted upd_db set_disk add_event lock unlock
       upd_collectionFiles upd_collectionData upd_cache set_isInitialized
       set_writeMutex folderPath indexFilePath collectionFiles collectionData
       cache isInitialized maxMemoryItems writeMutex written removed files dirs
       JSLiteDB._getCollectionFilePath fst snd WriteMutex.release
       WriteMutex.queue WriteMutex.locked] in *.

Lemma bind_inv {A B : Type} (c : M A) (k : A → M B) w b w' :
  bind c k w = (Returned b, w') →
  ∃ a w1, c w = (Returned a, w1) ∧ k a w1 = (Returned b, w').
Proof.
  unfold bind. destruct (c w) as [[a|e|] w1]; [eauto | done | done].
Qed.

(** Splits a successful [let*] into its two halves. *)
Tactic Notation "inv_bind" hyp(H) "as" ident(w) ident(Hw) :=
  apply bind_inv in H as (? & w & Hw & H).

(** The same, reducing every updated record to its fields. *)
Ltac normalise :=
  cbv beta iota zeta delta
    [db disk clock freshId emitted upd_db set_disk add_event lock unlock
     upd_collectionFiles upd_collectionData upd_cache set_isInitialized
     set_writeMutex folderPath indexFilePath collectionFiles collectionData
     cache isInitialized maxMemoryItems writeMutex written removed files dirs
     JSLiteDB._getCollectionFilePath fst snd WriteMutex.release
     WriteMutex.queue WriteMutex.locked JsMap.empty].
(* ===================================================================== *)
(** * Facts about [Map] *)
(* ===================================================================== *)

Section MapFacts.
Context {V : Type}.
Implicit Types (m : JsMap.t V) (k : string) (v : V).

Lemma has_get k m : JsMap.has k m = true ↔ is_Some (JsMap.get k m).
Proof.
  induction m as [|[k' v'] m IH]; simpl.
  - split; [done | intros [? ?]; done].
  - destruct (String.eqb_spec k k'); simpl; [split; eauto | exact IH].
Qed.

Lemma has_false_get k m : JsMap.has k m = false ↔ JsMap.get k m = None.
Proof.
  rewrite <- not_true_iff_false, has_get, <- eq_None_not_Some. done.
Qed.

Lemma get_set_eq k v m : JsMap.get k (JsMap.set k v m) = Some v.
Proof.
  induction m as [|[k' v'] m IH]; simpl.
  - by rewrite String.eqb_refl.
  - destruct (String.eqb_spec k k') as [->|Hne]; simpl.
    + by rewrite String.eqb_refl.
    + destruct (String.eqb_spec k k'); [done | exact IH].
Qed.

Lemma get_set_ne k k' v m :
  k ≠ k' → JsMap.get k' (JsMap.set k v m) = JsMap.get k' m.
Proof.
  intros Hne. induction m as [|[k0 v0] m IH]; simpl.
  - destruct (String.eqb_spec k' k); [congruence | done].
  - destruct (String.eqb_spec k k0) as [->|Hk]; simpl.
    + destruct (String.eqb_spec k' k0); [congruence | done].
    + destruct (String.eqb_spec k' k0); [done | exact IH].
Qed.

Lemma get_delete_eq k m : JsMap.get k (JsMap.delete k m) = None.
Proof.
  unfold JsMap.delete. induction m as [|[k' v'] m IH]; [done|].
  rewrite filter_cons. simpl. case_decide; simpl; [|exact IH].
  destruct (String.eqb_spec k k'); [congruence | exact IH].
Qed.

Lemma get_delete_ne k k' m :
  k ≠ k' → JsMap.get k' (JsMap.delete k m) = JsMap.get k' m.
Proof.
  intros Hne. unfold JsMap.delete.
  induction m as [|[k0 v0] m IH]; [done|].
  rewrite filter_cons. simpl. case_decide as Hk; simpl.
  - destruct (String.eqb_spec k' k0); [done | exact IH].
  - destruct (String.eqb_spec k' k0); [congruence | exact IH].
Qed.

Lemma has_delete_eq k m : JsMap.has k (JsMap.delete k m) = false.
Proof. apply has_false_get, get_delete_eq. Qed.

Lemma keys_delete k m : k ∉ JsMap.keys (JsMap.delete k m).
Proof.
  unfold JsMap.keys, JsMap.delete. intros Hin.
  apply list_elem_of_fmap in Hin as [[k' v'] [-> Hin]].
  apply list_elem_of_filter in Hin as [Hne _]. by apply Hne.
Qed.

Lemma get_bodies k m : JsMap.get k m = (list_to_map m : gmap string V) !! k.
Proof.
  induction m as [|[k' v'] m IH]; simpl; [by rewrite lookup_empty|].
  destruct (String.eqb_spec k k') as [->|Hne].
  - by rewrite lookup_insert_eq.
  - by rewrite lookup_insert_ne.
Qed.

Lemma get_None_keys k m : JsMap.get k m = None ↔ k ∉ JsMap.keys m.
Proof.
  rewrite get_bodies. unfold JsMap.keys. symmetry. apply not_elem_of_list_to_map.
Qed.

(** [set] of a fresh key appends. *)
Lemma set_fresh k v m : k ∉ JsMap.keys m → JsMap.set k v m = m ++ [(k, v)].
Proof.
  induction m as [|[k' v'] m IH]; simpl; [done|].
  intros Hnin. apply not_elem_of_cons in Hnin as [Hne Hnin].
  destruct (String.eqb_spec k k'); [done|]. by rewrite IH.
Qed.

Lemma keys_set k v m :
  JsMap.keys (JsMap.set k v m) =
  if JsMap.has k m then JsMap.keys m else JsMap.keys m ++ [k].
Proof.
  unfold JsMap.keys. induction m as [|[k' v'] m IH]; csimpl; [done|].
  destruct (String.eqb_spec k k'); csimpl; [done|].
  rewrite IH. by destruct (JsMap.has k m).
Qed.

Lemma wf_set k v m : JsMap.wf m → JsMap.wf (JsMap.set k v m).
Proof.
  unfold JsMap.wf. intros Hm. rewrite keys_set.
  destruct (JsMap.has k m) eqn:Hk; [done|].
  apply NoDup_app. split_and!; [done | | apply NoDup_singleton].
  intros x Hx Hx'. apply list_elem_of_singleton in Hx' as ->.
  apply has_false_get, get_None_keys in Hk. done.
Qed.

Lemma wf_delete k m : JsMap.wf m → JsMap.wf (JsMap.delete k m).
Proof.
  unfold JsMap.wf, JsMap.keys, JsMap.delete.
  induction m as [|[k' v'] m IH]; [done|].
  intros Hnd. rewrite fmap_cons in Hnd.
  apply NoDup_cons in Hnd as [Hnin Hm].
  rewrite filter_cons. case_decide; [|by apply IH].
  rewrite fmap_cons. apply NoDup_cons. split; [|by apply IH].
  intros Hin. apply Hnin.
  apply list_elem_of_fmap in Hin as [kv [Heq Hin]].
  apply list_elem_of_filter in Hin as [_ Hin].
  apply list_elem_of_fmap. eauto.
Qed.

(** Building a [Map] from entries with distinct keys keeps the entries. *)
Lemma ofEntries_wf_from (entries acc : list (string * V)) :
  NoDup ((acc ++ entries).*1) →
  fold_left (fun m kv => JsMap.set kv.1 kv.2 m) entries acc = acc ++ entries.
Proof.
  revert acc. induction entries as [|[k v] entries IH]; intros acc Hnd; simpl.
  - by rewrite app_nil_r.
  - rewrite set_fresh.
    + rewrite IH; rewrite <- app_assoc; [done|]. exact Hnd.
    + rewrite fmap_app, fmap_cons in Hnd.
      apply NoDup_app in Hnd as (_ & Hdisj & _).
      intros Hin. apply (Hdisj k Hin). simpl. left.
Qed.

Lemma ofEntries_wf (entries : list (string * V)) :
  NoDup (entries.*1) → JsMap.ofEntries entries = entries.
Proof. intros Hnd. unfold JsMap.ofEntries. by rewrite ofEntries_wf_from. Qed.

End MapFacts.

(* ===================================================================== *)
(** * Running computations *)
(* ===================================================================== *)

Section Run.
Context {A B : Type}.

Lemma bind_Returned (c : M A) (k : A → M B) w a w1 :
  c w = (Returned a, w1) → bind c k w = k a w1.
Proof. unfold bind. by intros ->. Qed.

Lemma bind_Thrown (c : M A) (k : A → M B) w e w1 :
  c w = (Thrown e, w1) → bind c k w = (Thrown e, w1).
Proof. unfold bind. by intros ->. Qed.

End Run.

Lemma ensureInitialized_ready w :
  isInitialized (db w) = true → JSLiteDB._ensureInitialized w = (Returned tt, w).
Proof.
  intros Hinit. unfold JSLiteDB._ensureInitialized, bind, this. by rewrite Hinit.
Qed.

Lemma acquire_idle {A : Type} (fn : M A) w :
  WriteMutex.idle (writeMutex (db w)) →
  acquire fn w =
  match fn (lock w) with
  | (Pending, w2) => (Pending, w2)
  | (r, w2) => (r, unlock w2)
  end.
Proof.
  intros [Hl Hq]. unfold acquire, WriteMutex._acquire, lock.
  rewrite Hl, Hq. simpl. by destruct (fn _) as [[?|?|] ?].
Qed.

Lemma unlock_lock w : WriteMutex.idle (writeMutex (db w)) → unlock (lock w) = w.
Proof.
  destruct w as [[? ? ? ? ? ? ? [l q]] ? ? ? ?]. intros [Hl Hq].
  simpl in *. by subst.
Qed.

(** C1.  A second insert under an ID that the collection already holds
    (after [String(id)]) throws the "already exists" error and leaves the
    whole world as it was: the collection map, the cache, the stored
    document, the file map and the disk. *)
Theorem insert_duplicate_rejected name w id body entries :
  ready w →
  JsMap.get name (collectionData (db w)) = Some entries →
  JsMap.has (ToString id) entries = true →
  Collection.insert name id (Some body) w
  = (Thrown (DocumentExists (ToString id) name), w).
Proof.
  intros [Hinit Hidle] Hcoll Hhas.
  unfold Collection.insert.
  rewrite (bind_Returned _ _ _ _ _ (ensureInitialized_ready w Hinit)).
  rewrite (acquire_idle _ _ Hidle).
  unfold bind at 1. unfold ret at 1.
  unfold bind at 1. unfold Collection.getOrCreate at 1.
  unfold bind at 1. unfold this at 1.
  change (collectionData (db (lock w))) with (collectionData (db w)).
  rewrite Hcoll. unfold ret at 1. cbn [fst snd].
  rewrite Hhas. unfold throw. by rewrite unlock_lock.
Qed.

Lemma insert_duplicate_rejected_witness :
  Collection.insert "users" (JNum 1) (Some Sample.bob) Sample.world
  = (Thrown (DocumentExists "1" "users"), Sample.world).
Proof.
  apply (insert_duplicate_rejected "users" Sample.world (JNum 1) Sample.bob
           [("1", Sample.ann)]).
  - split; [reflexivity | split; reflexivity].
  - reflexivity.
  - reflexivity.
Defined.

(* ===================================================================== *)
(** * [find]: the loop and what it selects *)
(* ===================================================================== *)

Lemma findLoop_collect lim skp flt entries skipped results :
  skp ≤ skipped →
  Collection.findLoop lim skp flt entries skipped results
  = results ++ stillPushed lim results (matching flt entries).
Proof.
  intros Hskip. revert results.
  induction entries as [|[id document] rest IH]; intros results.
  - simpl. unfold stillPushed, matching. simpl.
    destruct lim as [n|]; [destruct (n =? 0)|];
      by rewrite ?take_nil, app_nil_r.
  - simpl. destruct (Z.ltb_spec skipped skp) as [|_]; [lia|].
    unfold Collection.limitReached.
    destruct lim as [n|].
    + destruct (Z.eqb_spec n 0) as [->|Hn]; simpl.
      * unfold matching. simpl.
        destruct (Collection.passes flt document id); simpl.
        -- rewrite IH. unfold stillPushed. simpl. by rewrite <- app_assoc.
        -- by rewrite IH.
      * destruct (Z.geb_spec (Z.of_nat (length results)) n) as [Hge|Hlt].
        -- unfold stillPushed. destruct (Z.eqb_spec n 0); [done|].
           replace (Z.to_nat (n - Z.of_nat (length results))) with 0%nat by lia.
           by rewrite take_0, app_nil_r.
        -- unfold matching. simpl.
           destruct (Collection.passes flt document id); simpl.
           ++ rewrite IH. unfold stillPushed.
              destruct (Z.eqb_spec n 0); [done|].
              rewrite length_app. simpl.
              replace (Z.to_nat (n - Z.of_nat (length results)))
                with (S (Z.to_nat (n - Z.of_nat (length results + 1)))) by lia.
              simpl. by rewrite <- app_assoc.
           ++ by rewrite IH.
    + unfold matching. simpl.
      destruct (Collection.passes flt document id); simpl.
      * rewrite IH. unfold stillPushed. by rewrite <- app_assoc.
      * by rewrite IH.
Qed.

(** While the counter is behind, entries are bypassed whether or not
    they pass the filter. *)
Lemma findLoop_skip lim skp flt entries skipped results :
  skipped ≤ skp →
  Collection.findLoop lim skp flt entries skipped results
  = Collection.findLoop lim skp flt
      (drop (Z.to_nat (skp - skipped)) entries) skp results.
Proof.
  revert skipped. induction entries as [|[id document] rest IH]; intros skipped Hle.
  - by rewrite drop_nil.
  - simpl. destruct (Z.ltb_spec skipped skp) as [Hlt|Hge].
    + rewrite IH by lia.
      replace (Z.to_nat (skp - skipped))
        with (S (Z.to_nat (skp - (skipped + 1)))) by lia.
      done.
    + assert (skipped = skp) as -> by lia.
      rewrite Z.sub_diag. simpl. by rewrite Z.ltb_irrefl.
Qed.

Lemma findLoop_selected lim skp flt entries :
  Collection.findLoop lim skp flt entries 0 []
  = findResult lim (Some skp) flt entries.
Proof.
  unfold findResult, selected. simpl.
  destruct (Z.le_gt_cases 0 skp) as [Hle|Hlt].
  - rewrite findLoop_skip by done. rewrite findLoop_collect by lia.
    simpl. rewrite Z.sub_0_r. unfold stillPushed, matching.
    destruct lim as [n|]; [|done].
    destruct (n =? 0); [done|]. by rewrite Z.sub_0_r.
  - rewrite findLoop_collect by lia.
    replace (Z.to_nat skp) with 0%nat by lia. simpl.
    unfold stillPushed, matching.
    destruct lim as [n|]; [|done].
    destruct (n =? 0); [done|]. by rewrite Z.sub_0_r.
Qed.

(** On an initialised store [find] changes nothing and returns what
    [findResult] selects from the collection. *)
Lemma find_computes name options w :
  isInitialized (db w) = true →
  Collection.find name options w
  = (Returned
       (match JsMap.get name (collectionData (db w)) with
        | Some entries =>
            findResult (limit options) (skip options) (filter options) entries
        | None => []
        end), w).
Proof.
  intros Hinit. unfold Collection.find.
  rewrite (bind_Returned _ _ _ _ _ (ensureInitialized_ready w Hinit)).
  unfold bind, this, ret.
  destruct (JsMap.get name (collectionData (db w))) as [entries|]; [|done].
  rewrite findLoop_selected. unfold findResult.
  by destruct (skip options).
Qed.

(** C2 (amended).  On an initialised store, for a non-negative [skip]
    and a strictly positive [limit], [find] bypasses the first [skip]
    entries of the insertion order whether or not they pass the filter, and
    returns, in order and with their IDs attached, the passing entries that
    follow, stopping once [limit] of them are collected; with a limit of
    zero it returns all of them.  In particular, with five documents of
    which only those at positions 1 and 3 pass, [find({skip: 2, limit: 1,
    filter})] returns exactly the document at position 3. *)
Theorem find_skips_then_filters_then_limits name w entries lim skp flt :
  isInitialized (db w) = true →
  JsMap.get name (collectionData (db w)) = Some entries →
  0 ≤ skp →
  0 ≤ lim →
  Collection.find name
    {| limit := Some lim; skip := Some skp; filter := Some flt |} w
  = (Returned (if lim =? 0 then selected skp (Some flt) entries
               else findAsSpecified lim skp (Some flt) entries), w)
  ∧ (∀ e0 e1 e2 e3 e4,
       entries = [e0; e1; e2; e3; e4] →
       flt e0.2 e0.1 = false → flt e1.2 e1.1 = true → flt e2.2 e2.1 = false →
       flt e3.2 e3.1 = true → flt e4.2 e4.1 = false →
       Collection.find name
         {| limit := Some 1; skip := Some 2; filter := Some flt |} w
       = (Returned [withId (JStr e3.1) e3.2], w)).
Proof.
  intros Hinit Hget Hskip Hlim. split.
  - rewrite find_computes by done. rewrite Hget. done.
  - intros e0 e1 e2 e3 e4 -> H0 H1 H2 H3 H4.
    rewrite find_computes by done. rewrite Hget.
    unfold findResult, selected. simpl. by rewrite H2, H3, H4.
Qed.

Lemma find_skips_then_filters_then_limits_witness :
  Collection.find "people"
    {| limit := Some 1; skip := Some 2; filter := Some Sample.adult |}
    Sample.fiveWorld
  = (Returned [withId (JStr "d") (Sample.person "Di" 25)], Sample.fiveWorld).
Proof.
  refine (proj2 (find_skips_then_filters_then_limits "people" Sample.fiveWorld
                   Sample.five 1 2 Sample.adult _ _ _ _)
            ("a", _) ("b", _) ("c", _) ("d", _) ("e", _) _ _ _ _ _ _);
    first [reflexivity | lia].
Defined.

(** C2 as stated fails for a limit of zero: nothing stops the loop, and
    the two passing documents behind the skipped ones are both returned. *)
Lemma find_limit_zero_not_empty :
  ¬ findStopsAtLimit "people" Sample.fiveWorld 0 1 Sample.adult.
Proof.
  intros Hclaim. specialize (Hclaim Sample.five eq_refl).
  vm_compute in Hclaim. discriminate Hclaim.
Qed.

(** C9 (amended).  On an initialised store, [find] with a limit of [0]
    returns what [find] without a limit returns; a strictly positive limit
    [n] keeps the first [n] of those documents, and a negative limit
    returns the empty list. *)
Theorem find_falsy_limit_is_unlimited name w skp flt :
  isInitialized (db w) = true →
  Collection.find name {| limit := Some 0; skip := skp; filter := flt |} w
  = Collection.find name {| limit := None; skip := skp; filter := flt |} w
  ∧ ∃ all,
      Collection.find name {| limit := None; skip := skp; filter := flt |} w
      = (Returned all, w)
      ∧ ∀ n,
          (0 < n →
           Collection.find name {| limit := Some n; skip := skp; filter := flt |} w
           = (Returned (take (Z.to_nat n) all), w))
          ∧ (n < 0 →
             Collection.find name {| limit := Some n; skip := skp; filter := flt |} w
             = (Returned [], w)).
Proof.
  intros Hinit. rewrite !find_computes by done. simpl. split; [done|].
  eexists. split; [reflexivity|]. intros n.
  split; intros Hn; rewrite find_computes by done; simpl;
    destruct (JsMap.get name (collectionData (db w))) as [entries|];
    unfold findResult; rewrite ?take_nil; try done;
    destruct (Z.eqb_spec n 0); try lia; try done.
  replace (Z.to_nat n) with 0%nat by lia. done.
Qed.

Lemma find_falsy_limit_is_unlimited_witness :
  Collection.find "users"
    {| limit := Some 0; skip := None; filter := None |} Sample.world
  = Collection.find "users" noOptions Sample.world.
Proof.
  exact (proj1 (find_falsy_limit_is_unlimited "users" Sample.world None None eq_refl)).
Defined.

(** C9 as stated fails in its last clause: the limit [-1] is not
    strictly positive, yet it cuts the result down to the empty list. *)
Lemma negative_limit_truncates :
  ¬ onlyPositiveLimitTruncates "users" Sample.world.
Proof.
  intros Hclaim. specialize (Hclaim (-1) None None).
  assert (0 < -1) as Habsurd; [|lia].
  apply Hclaim. vm_compute. discriminate.
Qed.

(* ===================================================================== *)
(** * The cache *)
(* ===================================================================== *)

Lemma addToCache_run key value w :
  JSLiteDB._addToCache key value w
  = (Returned tt, upd_db (upd_cache (fun _ => cacheAfterAdd key value (db w))) w).
Proof.
  destruct w as [[? ? ? ? c ? mx ?] ? ? ? ?].
  unfold JSLiteDB._addToCache, cacheAfterAdd, bind, this, modify, ret. simpl.
  destruct (JsMap.size c >=? mx); [|done].
  by destruct c as [|[? ?] ?].
Qed.

Lemma get_cacheAfterAdd key value d :
  JsMap.get key (cacheAfterAdd key value d) = Some value.
Proof. apply get_set_eq. Qed.

Lemma upd_cache_same w : upd_db (upd_cache (fun _ => cache (db w))) w = w.
Proof. by destruct w as [[? ? ? ? ? ? ? ?] ? ? ? ?]. Qed.

(* ===================================================================== *)
(** * Reads *)
(* ===================================================================== *)

Lemma count_computes name arg w :
  isInitialized (db w) = true → (Collection.count name arg w).2 = w.
Proof.
  intros Hinit. unfold Collection.count.
  rewrite (bind_Returned _ _ _ _ _ (ensureInitialized_ready w Hinit)).
  unfold bind, this, ret.
  destruct (JsMap.get name (collectionData (db w))); [|done].
  by destruct arg as [|f|[f|]].
Qed.

Lemma stream_computes name w :
  isInitialized (db w) = true →
  Collection.stream name w
  = (Returned
       (match JsMap.get name (collectionData (db w)) with
        | Some entries => map (fun entry => withId (JStr entry.1) entry.2) entries
        | None => []
        end), w).
Proof.
  intros Hinit. unfold Collection.stream.
  rewrite (bind_Returned _ _ _ _ _ (ensureInitialized_ready w Hinit)).
  unfold bind, this, ret.
  by destruct (JsMap.get name (collectionData (db w))).
Qed.

(** What [findById] does once the store is initialised. *)
Lemma findById_computes name id w :
  isInitialized (db w) = true →
  Collection.findById name id w =
  match JsMap.get (Collection.cacheKey name id) (cache (db w)) with
  | Some cached => (Returned cached, w)
  | None =>
      match JsMap.get name (collectionData (db w)) with
      | None => (Returned JNull, w)
      | Some entries =>
          match JsMap.get (ToString id) entries with
          | None => (Returned JNull, w)
          | Some document =>
              if truthy document then
                (Returned document,
                 upd_db (upd_cache (fun _ =>
                   cacheAfterAdd (Collection.cacheKey name id) document (db w))) w)
              else (Returned JNull, w)
          end
      end
  end.
Proof.
  intros Hinit. unfold Collection.findById.
  rewrite (bind_Returned _ _ _ _ _ (ensureInitialized_ready w Hinit)).
  unfold bind at 1. unfold this at 1.
  destruct (JsMap.get _ (cache (db w))); [done|].
  destruct (JsMap.get name (collectionData (db w))) as [entries|]; [|done].
  destruct (JsMap.get (ToString id) entries) as [document|]; [|done].
  destruct (truthy document); [|done]. simpl.
  unfold bind. by rewrite addToCache_run.
Qed.

(** C10.  On an initialised store, [find], [count] and [stream] return
    the world they were given: collection data, file map, cache, disk and
    all the rest are untouched.  [findById] changes at most the cache, and
    when it does, the cache then holds the stored document under the key
    that was looked up. *)
Theorem reads_leave_store_unchanged name w options arg id :
  isInitialized (db w) = true →
  (Collection.find name options w).2 = w
  ∧ (Collection.count name arg w).2 = w
  ∧ (Collection.stream name w).2 = w
  ∧ ∃ cache',
      (Collection.findById name id w).2 = upd_db (upd_cache (fun _ => cache')) w
      ∧ (cache' = cache (db w)
         ∨ ∃ entries document,
             JsMap.get name (collectionData (db w)) = Some entries
             ∧ JsMap.get (ToString id) entries = Some document
             ∧ JsMap.get (Collection.cacheKey name id) cache' = Some document).
Proof.
  intros Hinit. split_and!.
  - by rewrite find_computes.
  - by apply count_computes.
  - by rewrite stream_computes.
  - rewrite findById_computes by done.
    destruct (JsMap.get _ (cache (db w))) as [cached|].
    { exists (cache (db w)). split; [by rewrite upd_cache_same | by left]. }
    destruct (JsMap.get name (collectionData (db w))) as [entries|].
    2:{ exists (cache (db w)). split; [by rewrite upd_cache_same | by left]. }
    destruct (JsMap.get (ToString id) entries) as [document|] eqn:Hdoc.
    2:{ exists (cache (db w)). split; [by rewrite upd_cache_same | by left]. }
    destruct (truthy document).
    2:{ exists (cache (db w)). split; [by rewrite upd_cache_same | by left]. }
    eexists. split; [reflexivity|]. right. exists entries, document.
    split_and!; [done | done | apply get_cacheAfterAdd].
Qed.

Lemma reads_leave_store_unchanged_witness :
  (Collection.find "users" noOptions Sample.world).2 = Sample.world.
Proof.
  exact (proj1 (reads_leave_store_unchanged "users" Sample.world noOptions
                  CountAll (JNum 1) eq_refl)).
Defined.

(* ===================================================================== *)
(** * What the steps of a mutation leave alone *)
(* ===================================================================== *)


Lemma modify_inv f w (u : unit) w' :
  modify f w = (Returned u, w') → w' = upd_db f w.
Proof. unfold modify. by intros [= <-]. Qed.

Lemma emit_inv e w (u : unit) w' :
  emit e w = (Returned u, w') → w' = add_event e w.
Proof. unfold emit. by intros [= <-]. Qed.

Lemma acquire_inv {A : Type} (fn : M A) w r w' :
  acquire fn w = (Returned r, w') →
  ∃ w2,
    fn (upd_db (set_writeMutex
                  (WriteMutex.Mk true (WriteMutex.queue (writeMutex (db w))))) w)
    = (Returned r, w2)
    ∧ w' = unlock w2.
Proof.
  unfold acquire, WriteMutex._acquire.
  destruct (WriteMutex.locked (writeMutex (db w))); simpl; [done|].
  destruct (fn _) as [[a|e|] w2]; [|done|done].
  intros [= <- <-]. eauto.
Qed.

Lemma changeDisk_db op w r w' : changeDisk op w = (r, w') → db w' = db w.
Proof.
  unfold changeDisk. destruct (op (disk w)); by intros [= <- <-].
Qed.

Lemma saveCollectionIndex_db w r w' :
  JSLiteDB._saveCollectionIndex w = (r, w') → db w' = db w.
Proof.
  unfold JSLiteDB._saveCollectionIndex, bind, this, Date_now.
  apply changeDisk_db.
Qed.

Lemma unlinkQuietly_db p w r w' :
  JSLiteDB.unlinkQuietly p w = (r, w') → db w' = db w.
Proof.
  unfold JSLiteDB.unlinkQuietly, tryCatch.
  destruct (changeDisk _ w) as [[a|e|] w1] eqn:Hrun;
    apply changeDisk_db in Hrun; unfold ret; intros [= <- <-]; done.
Qed.

(** [_saveCollection] touches the file map and nothing else of the
    database object. *)
Lemma saveCollection_db n w r w' :
  JSLiteDB._saveCollection n w = (r, w') →
  db w' = upd_collectionFiles (fun _ => collectionFiles (db w')) (db w).
Proof.
  unfold JSLiteDB._saveCollection, bind, this.
  destruct (JsMap.get n (collectionData (db w))) as [entries|].
  - destruct (changeDisk _ w) as [[a|e|] w1] eqn:Hrun;
      apply changeDisk_db in Hrun; unfold modify; intros [= <- <-];
      destruct w1 as [d1 ? ? ? ?]; simpl in *; subst;
      by destruct (db w).
  - unfold ret. intros [= <- <-]. by destruct (db w).
Qed.

(** [_loadCollection] leaves the cache and the flag alone. *)
Lemma loadCollection_frame n w r w' :
  JSLiteDB._loadCollection n w = (r, w') →
  cache (db w') = cache (db w) ∧ isInitialized (db w') = isInitialized (db w).
Proof.
  unfold JSLiteDB._loadCollection, JSLiteDB.readDataMap, tryCatch, bind, this,
    onDisk, lift, throw, ret, modify.
  intros Hrun. repeat case_match; simplify_eq/=; done.
Qed.

Lemma getOrCreate_frame n w r w' :
  Collection.getOrCreate n w = (r, w') →
  cache (db w') = cache (db w) ∧ isInitialized (db w') = isInitialized (db w).
Proof.
  unfold Collection.getOrCreate, bind, this.
  destruct (JsMap.get n (collectionData (db w))).
  - unfold ret. by intros [= <- <-].
  - apply loadCollection_frame.
Qed.

(** A successful [_ensureInitialized] leaves the store initialised. *)
Lemma ensureInitialized_post w u w' :
  JSLiteDB._ensureInitialized w = (Returned u, w') → isInitialized (db w') = true.
Proof.
  unfold JSLiteDB._ensureInitialized. unfold bind at 1. unfold this at 1.
  destruct (isInitialized (db w)) eqn:Hinit.
  - unfold ret. by intros [= <- <-].
  - intros Hrun. inv_bind Hrun as w1 H1. inv_bind Hrun as w2 H2.
    apply modify_inv in Hrun as ->. done.
Qed.

(* ===================================================================== *)
(** * Mutations and the cache *)
(* ===================================================================== *)

(** After a successful [update] the store is initialised, [update] has
    returned the body it was given, and the cache holds that body under the
    key of the document. *)
Lemma update_returned name id body w r w' :
  Collection.update name id body w = (Returned r, w') →
  r = body
  ∧ isInitialized (db w') = true
  ∧ JsMap.get (Collection.cacheKey name id) (cache (db w')) = Some body.
Proof.
  unfold Collection.update. intros Hrun.
  inv_bind Hrun as w0 H0. apply ensureInitialized_post in H0 as Hinit.
  apply acquire_inv in Hrun as (wz & Hrun & ->).
  inv_bind Hrun as w1 H1. apply getOrCreate_frame in H1 as [Hcache1 Hinit1].
  inv_bind Hrun as w2 H2. apply modify_inv in H2 as ->.
  inv_bind Hrun as w3 H3. rewrite addToCache_run in H3.
  injection H3 as _ <-.
  inv_bind Hrun as w4 H4. apply saveCollection_db in H4 as Hsaved.
  inv_bind Hrun as w5 H5. apply saveCollectionIndex_db in H5 as Hindex.
  inv_bind Hrun as w6 H6. apply emit_inv in H6 as ->.
  unfold ret in Hrun. injection Hrun as <- <-.
  simpl. rewrite Hindex, Hsaved. simpl.
  split_and!; [done | by rewrite Hinit1 | apply get_cacheAfterAdd].
Qed.

(** After a successful [delete] the store is initialised, the cache has
    no entry under the key of the document, and the collection is either
    gone or no longer holds the ID. *)
Lemma delete_returned name id w w' :
  Collection.delete name id w = (Returned true, w') →
  isInitialized (db w') = true
  ∧ JsMap.get (Collection.cacheKey name id) (cache (db w')) = None
  ∧ match JsMap.get name (collectionData (db w')) with
    | Some entries => JsMap.get (ToString id) entries = None
    | None => True
    end.
Proof.
  unfold Collection.delete. intros Hrun.
  inv_bind Hrun as w0 H0. apply ensureInitialized_post in H0 as Hinit.
  apply acquire_inv in Hrun as (wz & Hrun & ->).
  unfold bind at 1 in Hrun. unfold this at 1 in Hrun.
  match type of Hrun with
  | context [JsMap.get name ?cd] => destruct (JsMap.get name cd) as [entries|]
  end; [|done].
  destruct (JsMap.get (ToString id) entries) as [document|]; [|done].
  inv_bind Hrun as w1 H1. apply modify_inv in H1 as ->.
  inv_bind Hrun as w2 H2. apply modify_inv in H2 as ->.
  inv_bind Hrun as w3 H3. apply saveCollection_db in H3 as Hsaved.
  inv_bind Hrun as w4 H4.
  inv_bind Hrun as w5 H5. apply saveCollectionIndex_db in H5 as Hindex.
  inv_bind Hrun as w6 H6. apply emit_inv in H6 as ->.
  unfold ret in Hrun. injection Hrun as <-.
  simpl. rewrite Hindex.
  destruct (JsMap.size (JsMap.delete (ToString id) entries) =? 0).
  - inv_bind H4 as w7 H7. apply modify_inv in H7 as ->.
    inv_bind H4 as w8 H8. unfold this in H8. injection H8 as <- <-.
    inv_bind H4 as w9 H9. apply modify_inv in H4 as ->.
    assert (db w9 = upd_collectionData (JsMap.delete name) (db w3)) as Hdb.
    { revert H9. simpl. repeat case_match; unfold ret;
        try (intros [= _ <-]; done).
      intros H9. by apply unlinkQuietly_db in H9. }
    simpl. rewrite Hdb. simpl. rewrite Hsaved. simpl.
    rewrite !get_delete_eq. done.
  - unfold ret in H4. injection H4 as _ <-.
    rewrite Hsaved. simpl.
    rewrite get_delete_eq, get_set_eq, get_delete_eq. done.
Qed.

(** C3.  Right after a successful [update(id, newBody)], [findById(id)]
    returns [newBody]; right after a successful [delete(id)],
    [findById(id)] returns null: both mutations bring the cache entry of
    the key up to date before they return. *)
Theorem findById_after_mutation name id w :
  (∀ newBody r w',
     Collection.update name id newBody w = (Returned r, w') →
     (Collection.findById name id w').1 = Returned newBody)
  ∧ (∀ w',
       Collection.delete name id w = (Returned true, w') →
       (Collection.findById name id w').1 = Returned JNull).
Proof.
  split.
  - intros newBody r w' Hrun.
    apply update_returned in Hrun as (_ & Hinit & Hcache).
    rewrite findById_computes by done. by rewrite Hcache.
  - intros w' Hrun.
    apply delete_returned in Hrun as (Hinit & Hcache & Hgone).
    rewrite findById_computes by done. rewrite Hcache.
    destruct (JsMap.get name (collectionData (db w'))) as [entries|]; [|done].
    by rewrite Hgone.
Qed.

Lemma findById_after_mutation_witness :
  (Collection.findById "users" (JNum 1)
     (Collection.update "users" (JNum 1) Sample.bob Sample.world).2).1
  = Returned Sample.bob
  ∧ (Collection.findById "users" (JNum 1)
       (Collection.delete "users" (JNum 1) Sample.world).2).1
    = Returned JNull.
Proof.
  split.
  - apply (proj1 (findById_after_mutation "users" (JNum 1) Sample.world)
             Sample.bob Sample.bob).
    vm_compute. reflexivity.
  - apply (proj2 (findById_after_mutation "users" (JNum 1) Sample.world)).
    vm_compute. reflexivity.
Defined.

(* ===================================================================== *)
(** * What the operations hand back to the caller *)
(* ===================================================================== *)

(** An operation that starts with [_ensureInitialized] and succeeds
    behaves as it does on the initialised store it went through. *)
Lemma after_init {A : Type} (k : M A) w r w' :
  (JSLiteDB._ensureInitialized >>> k) w = (Returned r, w') →
  ∃ w0, isInitialized (db w0) = true
        ∧ (JSLiteDB._ensureInitialized >>> k) w0 = (Returned r, w').
Proof.
  intros Hrun. inv_bind Hrun as w0 H0. exists w0.
  apply ensureInitialized_post in H0 as Hinit. split; [done|].
  by rewrite (bind_Returned _ _ _ _ _ (ensureInitialized_ready w0 Hinit)).
Qed.

Lemma insert_returned name id doc w r w' :
  Collection.insert name id (Some doc) w = (Returned r, w') → r = withId id doc.
Proof.
  unfold Collection.insert. intros Hrun.
  inv_bind Hrun as w0 H0. apply acquire_inv in Hrun as (wz & Hrun & ->).
  inv_bind Hrun as w1 H1. unfold ret in H1. injection H1 as <- <-.
  inv_bind Hrun as w2 H2. simpl in Hrun.
  destruct (JsMap.has (ToString id) x0); [done|].
  inv_bind Hrun as w3 H3. inv_bind Hrun as w4 H4. inv_bind Hrun as w5 H5.
  inv_bind Hrun as w6 H6. inv_bind Hrun as w7 H7.
  unfold ret in Hrun. by injection Hrun as <-.
Qed.

Lemma insert_generated_returned name doc w r w' :
  Collection.insert name doc None w = (Returned r, w') →
  ∃ generated, r = withId (JStr generated) doc.
Proof.
  unfold Collection.insert. intros Hrun.
  inv_bind Hrun as w0 H0. apply acquire_inv in Hrun as (wz & Hrun & ->).
  inv_bind Hrun as w1 H1. inv_bind H1 as w1' H1'.
  unfold ret in H1. injection H1 as <- <-.
  inv_bind Hrun as w2 H2. simpl in Hrun.
  match type of Hrun with
  | context [JsMap.has ?k ?m] => destruct (JsMap.has k m)
  end; [done|].
  inv_bind Hrun as w3 H3. inv_bind Hrun as w4 H4. inv_bind Hrun as w5 H5.
  inv_bind Hrun as w6 H6. inv_bind Hrun as w7 H7.
  unfold ret in Hrun. injection Hrun as <-. eauto.
Qed.

Lemma findResult_elem lim skp flt entries r :
  r ∈ findResult lim skp flt entries →
  ∃ id body, (id, body) ∈ entries ∧ r = withId (JStr id) body.
Proof.
  intros Hin.
  assert (r ∈ selected (default 0 skp) flt entries) as Hsel.
  { revert Hin. unfold findResult.
    destruct lim as [n|]; [destruct (n =? 0)|]; try done.
    apply subseteq_take. }
  unfold selected in Hsel.
  apply list_elem_of_In, in_map_iff in Hsel as ([id body] & <- & Hin').
  apply filter_In in Hin' as [Hin' _].
  apply list_elem_of_In in Hin'.
  exists id, body. split; [|done].
  by eapply subseteq_drop.
Qed.

Lemma find_returned name options w rs w' :
  Collection.find name options w = (Returned rs, w') →
  ∀ r, r ∈ rs →
    ∃ entries id body,
      JsMap.get name (collectionData (db w')) = Some entries
      ∧ (id, body) ∈ entries ∧ r = withId (JStr id) body.
Proof.
  intros Hrun. apply after_init in Hrun as (w0 & Hinit & Hrun).
  change (Collection.find name options w0 = (Returned rs, w')) in Hrun.
  rewrite find_computes in Hrun by done. injection Hrun as <- <-.
  intros r Hin.
  destruct (JsMap.get name (collectionData (db w0))) as [entries|].
  - apply findResult_elem in Hin as (id & body & ? & ?). eauto 6.
  - by apply elem_of_nil in Hin.
Qed.

(** What [CreateDataProperty] does to the lookup of a key. *)
Lemma has_replace k k' v o : JsObject.has k (JsObject.replace k' v o) = JsObject.has k o.
Proof.
  unfold JsObject.has. induction o as [|[k0 v0] o IH]; simpl; [done|].
  destruct (String.eqb_spec k' k0); simpl; [done|]. by rewrite IH.
Qed.

Lemma get_replace_eq k v o :
  JsObject.has k o = true → JsObject.get k (JsObject.replace k v o) = Some v.
Proof.
  unfold JsObject.has, JsObject.get. induction o as [|[k0 v0] o IH]; simpl; [done|].
  destruct (String.eqb_spec k k0) as [->|Hne]; simpl.
  - by rewrite String.eqb_refl.
  - destruct (String.eqb_spec k k0); [done|]. exact IH.
Qed.

Lemma get_replace_ne k k' v o :
  k ≠ k' → JsObject.get k (JsObject.replace k' v o) = JsObject.get k o.
Proof.
  intros Hne. unfold JsObject.get. induction o as [|[k0 v0] o IH]; simpl; [done|].
  destruct (String.eqb_spec k' k0) as [->|Hne']; simpl.
  - by destruct (String.eqb_spec k k0).
  - destruct (String.eqb_spec k k0); [done | exact IH].
Qed.

Lemma get_place_eq k v o :
  JsObject.has k o = false → JsObject.get k (JsObject.place k v o) = Some v.
Proof.
  unfold JsObject.has, JsObject.get. induction o as [|[k0 v0] o IH]; simpl.
  - by rewrite String.eqb_refl.
  - destruct (String.eqb_spec k k0) as [->|Hne]; [done|]. intros Hhas.
    destruct (JsObject.before k k0); simpl.
    + by rewrite String.eqb_refl.
    + destruct (String.eqb_spec k k0); [done|]. by apply IH.
Qed.

Lemma get_place_ne k k' v o :
  k ≠ k' → JsObject.get k (JsObject.place k' v o) = JsObject.get k o.
Proof.
  intros Hne. unfold JsObject.get. induction o as [|[k0 v0] o IH]; simpl.
  - by destruct (String.eqb_spec k k').
  - destruct (JsObject.before k' k0); simpl.
    + by destruct (String.eqb_spec k k').
    + destruct (String.eqb_spec k k0); [done | exact IH].
Qed.

Lemma get_define_eq k v o : JsObject.get k (JsObject.define k v o) = Some v.
Proof.
  unfold JsObject.define. destruct (JsObject.has k o) eqn:Hhas.
  - by apply get_replace_eq.
  - by apply get_place_eq.
Qed.

Lemma get_define_ne k k' v o :
  k ≠ k' → JsObject.get k (JsObject.define k' v o) = JsObject.get k o.
Proof.
  intros Hne. unfold JsObject.define. destruct (JsObject.has k' o).
  - by apply get_replace_ne.
  - by apply get_place_ne.
Qed.

(** A spread of properties that are held once each: the spread value
    wins over what the object held. *)
Lemma get_spread_from k (l acc : list (string * json)) :
  NoDup (l.*1) →
  JsObject.get k (fold_left (fun o kv => JsObject.define kv.1 kv.2 o) l acc)
  = match JsObject.get k l with
    | Some v => Some v
    | None => JsObject.get k acc
    end.
Proof.
  revert acc. induction l as [|[k0 v0] l IH]; intros acc Hnd; [done|].
  rewrite fmap_cons in Hnd. apply NoDup_cons in Hnd as [Hk0 Hnd].
  cbn [fold_left fst snd]. rewrite IH by done.
  unfold JsObject.get at 3. cbn [JsMap.get].
  destruct (String.eqb_spec k k0) as [->|Hne].
  - assert (JsObject.get k0 l = None) as -> by by apply get_None_keys.
    apply get_define_eq.
  - fold (JsObject.get k l). rewrite get_define_ne by done. done.
Qed.

(** The shape [{ id, ...body }]: the ID is attached to a body that has
    no [id] of its own, and gives way to the body's own [id]. *)
Lemma withId_attached id body : plain body → attached id body (withId id body).
Proof.
  intros [Hwf Hown]. unfold withId, JsObject.spread. eexists. split; [done|].
  split.
  - rewrite get_spread_from by done. unfold ownId in Hown. rewrite Hown.
    unfold JsObject.get. simpl. done.
  - intros k Hne. rewrite get_spread_from by done.
    destruct (JsObject.get k (JsObject.ownProperties body)); [done|].
    unfold JsObject.get. simpl. by destruct (String.eqb_spec k "id").
Qed.

Lemma withId_own id body own :
  JsMap.wf (JsObject.ownProperties body) → ownId body = Some own →
  attached own body (withId id body).
Proof.
  intros Hwf Hown. unfold withId, JsObject.spread. eexists. split; [done|].
  split.
  - rewrite get_spread_from by done. unfold ownId in Hown. by rewrite Hown.
  - intros k Hne. rewrite get_spread_from by done.
    destruct (JsObject.get k (JsObject.ownProperties body)); [done|].
    unfold JsObject.get. simpl. by destruct (String.eqb_spec k "id").
Qed.

(** After a successful [insert] the collection holds the body under the
    string form of the ID, given or generated. *)
Lemma insert_stored name documentOrId document w r w' :
  Collection.insert name documentOrId document w = (Returned r, w') →
  ∃ id doc entries,
    match document with
    | Some given => id = documentOrId ∧ doc = given
    | None => doc = documentOrId ∧ ∃ generated, id = JStr generated
    end
    ∧ r = withId id doc
    ∧ JsMap.get name (collectionData (db w')) = Some entries
    ∧ JsMap.get (ToString id) entries = Some doc.
Proof.
  unfold Collection.insert. intros Hrun.
  inv_bind Hrun as w0 H0. apply acquire_inv in Hrun as (wz & Hrun & ->).
  inv_bind Hrun as w1 H1.
  match type of H1 with
  | _ = (Returned ?a, _) => destruct a as [id doc]
  end.
  assert (Hargs : match document with
                  | Some given => id = documentOrId ∧ doc = given
                  | None => doc = documentOrId ∧ ∃ generated, id = JStr generated
                  end).
  { destruct document as [given|].
    - unfold ret in H1. by injection H1 as <- <- _.
    - inv_bind H1 as w1' H1'. unfold ret in H1. injection H1 as <- <- _. eauto. }
  clear H1. cbn [fst snd] in Hrun.
  inv_bind Hrun as w2 H2.
  match type of Hrun with
  | context [JsMap.has ?k ?m] => destruct (JsMap.has k m)
  end; [done|].
  inv_bind Hrun as w3 H3. apply modify_inv in H3 as ->.
  inv_bind Hrun as w4 H4. rewrite addToCache_run in H4. injection H4 as _ <-.
  inv_bind Hrun as w5 H5. apply saveCollection_db in H5 as Hsaved.
  inv_bind Hrun as w6 H6. apply saveCollectionIndex_db in H6 as Hindex.
  inv_bind Hrun as w7 H7. apply emit_inv in H7 as ->.
  unfold ret in Hrun. injection Hrun as <- <-.
  eexists id, doc, _. split; [exact Hargs|]. split; [done|].
  simpl. rewrite Hindex, Hsaved. simpl.
  split; apply get_set_eq.
Qed.

(** C7 (amended).  [insert], [find], [findOne] and [stream] hand back
    documents in the shape [{ id, ...body }]: for a body that has no [id]
    property of its own this is an object whose [id] property is the ID
    under which the body is stored, given or generated, and whose other
    properties are the body's, while a body's own [id] property takes the
    place of the ID.  [update] hands back the body it was given and
    [findById] the body held by the cache or the collection, both without
    attaching the ID. *)
Theorem returned_document_shapes name w :
  (∀ id doc r w',
     Collection.insert name id (Some doc) w = (Returned r, w') →
     r = withId id doc
     ∧ (plain doc → attached id doc r)
     ∧ ∃ entries,
         JsMap.get name (collectionData (db w')) = Some entries
         ∧ JsMap.get (ToString id) entries = Some doc)
  ∧ (∀ doc r w',
       Collection.insert name doc None w = (Returned r, w') →
       ∃ generated entries,
         r = withId (JStr generated) doc
         ∧ (plain doc → attached (JStr generated) doc r)
         ∧ JsMap.get name (collectionData (db w')) = Some entries
         ∧ JsMap.get generated entries = Some doc)
  ∧ (∀ options rs w',
       Collection.find name options w = (Returned rs, w') →
       ∀ r, r ∈ rs →
         ∃ entries id body,
           JsMap.get name (collectionData (db w')) = Some entries
           ∧ (id, body) ∈ entries
           ∧ r = withId (JStr id) body
           ∧ (plain body → attached (JStr id) body r))
  ∧ (∀ flt r w',
       Collection.findOne name flt w = (Returned r, w') →
       r = JNull
       ∨ ∃ entries id body,
           JsMap.get name (collectionData (db w')) = Some entries
           ∧ (id, body) ∈ entries
           ∧ r = withId (JStr id) body
           ∧ (plain body → attached (JStr id) body r))
  ∧ (∀ rs w',
       Collection.stream name w = (Returned rs, w') →
       rs = map (fun entry => withId (JStr entry.1) entry.2)
                (default [] (JsMap.get name (collectionData (db w'))))
       ∧ ∀ r, r ∈ rs →
           ∃ entries id body,
             JsMap.get name (collectionData (db w')) = Some entries
             ∧ (id, body) ∈ entries
             ∧ r = withId (JStr id) body
             ∧ (plain body → attached (JStr id) body r))
  ∧ (∀ id body own,
       JsMap.wf (JsObject.ownProperties body) → ownId body = Some own →
       attached own body (withId id body))
  ∧ (∀ id body r w',
       Collection.update name id body w = (Returned r, w') → r = body)
  ∧ (∀ id r w',
       Collection.findById name id w = (Returned r, w') →
       r = JNull
       ∨ JsMap.get (Collection.cacheKey name id) (cache (db w')) = Some r).
Proof.
  assert (Hfind : ∀ options rs w',
            Collection.find name options w = (Returned rs, w') →
            ∀ r, r ∈ rs →
              ∃ entries id body,
                JsMap.get name (collectionData (db w')) = Some entries
                ∧ (id, body) ∈ entries
                ∧ r = withId (JStr id) body
                ∧ (plain body → attached (JStr id) body r)).
  { intros options rs w' Hrun r Hin.
    destruct (find_returned _ _ _ _ _ Hrun r Hin)
      as (entries & id & body & Hget & Hentry & ->).
    exists entries, id, body. split_and!; try done. apply withId_attached. }
  split_and!.
  - intros id doc r w' Hrun.
    apply insert_stored in Hrun
      as (id' & doc' & entries & [-> ->] & -> & Hget & Hdoc).
    split_and!; [done | apply withId_attached | by exists entries].
  - intros doc r w' Hrun.
    apply insert_stored in Hrun
      as (id' & doc' & entries & [-> [generated ->]] & -> & Hget & Hdoc).
    exists generated, entries.
    split_and!; [done | apply withId_attached | done | done].
  - exact Hfind.
  - intros flt r w' Hrun. unfold Collection.findOne in Hrun.
    inv_bind Hrun as w1 H1. unfold ret in Hrun. injection Hrun as <- <-.
    destruct x as [|first rest]; [by left|]. right.
    eapply Hfind; [exact H1 | left].
  - intros rs w' Hrun. apply after_init in Hrun as (w0 & Hinit & Hrun).
    change (Collection.stream name w0 = (Returned rs, w')) in Hrun.
    rewrite stream_computes in Hrun by done. injection Hrun as <- <-.
    destruct (JsMap.get name (collectionData (db w0))) as [entries|] eqn:Hget.
    + split; [done|]. intros r Hin.
      apply list_elem_of_fmap in Hin as ([id body] & -> & Hin).
      exists entries, id, body. split_and!; try done. apply withId_attached.
    + split; [done|]. intros r Hin. by apply elem_of_nil in Hin.
  - intros id body own. apply withId_own.
  - intros id body r w' Hrun. by apply update_returned in Hrun as (? & _).
  - intros id r w' Hrun. apply after_init in Hrun as (w0 & Hinit & Hrun).
    change (Collection.findById name id w0 = (Returned r, w')) in Hrun.
    rewrite findById_computes in Hrun by done.
    destruct (JsMap.get _ (cache (db w0))) as [cached|] eqn:Hcached.
    { injection Hrun as <- <-. by right. }
    destruct (JsMap.get name (collectionData (db w0))) as [entries|].
    2:{ injection Hrun as <- <-. by left. }
    destruct (JsMap.get (ToString id) entries) as [document|].
    2:{ injection Hrun as <- <-. by left. }
    destruct (truthy document).
    2:{ injection Hrun as <- <-. by left. }
    injection Hrun as <- <-. right. simpl. apply get_cacheAfterAdd.
Qed.

(** An explicit ID and a generated one are attached to the body and are
    the keys under which it is stored; a body with an [id] of its own keeps
    its own; [update] returns the bare body. *)
Lemma returned_document_shapes_witness :
  (∃ r w',
     Collection.insert "users" (JNum 2) (Some Sample.bob) Sample.world
     = (Returned r, w')
     ∧ attached (JNum 2) Sample.bob r
     ∧ (JsMap.get "2" <$> JsMap.get "users" (collectionData (db w')))
       = Some (Some Sample.bob))
  ∧ (∃ r w',
       Collection.insert "users" Sample.bob None Sample.world = (Returned r, w')
       ∧ attached (JStr "lozq3x1k8f2a9bc") Sample.bob r
       ∧ (JsMap.get "lozq3x1k8f2a9bc"
            <$> JsMap.get "users" (collectionData (db w')))
         = Some (Some Sample.bob))
  ∧ attached (JStr "mine") (JObj [("id", JStr "mine"); ("a", JNum 1)])
      (withId (JNum 2) (JObj [("id", JStr "mine"); ("a", JNum 1)]))
  ∧ (Collection.update "users" (JNum 1) Sample.bob Sample.world).1
    = Returned Sample.bob.
Proof.
  pose proof (returned_document_shapes "users" Sample.world)
    as (Hinsert & Hgenerated & _ & _ & _ & Hown & Hupdate & _).
  assert (Hplain : plain Sample.bob).
  { split; [|reflexivity].
    vm_compute. repeat constructor; intros H; inversion H; subst;
      match goal with H' : _ ∈ [] |- _ => inversion H' end. }
  split_and!.
  - destruct (Collection.insert "users" (JNum 2) (Some Sample.bob) Sample.world)
      as [[r| |] w'] eqn:Hrun; [|vm_compute in Hrun; discriminate Hrun..].
    destruct (Hinsert _ _ _ _ Hrun) as (_ & Hattached & entries & Hget & Hdoc).
    exists r, w'. split_and!; [done | by apply Hattached |].
    by rewrite Hget, <- Hdoc.
  - destruct (Collection.insert "users" Sample.bob None Sample.world)
      as [[r| |] w'] eqn:Hrun; [|vm_compute in Hrun; discriminate Hrun..].
    destruct (Hgenerated _ _ _ Hrun)
      as (generated & entries & Hr & Hattached & Hget & Hdoc).
    assert (generated = "lozq3x1k8f2a9bc"%string) as ->.
    { vm_compute in Hrun. injection Hrun as <- _. vm_compute in Hr.
      by injection Hr as <-. }
    exists r, w'. split_and!; [done | by apply Hattached |].
    by rewrite Hget, <- Hdoc.
  - apply Hown; [|reflexivity].
    vm_compute. repeat constructor; intros H; inversion H; subst;
      match goal with H' : _ ∈ [] |- _ => inversion H' end.
  - destruct (Collection.update "users" (JNum 1) Sample.bob Sample.world)
      as [[r| |] w'] eqn:Hrun; [|vm_compute in Hrun; discriminate Hrun..].
    simpl. f_equal. exact (Hupdate _ _ _ _ Hrun).
Defined.

(** C7 as stated fails for [update]: it returns the body as it was
    given, here without any [id] property. *)
Lemma update_returns_bare_body :
  ¬ updateReturnsWithId "users" Sample.world (JNum 1) Sample.bob.
Proof.
  intros Hclaim.
  specialize (Hclaim Sample.bob
                (Collection.update "users" (JNum 1) Sample.bob Sample.world).2).
  assert (Sample.bob = withId (JNum 1) Sample.bob) as Habsurd.
  { apply Hclaim. vm_compute. reflexivity. }
  vm_compute in Habsurd. discriminate Habsurd.
Qed.

(* ===================================================================== *)
(** * The write mutex under interleaved callers *)
(* ===================================================================== *)

Section SchedulerFacts.
Import Scheduler.

Lemma holds_insert_other s c c' p :
  c' ≠ c → (<[c := p]> (phase s) !! c' = Some Granted
            ∨ <[c := p]> (phase s) !! c' = Some Running) → holds s c'.
Proof. intros Hne. by rewrite !lookup_insert_ne. Qed.

Lemma invariant_init : invariant init.
Proof.
  unfold invariant, holds, init. simpl. split_and!; try done.
  - intros c1 c2 [H|H]; by rewrite lookup_empty in H.
  - intros c [H|H]; by rewrite lookup_empty in H.
Qed.

Lemma invariant_step s s' : invariant s → step s s' → invariant s'.
Proof.
  intros (Hone & Hlocked & Hqueue & Hfifo) Hstep.
  destruct Hstep as [c s Hnew | c s Hgranted | c s Hrunning].
  - (* call *)
    unfold call, WriteMutex._acquire.
    destruct (WriteMutex.locked (mutex s)) eqn:Hl; simpl.
    + unfold invariant, holds. simpl. split_and!.
      * intros c1 c2 H1 H2.
        destruct (decide (c1 = c)) as [->|Hne1];
          [rewrite lookup_insert_eq in H1; by destruct H1|].
        destruct (decide (c2 = c)) as [->|Hne2];
          [rewrite lookup_insert_eq in H2; by destruct H2|].
        apply Hone; by eapply holds_insert_other.
      * done.
      * done.
      * by rewrite Hfifo, app_assoc.
    + unfold invariant, holds. simpl. split_and!.
      * intros c1 c2 H1 H2.
        destruct (decide (c1 = c)) as [->|Hne1].
        -- destruct (decide (c2 = c)) as [->|Hne2]; [done|].
           apply holds_insert_other in H2; [|done].
           apply Hlocked in H2. congruence.
        -- apply holds_insert_other in H1; [|done].
           apply Hlocked in H1. congruence.
      * done.
      * done.
      * rewrite Hfifo, (Hqueue eq_refl). by rewrite !app_nil_r.
  - (* start *)
    unfold invariant, holds, start. simpl.
    assert (∀ c', (<[c := Running]> (phase s) !! c' = Some Granted
                   ∨ <[c := Running]> (phase s) !! c' = Some Running)
                  → holds s c') as Hback.
    { intros c' H. destruct (decide (c' = c)) as [->|Hne].
      - by left.
      - by eapply holds_insert_other. }
    split_and!; [|by eauto|done|done].
    intros c1 c2 H1 H2. apply Hone; by apply Hback.
  - (* finish *)
    assert (holds s c) as Hc by (by right).
    unfold finish, WriteMutex.release.
    destruct (WriteMutex.queue (mutex s)) as [|next rest] eqn:Hq; simpl.
    + unfold invariant, holds. simpl.
      assert (∀ c', ¬ (<[c := Done]> (phase s) !! c' = Some Granted
                       ∨ <[c := Done]> (phase s) !! c' = Some Running))
        as Hnone.
      { intros c' H. destruct (decide (c' = c)) as [->|Hne].
        - rewrite lookup_insert_eq in H. by destruct H.
        - apply holds_insert_other in H; [|done].
          by specialize (Hone _ _ H Hc). }
      split_and!; [| |done|by rewrite Hfifo].
      * intros c1 c2 H1. by apply Hnone in H1.
      * intros c' H. by apply Hnone in H.
    + unfold invariant, holds. simpl.
      assert (∀ c', (<[next := Granted]> (<[c := Done]> (phase s)) !! c'
                     = Some Granted
                     ∨ <[next := Granted]> (<[c := Done]> (phase s)) !! c'
                       = Some Running)
                    → c' = next) as Honly.
      { intros c' H. destruct (decide (c' = next)) as [|Hne]; [done|].
        rewrite !(lookup_insert_ne _ next c') in H by done.
        destruct (decide (c' = c)) as [->|Hne'].
        - rewrite lookup_insert_eq in H. by destruct H.
        - apply holds_insert_other in H; [|done].
          by specialize (Hone _ _ H Hc). }
      split_and!.
      * intros c1 c2 H1 H2. apply Honly in H1, H2. congruence.
      * intros c' _. by apply Hlocked in Hc.
      * intros Hl. apply Hlocked in Hc. congruence.
      * rewrite Hfifo. by rewrite <- app_assoc.
Qed.

Lemma reachable_invariant s : reachable s → invariant s.
Proof.
  induction 1 as [|s s' _ IH Hstep]; [apply invariant_init|].
  by eapply invariant_step.
Qed.

(** C8.  In every state a run of [acquire(fn)] callers can reach, at
    most one caller holds the lock, so at most one [fn] is executing; the
    callers have been granted the lock in the order of their arrival, the
    ones still waiting forming the queue in that order; and the
    [release()] of the running caller wakes the head of the queue and
    nobody else. *)
Theorem mutex_exclusive_and_fifo s :
  reachable s →
  (∀ c1 c2,
     phase s !! c1 = Some Running → phase s !! c2 = Some Running → c1 = c2)
  ∧ (∀ c1 c2, holds s c1 → holds s c2 → c1 = c2)
  ∧ arrivals s = grants s ++ WriteMutex.queue (mutex s)
  ∧ (∀ c next rest,
       phase s !! c = Some Running →
       WriteMutex.queue (mutex s) = next :: rest →
       WriteMutex.queue (mutex (finish c s)) = rest
       ∧ WriteMutex.locked (mutex (finish c s)) = true
       ∧ grants (finish c s) = grants s ++ [next]
       ∧ phase (finish c s) !! next = Some Granted
       ∧ ∀ c', c' ≠ next → c' ≠ c →
               phase (finish c s) !! c' = phase s !! c').
Proof.
  intros Hreach. apply reachable_invariant in Hreach as Hinv.
  destruct Hinv as (Hone & Hlocked & Hqueue & Hfifo).
  split_and!; [|done|done|].
  - intros c1 c2 H1 H2. apply Hone; by right.
  - intros c next rest Hrun Hq.
    assert (holds s c) as Hc by (by right).
    unfold finish, WriteMutex.release. rewrite Hq. simpl.
    split_and!; [done | by apply Hlocked in Hc | done | apply lookup_insert_eq |].
    intros c' Hne1 Hne2. by rewrite !lookup_insert_ne.
Qed.

(** Three callers: 1 runs, 2 and 3 wait; when 1 finishes, 2 is woken
    and 3 stays at the head of the queue. *)
Lemma mutex_exclusive_and_fifo_witness :
  let s := finish 1 (call 3 (call 2 (start 1 (call 1 init)))) in
  arrivals s = grants s ++ WriteMutex.queue (mutex s)
  ∧ grants s = [1; 2]%nat
  ∧ WriteMutex.queue (mutex s) = [3%nat].
Proof.
  assert (reachable (call 1 init)) as H1.
  { apply (reach_step init); [apply reach_init|].
    apply (step_call 1 init). reflexivity. }
  assert (reachable (start 1 (call 1 init))) as H2.
  { apply (reach_step _ _ H1). apply (step_start 1 (call 1 init)). reflexivity. }
  assert (reachable (call 2 (start 1 (call 1 init)))) as H3.
  { apply (reach_step _ _ H2). apply (step_call 2). reflexivity. }
  assert (reachable (call 3 (call 2 (start 1 (call 1 init))))) as H4.
  { apply (reach_step _ _ H3). apply (step_call 3). reflexivity. }
  assert (reachable (finish 1 (call 3 (call 2 (start 1 (call 1 init))))))
    as Hreach'.
  { apply (reach_step _ _ H4). apply (step_finish 1). reflexivity. }
  split_and!.
  - exact (proj1 (proj2 (proj2 (mutex_exclusive_and_fifo _ Hreach')))).
  - reflexivity.
  - reflexivity.
Defined.
End SchedulerFacts.

(* ===================================================================== *)
(** * Persistence steps on a disk that accepts them *)
(* ===================================================================== *)

Lemma writeFile_run p t w :
  p ∉ dirs (disk w) →
  changeDisk (fs.writeFile p t) w = (Returned tt, set_disk (written p t (disk w)) w).
Proof.
  intros Hp. unfold changeDisk, fs.writeFile.
  by rewrite bool_decide_eq_false_2.
Qed.

Lemma saveCollectionIndex_run w :
  indexFilePath (db w) ∉ dirs (disk w) →
  JSLiteDB._saveCollectionIndex w
  = (Returned tt,
     set_disk (written (indexFilePath (db w))
                 (manifest (clock w) (JsMap.keys (collectionFiles (db w))))
                 (disk w)) w).
Proof.
  intros Hp. unfold JSLiteDB._saveCollectionIndex, bind, this, Date_now.
  by rewrite writeFile_run.
Qed.

Lemma saveCollection_run n entries w :
  JsMap.get n (collectionData (db w)) = Some entries →
  JSLiteDB._getCollectionFilePath (db w) n ∉ dirs (disk w) →
  JSLiteDB._saveCollection n w
  = (Returned tt,
     upd_db (upd_collectionFiles
               (JsMap.set n (JSLiteDB._getCollectionFilePath (db w) n)))
       (set_disk (written (JSLiteDB._getCollectionFilePath (db w) n)
                    (JSON_stringify (JObj (JsObject.fromEntries entries)))
                    (disk w)) w)).
Proof.
  intros Hget Hp. unfold JSLiteDB._saveCollection, bind, this.
  rewrite Hget. by rewrite writeFile_run.
Qed.

Lemma unlinkQuietly_run p w :
  p ∉ dirs (disk w) →
  JSLiteDB.unlinkQuietly p w = (Returned tt, set_disk (removed p (disk w)) w).
Proof.
  intros Hp. unfold JSLiteDB.unlinkQuietly, tryCatch, changeDisk, fs.unlink.
  rewrite bool_decide_eq_false_2 by done.
  destruct (files (disk w) !! p) eqn:Hfile; [done|].
  unfold ret, removed. rewrite delete_id by done.
  by destruct w as [? [? ?] ? ? ?].
Qed.

Lemma join_nonempty folder file : (Path.join folder file =? "")%string = false.
Proof. unfold Path.join. by destruct folder. Qed.

Lemma delete_only {V : Type} k (v : V) : JsMap.delete k [(k, v)] = [].
Proof.
  unfold JsMap.delete. rewrite filter_cons. simpl. by case_decide.
Qed.

Lemma get_only {V : Type} k (v : V) : JsMap.get k [(k, v)] = Some v.
Proof. simpl. by rewrite String.eqb_refl. Qed.



(* ===================================================================== *)
(** * Deleting the last document *)
(* ===================================================================== *)

(** C4.  On a ready store whose disk accepts the writes, deleting the
    only document of a collection returns true; afterwards the collection
    is absent from the in-memory store, from the names [collections()]
    lists and from the file map; on disk its backing file has been removed
    and the manifest has been rewritten without its name. *)
Theorem delete_last_document name id document w :
  ready w →
  JsMap.get name (collectionData (db w)) = Some [(ToString id, document)] →
  JSLiteDB._getCollectionFilePath (db w) name ∉ dirs (disk w) →
  indexFilePath (db w) ∉ dirs (disk w) →
  ∃ w' names,
    Collection.delete name id w = (Returned true, w')
    ∧ JsMap.get name (collectionData (db w')) = None
    ∧ (JSLiteDB.collections w').1 = Returned (JsMap.keys (collectionData (db w')))
    ∧ (name ∉ JsMap.keys (collectionData (db w')))
    ∧ JsMap.get name (collectionFiles (db w')) = None
    ∧ files (disk w')
      = <[indexFilePath (db w) := manifest (clock w) names]>
          (delete (JSLiteDB._getCollectionFilePath (db w) name) (files (disk w)))
    ∧ (name ∉ names)
    ∧ (JSLiteDB._getCollectionFilePath (db w) name ≠ indexFilePath (db w) →
       files (disk w') !! JSLiteDB._getCollectionFilePath (db w) name = None).
Proof.
  intros [Hinit Hidle] Hget Hpath Hindex.
  destruct w as [[fp ifp cf cd c ii mx [l q]] [fs ds] ck fid em].
  destruct Hidle as [Hl Hq]. simpl in Hinit, Hl, Hq, Hget, Hpath, Hindex. subst.
  unfold Collection.delete.
  erewrite bind_Returned; [|by apply ensureInitialized_ready].
  rewrite acquire_idle by done.
  unfold bind at 1. unfold this at 1. norm.
  rewrite Hget, get_only, delete_only.
  unfold bind at 1. unfold modify at 1.
  unfold bind at 1. unfold modify at 1.
  unfold bind at 1. norm.
  erewrite saveCollection_run; [|norm; apply get_set_eq|exact Hpath]. norm.
  change (JsMap.size [] =? 0) with true. cbv iota.
  unfold bind at 1. unfold bind at 1. unfold modify at 1. norm.
  unfold bind at 1. unfold this at 1. norm.
  rewrite get_set_eq, join_nonempty. cbv iota. simpl negb. cbv iota.
  unfold bind at 1.
  rewrite unlinkQuietly_run by exact Hpath. norm.
  unfold modify at 1. norm.
  unfold bind at 1.
  rewrite saveCollectionIndex_run by exact Hindex. norm.
  unfold bind at 1. unfold emit at 1. unfold ret. norm.
  eexists _, _. split; [reflexivity|]. norm.
  split_and!.
  - apply get_delete_eq.
  - unfold JSLiteDB.collections.
    erewrite bind_Returned; [|by apply ensureInitialized_ready]. done.
  - apply keys_delete.
  - apply get_delete_eq.
  - by rewrite delete_insert_eq.
  - apply keys_delete.
  - intros Hne. rewrite lookup_insert_ne by done.
    rewrite delete_insert_eq. apply lookup_delete_eq.
Qed.

Lemma delete_last_document_witness :
  ∃ w',
    Collection.delete "users" (JNum 1) Sample.world = (Returned true, w')
    ∧ JsMap.get "users" (collectionData (db w')) = None
    ∧ files (disk w') !! "data/users.json" = None.
Proof.
  destruct (delete_last_document "users" (JNum 1) Sample.ann Sample.world)
    as (w' & names & Hrun & Hgone & _ & _ & _ & _ & _ & Hfile).
  - split; [reflexivity | split; reflexivity].
  - reflexivity.
  - vm_compute. intros H. discriminate H.
  - vm_compute. intros H. discriminate H.
  - exists w'. split_and!; [done | done |]. apply Hfile. discriminate.
Defined.

(* ===================================================================== *)
(** * A restore that fails *)
(* ===================================================================== *)

(** C6.  When [restore(path)] throws, for whatever reason, the error is
    the wrapped "Failed to restore data" error and the collection-data map
    and the collection-file map are the ones from before the call.  A
    backup file that cannot be read, or that is not JSON, makes it
    throw. *)
Theorem restore_failure_rolls_back backupPath w :
  (∀ e w',
     JSLiteDB.restore backupPath w = (Thrown e, w') →
     collectionData (db w') = collectionData (db w)
     ∧ collectionFiles (db w') = collectionFiles (db w)
     ∧ ∃ cause, e = Failure "Failed to restore data" cause)
  ∧ (∀ cause,
       fs.readFile backupPath (disk w) = inl cause →
       (JSLiteDB.restore backupPath w).1
       = Thrown (Failure "Failed to restore data" cause))
  ∧ (∀ raw,
       fs.readFile backupPath (disk w) = inr (Garbled raw) →
       (JSLiteDB.restore backupPath w).1
       = Thrown (Failure "Failed to restore data" SyntaxError)).
Proof.
  split_and!.
  - intros e w'. unfold JSLiteDB.restore.
    unfold bind at 1. unfold this at 1. unfold tryCatch.
    match goal with
    | |- (match ?body w with _ => _ end) = _ → _ =>
        destruct (body w) as [[a|e0|] w1]
    end; [done| |done].
    unfold bind, modify, throw. intros [= <- <-]. simpl. eauto.
  - intros cause Hread. unfold JSLiteDB.restore.
    unfold bind at 1. unfold this at 1. unfold tryCatch.
    unfold bind at 1. unfold onDisk at 1. rewrite Hread. simpl. done.
  - intros raw Hread. unfold JSLiteDB.restore.
    unfold bind at 1. unfold this at 1. unfold tryCatch.
    unfold bind at 1. unfold onDisk at 1. rewrite Hread. simpl. done.
Qed.

(* ===================================================================== *)
(** * Objects, entries and the backup document *)
(* ===================================================================== *)

Lemma place_perm k v o : JsObject.place k v o ≡ₚ (k, v) :: o.
Proof.
  induction o as [|[k' v'] o IH]; simpl; [done|].
  destruct (JsObject.before k k'); [done|].
  rewrite IH. apply perm_swap.
Qed.

Lemma define_fresh k v o :
  k ∉ o.*1 → JsObject.define k v o ≡ₚ (k, v) :: o.
Proof.
  intros Hk. unfold JsObject.define, JsObject.has.
  apply get_None_keys, has_false_get in Hk. rewrite Hk. apply place_perm.
Qed.

Lemma fromEntries_perm_from (l acc : list (string * json)) :
  NoDup ((acc ++ l).*1) →
  fold_left (fun o kv => JsObject.define kv.1 kv.2 o) l acc ≡ₚ acc ++ l.
Proof.
  revert acc. induction l as [|[k v] l IH]; intros acc Hnd; simpl.
  - by rewrite app_nil_r.
  - assert (k ∉ acc.*1) as Hk.
    { rewrite fmap_app, fmap_cons in Hnd.
      apply NoDup_app in Hnd as (_ & Hdisj & _).
      intros Hin. apply (Hdisj k Hin). left. }
    pose proof (define_fresh k v acc Hk) as Hperm.
    rewrite IH.
    + rewrite Hperm. simpl. apply Permutation_middle.
    + rewrite Hperm.
      change (((k, v) :: acc) ++ l) with ((k, v) :: (acc ++ l)).
      by rewrite Permutation_middle.
Qed.

Lemma fromEntries_perm (l : list (string * json)) :
  NoDup (l.*1) → JsObject.fromEntries l ≡ₚ l.
Proof. intros Hnd. unfold JsObject.fromEntries. by rewrite fromEntries_perm_from. Qed.

Lemma fromEntries_NoDup (l : list (string * json)) :
  NoDup (l.*1) → NoDup ((JsObject.fromEntries l).*1).
Proof. intros Hnd. by rewrite fromEntries_perm. Qed.

(** Through [Object.fromEntries] and back into a [Map], a collection
    keeps its ID-to-body mapping. *)
Lemma bodies_roundtrip (m : JsMap.t json) :
  JsMap.wf m → bodies (JsMap.ofEntries (JsObject.fromEntries m)) = bodies m.
Proof.
  intros Hwf. unfold bodies.
  rewrite ofEntries_wf by by apply fromEntries_NoDup.
  apply list_to_map_proper; [by apply fromEntries_NoDup | by apply fromEntries_perm].
Qed.

Lemma backupCollections_from (cd : JsMap.t (JsMap.t json)) acc :
  "__proto__" ∉ cd.*1 →
  fold_left
    (fun o entry => JsObject.assign entry.1 (JObj (JsObject.fromEntries entry.2)) o)
    cd acc
  = fold_left (fun o kv => JsObject.define kv.1 kv.2 o)
      ((fun entry => (entry.1, JObj (JsObject.fromEntries entry.2))) <$> cd) acc.
Proof.
  revert acc. induction cd as [|[name m] cd IH]; intros acc Hproto; [done|].
  rewrite fmap_cons in Hproto. apply not_elem_of_cons in Hproto as [Hne Hproto].
  simpl. unfold JsObject.assign at 2.
  simpl in Hne. destruct (String.eqb_spec name "__proto__"); [congruence|].
  by apply IH.
Qed.

Lemma backupCollections_perm (cd : JsMap.t (JsMap.t json)) :
  "__proto__" ∉ cd.*1 → NoDup (cd.*1) →
  backupCollections cd
  ≡ₚ (fun entry => (entry.1, JObj (JsObject.fromEntries entry.2))) <$> cd.
Proof.
  intros Hproto Hnd. unfold backupCollections.
  rewrite backupCollections_from by done.
  apply (fromEntries_perm_from _ []). simpl.
  by rewrite <- list_fmap_compose.
Qed.

Lemma restoredData_fresh entries (cd : JsMap.t (JsMap.t json)) :
  NoDup (cd.*1 ++ entries.*1) →
  restoredData entries cd
  = cd ++ ((fun entry =>
              (entry.1, JsMap.ofEntries (JsObject.ownProperties entry.2)))
           <$> entries).
Proof.
  revert cd. induction entries as [|[name v] entries IH]; intros cd Hnd; simpl.
  - by rewrite app_nil_r.
  - unfold restoredData in *. simpl. rewrite set_fresh.
    + rewrite IH; [by rewrite <- app_assoc|].
      rewrite fmap_app. simpl. by rewrite <- app_assoc.
    + apply NoDup_app in Hnd as (_ & Hdisj & _).
      intros Hin. apply (Hdisj name Hin). left.
Qed.

(** The collection data [restore] rebuilds from the [collections] object
    of a backup holds the mapping the backup was taken from. *)
Lemma store_roundtrip (cd : JsMap.t (JsMap.t json)) :
  JsMap.wf cd →
  Forall (fun entry => JsMap.wf entry.2) cd →
  JsMap.get "__proto__" cd = None →
  store (restoredData (backupCollections cd) []) = store cd.
Proof.
  intros Hwf Hinner Hproto. apply get_None_keys in Hproto.
  pose proof (backupCollections_perm cd Hproto Hwf) as Hperm.
  assert (NoDup ((backupCollections cd).*1)) as Hnd.
  { rewrite Hperm. by rewrite <- list_fmap_compose. }
  rewrite restoredData_fresh by done. simpl. unfold store.
  rewrite <- list_fmap_compose.
  erewrite list_to_map_proper; last first.
  - apply fmap_Permutation. exact Hperm.
  - by rewrite <- list_fmap_compose.
  - rewrite <- list_fmap_compose. f_equal.
    apply Forall_fmap_ext_1.
    eapply Forall_impl; [exact Hinner|].
    intros [name m] Hm. simpl in *. unfold prod_map. simpl. f_equal.
    by apply bodies_roundtrip.
Qed.

(* ===================================================================== *)
(** * Backup, clear, restore *)
(* ===================================================================== *)

Lemma set_disk_same w : set_disk (disk w) w = w.
Proof. by destruct w. Qed.

Lemma unlinkQuietly_unlinked p w :
  JSLiteDB.unlinkQuietly p w = (Returned tt, set_disk (unlinked (disk w) p) w).
Proof.
  unfold JSLiteDB.unlinkQuietly, tryCatch, changeDisk, fs.unlink, unlinked.
  case_bool_decide; simpl.
  - by rewrite set_disk_same.
  - destruct (files (disk w) !! p) eqn:Hfile; [done|].
    unfold ret, removed. rewrite delete_id by done.
    by destruct w as [? [? ?] ? ? ?].
Qed.

Lemma forEach_unlink ps w :
  forEach ps JSLiteDB.unlinkQuietly w
  = (Returned tt, set_disk (fold_left unlinked ps (disk w)) w).
Proof.
  revert w. induction ps as [|p ps IH]; intros w; simpl.
  - unfold ret. by rewrite set_disk_same.
  - unfold bind. rewrite unlinkQuietly_unlinked, IH. by destruct w.
Qed.

Lemma dirs_unlinked d p : dirs (unlinked d p) = dirs d.
Proof. unfold unlinked. by case_bool_decide. Qed.

Lemma files_unlinked d p q :
  q ≠ p → files (unlinked d p) !! q = files d !! q.
Proof.
  intros Hne. unfold unlinked. case_bool_decide; [done|].
  simpl. by rewrite lookup_delete_ne.
Qed.

Lemma dirs_unlinked_all ps d : dirs (fold_left unlinked ps d) = dirs d.
Proof.
  revert d. induction ps as [|p ps IH]; intros d; simpl; [done|].
  by rewrite IH, dirs_unlinked.
Qed.

Lemma files_unlinked_all ps d q :
  q ∉ ps → files (fold_left unlinked ps d) !! q = files d !! q.
Proof.
  revert d. induction ps as [|p ps IH]; intros d Hq; simpl; [done|].
  apply not_elem_of_cons in Hq as [Hne Hq].
  rewrite IH by done. by apply files_unlinked.
Qed.

(** The store once [clear()] has emptied it. *)
Lemma clear_run w :
  isInitialized (db w) = true →
  JSLiteDB.clear w
  = (Returned true,
     add_event database_cleared
       (upd_db (fun d => upd_cache (fun _ => [])
                           (upd_collectionFiles (fun _ => [])
                              (upd_collectionData (fun _ => []) d)))
          (set_disk (unlinked (fold_left unlinked
                                 (JsMap.values (collectionFiles (db w))) (disk w))
                              (indexFilePath (db w))) w))).
Proof.
  intros Hinit. unfold JSLiteDB.clear.
  erewrite bind_Returned; [|by apply ensureInitialized_ready].
  unfold tryCatch, bind at 1. unfold this at 1.
  unfold bind at 1. rewrite forEach_unlink.
  unfold bind at 1. rewrite unlinkQuietly_unlinked.
  unfold bind, modify, emit, ret. by destruct w as [[] [] ? ? ?].
Qed.

(** What a successful [backup(path)] has done. *)
Lemma backup_returned p w u w1 :
  JSLiteDB.backup p w = (Returned u, w1) →
  isInitialized (db w1) = true
  ∧ (p ∉ dirs (disk w1))
  ∧ files (disk w1) !! p
    = Some (JSON_stringify (backupDocument (clock w1) (collectionData (db w1)))).
Proof.
  unfold JSLiteDB.backup, tryCatch.
  match goal with
  | |- (match ?body w with _ => _ end) = _ → _ =>
      destruct (body w) as [[a|e0|] w'] eqn:Hrun
  end; [|done|done].
  intros [= _ <-].
  inv_bind Hrun as w0 H0. apply ensureInitialized_post in H0 as Hinit.
  inv_bind Hrun as w2 H2. unfold Date_now in H2. injection H2 as <- <-.
  inv_bind Hrun as w3 H3. unfold this in H3. injection H3 as <- <-.
  inv_bind Hrun as w4 H4. apply emit_inv in Hrun as ->.
  unfold changeDisk, fs.writeFile in H4.
  case_bool_decide as Hdir; [done|]. injection H4 as Hw4. subst w4.
  norm. split_and!; [done | done |].
  by rewrite lookup_insert_eq.
Qed.

Lemma Object_entries_object v :
  v ≠ JNull → Object_entries v = inr (JsObject.ownProperties v).
Proof. by destruct v. Qed.

(** The loop of [restore] over the collections of a backup, on a disk
    that accepts the writes. *)
Lemma restore_loop entries w :
  (∀ entry, entry ∈ entries →
     entry.2 ≠ JNull
     ∧ JSLiteDB._getCollectionFilePath (db w) entry.1 ∉ dirs (disk w)) →
  ∃ w',
    forEach entries JSLiteDB.restoreOne w = (Returned tt, w')
    ∧ collectionData (db w') = restoredData entries (collectionData (db w))
    ∧ dirs (disk w') = dirs (disk w)
    ∧ folderPath (db w') = folderPath (db w)
    ∧ indexFilePath (db w') = indexFilePath (db w).
Proof.
  revert w. induction entries as [|[name v] entries IH]; intros w Hok.
  - exists w. by split_and!.
  - destruct (Hok (name, v)) as [Hv Hpath]; [left|]. simpl in Hv, Hpath.
    simpl. unfold bind at 1. unfold JSLiteDB.restoreOne at 1.
    unfold bind at 1. simpl. rewrite Object_entries_object by done.
    unfold lift, ret at 1. unfold bind at 1. unfold modify at 1.
    erewrite saveCollection_run; [|norm; apply get_set_eq|exact Hpath].
    match goal with
    | |- ∃ w', forEach _ _ ?w1 = _ ∧ _ => destruct (IH w1) as (w' & Hrun & Hcd & Hdirs & Hfp & Hifp)
    end.
    { intros entry Hin. destruct (Hok entry) as [? ?]; [by right|].
      split; [done|]. by norm. }
    exists w'. rewrite Hrun, Hcd, Hdirs, Hfp, Hifp. by split_and!.
Qed.

Lemma backupCollections_entries (cd : JsMap.t (JsMap.t json)) entry :
  "__proto__" ∉ cd.*1 → NoDup (cd.*1) →
  entry ∈ backupCollections cd →
  entry.2 ≠ JNull ∧ entry.1 ∈ cd.*1.
Proof.
  intros Hproto Hnd Hin.
  rewrite (backupCollections_perm cd Hproto Hnd) in Hin.
  apply list_elem_of_fmap in Hin as ([name m] & -> & Hin). simpl.
  split; [done|]. apply list_elem_of_fmap. by exists (name, m).
Qed.

(** [restore(path)] of a backup document on an initialised store whose
    disk accepts the writes. *)
Lemma restore_run p w now cd :
  isInitialized (db w) = true →
  fs.readFile p (disk w) = inr (JSON_stringify (backupDocument now cd)) →
  (∀ entry, entry ∈ backupCollections cd →
     entry.2 ≠ JNull
     ∧ JSLiteDB._getCollectionFilePath (db w) entry.1 ∉ dirs (disk w)) →
  indexFilePath (db w) ∉ dirs (disk w) →
  ∃ w',
    JSLiteDB.restore p w = (Returned tt, w')
    ∧ collectionData (db w') = restoredData (backupCollections cd) [].
Proof.
  intros Hinit Hread Hok Hindex. unfold JSLiteDB.restore.
  unfold bind at 1. unfold this at 1. unfold tryCatch.
  unfold bind at 1. unfold onDisk at 1. rewrite Hread.
  unfold lift at 1, ret at 1.
  unfold bind at 1. unfold JSON_parse, JSON_stringify, lift at 1, ret at 1.
  erewrite bind_Returned; [|by apply ensureInitialized_ready].
  unfold bind at 1. unfold modify at 1.
  unfold bind at 1. unfold modify at 1.
  unfold bind at 1. unfold modify at 1.
  unfold bind at 1.
  change (getProperty (backupDocument now cd) "folderBased")
    with (inr (Some (JBool true)) : Error + option json).
  unfold lift at 1, ret at 1.
  unfold bind at 1.
  change (getProperty (backupDocument now cd) "collections")
    with (inr (Some (JObj (backupCollections cd))) : Error + option json).
  unfold lift at 1, ret at 1.
  change (JSLiteDB.truthy' (Some (JBool true)) && truthy (JObj (backupCollections cd)))
    with true. cbv iota.
  unfold bind at 1. unfold JSLiteDB.restoreCollections at 1.
  unfold bind at 1. simpl Object_entries. unfold lift at 1, ret at 1.
  match goal with
  | |- context [forEach _ JSLiteDB.restoreOne ?w1] =>
      destruct (restore_loop (backupCollections cd) w1)
        as (w2 & Hrun & Hcd & Hdirs & Hfp & Hifp)
  end.
  { intros entry Hin. destruct (Hok entry Hin) as [? ?]. split; [done|]. by norm. }
  rewrite Hrun.
  unfold bind at 1.
  rewrite saveCollectionIndex_run; last first.
  { rewrite Hifp, Hdirs. by norm. }
  unfold emit, ret. eexists. split; [reflexivity|].
  norm. by rewrite Hcd.
Qed.

(** C5 (amended).  Take a successful [backup(path)] of a store in which
    no collection is named [__proto__], to a path that is neither a
    collection file of the store nor its manifest, on a disk that accepts
    the writes of the collection files and of the manifest.  Then [clear()]
    succeeds, [restore(path)] succeeds, and the restored store maps every
    collection and every ID to the body it had before the clear. *)
Theorem backup_clear_restore backupPath w w1 :
  JSLiteDB.backup backupPath w = (Returned tt, w1) →
  wellFormed (db w1) →
  JsMap.get "__proto__" (collectionData (db w1)) = None →
  backupPath ∉ JsMap.values (collectionFiles (db w1)) →
  backupPath ≠ indexFilePath (db w1) →
  (∀ name, name ∈ JsMap.keys (collectionData (db w1)) →
     JSLiteDB._getCollectionFilePath (db w1) name ∉ dirs (disk w1)) →
  indexFilePath (db w1) ∉ dirs (disk w1) →
  ∃ w2 w3,
    JSLiteDB.clear w1 = (Returned true, w2)
    ∧ JSLiteDB.restore backupPath w2 = (Returned tt, w3)
    ∧ store (collectionData (db w3)) = store (collectionData (db w1)).
Proof.
  intros Hbackup [Hwf Hinner] Hproto Hpath Hnotindex Hwritable Hindex.
  apply backup_returned in Hbackup as (Hinit & Hdir & Hfile).
  pose proof (clear_run w1 Hinit) as Hclear.
  set (w2 := (JSLiteDB.clear w1).2).
  assert (JSLiteDB.clear w1 = (Returned true, w2)) as Hcleared.
  { unfold w2. by rewrite Hclear. }
  assert (db w2 = upd_cache (fun _ => [])
                    (upd_collectionFiles (fun _ => [])
                       (upd_collectionData (fun _ => []) (db w1)))) as Hdb.
  { unfold w2. by rewrite Hclear. }
  assert (disk w2 = unlinked (fold_left unlinked
                                (JsMap.values (collectionFiles (db w1))) (disk w1))
                             (indexFilePath (db w1))) as Hdisk.
  { unfold w2. by rewrite Hclear. }
  clearbody w2. clear Hclear.
  destruct (restore_run backupPath w2 (clock w1) (collectionData (db w1)))
    as (w3 & Hrun & Hcd).
  - by rewrite Hdb.
  - unfold fs.readFile. rewrite Hdisk, dirs_unlinked, dirs_unlinked_all.
    rewrite bool_decide_eq_false_2 by done.
    rewrite files_unlinked by done.
    rewrite files_unlinked_all by done. by rewrite Hfile.
  - intros entry Hin.
    apply get_None_keys in Hproto as Hproto'.
    apply backupCollections_entries in Hin as [Hv Hkey]; [|done..].
    split; [done|]. rewrite Hdb, Hdisk, dirs_unlinked, dirs_unlinked_all.
    by apply Hwritable.
  - by rewrite Hdb, Hdisk, dirs_unlinked, dirs_unlinked_all.
  - exists w2, w3. split_and!; [done | done |].
    rewrite Hcd. by apply store_roundtrip.
Qed.

Lemma backup_clear_restore_witness :
  ∃ w2 w3,
    JSLiteDB.clear (JSLiteDB.backup "backups/all.json" Sample.world).2
    = (Returned true, w2)
    ∧ JSLiteDB.restore "backups/all.json" w2 = (Returned tt, w3)
    ∧ store (collectionData (db w3))
      = store (collectionData
                 (db (JSLiteDB.backup "backups/all.json" Sample.world).2)).
Proof.
  apply (backup_clear_restore "backups/all.json" Sample.world).
  - vm_compute. reflexivity.
  - split; vm_compute; repeat constructor; intros H; inversion H.
  - vm_compute. reflexivity.
  - intros H. vm_compute in H.
    apply list_elem_of_singleton in H. discriminate H.
  - vm_compute. discriminate.
  - intros name Hin. vm_compute in Hin.
    apply list_elem_of_singleton in Hin as ->.
    vm_compute. intros H. discriminate H.
  - vm_compute. intros H. discriminate H.
Defined.

(** C5 as stated fails when the backup is written over a collection
    file of the store: [clear()] unlinks that file with the others, and
    [restore] finds nothing to read. *)
Lemma backup_over_collection_file_is_lost :
  ¬ backupRestoreRoundTrips Sample.world "data/users.json".
Proof.
  intros (w1 & w2 & w3 & Hbackup & Hclear & Hrestore & _).
  assert (w1 = (JSLiteDB.backup "data/users.json" Sample.world).2) as ->
    by (by rewrite Hbackup).
  assert (w2 = (JSLiteDB.clear
                  (JSLiteDB.backup "data/users.json" Sample.world).2).2) as ->
    by (by rewrite Hclear).
  vm_compute in Hrestore. discriminate Hrestore.
Qed.

Lemma restore_failure_rolls_back_witness :
  let after := JSLiteDB.restore "backup.json" Sample.blockedWorld in
  after.1 = Thrown (Failure "Failed to restore data" (EISDIR "data/b.json"))
  ∧ collectionData (db after.2) = collectionData (db Sample.blockedWorld)
  ∧ collectionFiles (db after.2) = collectionFiles (db Sample.blockedWorld)
  ∧ files (disk Sample.blockedWorld) !! "data/a.json" = None
  ∧ files (disk after.2) !! "data/a.json"
    = Some (Json (JObj [("1", Sample.ann)])).
Proof.
  intros after.
  assert (after = (Thrown (Failure "Failed to restore data" (EISDIR "data/b.json")),
                   after.2)) as Hrun.
  { vm_compute. reflexivity. }
  destruct (proj1 (restore_failure_rolls_back "backup.json" Sample.blockedWorld)
              _ _ Hrun) as (Hdata & Hfiles & _).
  split_and!; [by rewrite Hrun | exact Hdata | exact Hfiles | |];
    vm_compute; reflexivity.
Defined.

(* ===================================================================== *)
(** * Storing a document: [insert] and [update] *)
(* ===================================================================== *)

(** [update] on a ready store whose disk accepts the writes. *)
Lemma update_run name id doc w entries :
  ready w →
  JsMap.get name (collectionData (db w)) = Some entries →
  JSLiteDB._getCollectionFilePath (db w) name ∉ dirs (disk w) →
  indexFilePath (db w) ∉ dirs (disk w) →
  Collection.update name id doc w
  = (Returned doc,
     afterStore name id doc entries (collection_update name id doc) w).
Proof.
  intros [Hinit Hidle] Hget Hpath Hindex.
  destruct w as [[fp ifp cf cd c ii mx [l q]] [fs ds] ck fid em].
  destruct Hidle as [Hl Hq]. simpl in Hinit, Hl, Hq, Hget, Hpath, Hindex. subst.
  unfold Collection.update.
  erewrite bind_Returned; [|by apply ensureInitialized_ready].
  rewrite acquire_idle by done.
  unfold bind at 1. unfold Collection.getOrCreate at 1.
  unfold bind at 1. unfold this at 1. norm. rewrite Hget. unfold ret at 1.
  unfold bind at 1. unfold modify at 1.
  unfold bind at 1. rewrite addToCache_run.
  unfold bind at 1.
  erewrite saveCollection_run; [|norm; apply get_set_eq|exact Hpath].
  unfold bind at 1.
  rewrite saveCollectionIndex_run by exact Hindex.
  unfold bind at 1. unfold emit at 1. unfold ret. norm. reflexivity.
Qed.

(** [insert] of an ID the collection does not hold yet. *)
Lemma insert_run name id doc w entries :
  ready w →
  JsMap.get name (collectionData (db w)) = Some entries →
  JsMap.has (ToString id) entries = false →
  JSLiteDB._getCollectionFilePath (db w) name ∉ dirs (disk w) →
  indexFilePath (db w) ∉ dirs (disk w) →
  Collection.insert name id (Some doc) w
  = (Returned (withId id doc),
     afterStore name id doc entries (collection_insert name id doc) w).
Proof.
  intros [Hinit Hidle] Hget Hfresh Hpath Hindex.
  destruct w as [[fp ifp cf cd c ii mx [l q]] [fs ds] ck fid em].
  destruct Hidle as [Hl Hq]. simpl in Hinit, Hl, Hq, Hget, Hpath, Hindex. subst.
  unfold Collection.insert.
  erewrite bind_Returned; [|by apply ensureInitialized_ready].
  rewrite acquire_idle by done.
  unfold bind at 1. unfold ret at 1. cbn [fst snd].
  unfold bind at 1. unfold Collection.getOrCreate at 1.
  unfold bind at 1. unfold this at 1. norm. rewrite Hget. unfold ret at 1.
  rewrite Hfresh.
  unfold bind at 1. unfold modify at 1.
  unfold bind at 1. rewrite addToCache_run.
  unfold bind at 1.
  erewrite saveCollection_run; [|norm; apply get_set_eq|exact Hpath].
  unfold bind at 1.
  rewrite saveCollectionIndex_run by exact Hindex.
  unfold bind at 1. unfold emit at 1. unfold ret. norm. reflexivity.
Qed.

Lemma set_set {V : Type} k (v v' : V) m :
  JsMap.set k v (JsMap.set k v' m) = JsMap.set k v m.
Proof.
  induction m as [|[k0 v0] m IH]; simpl.
  - by rewrite String.eqb_refl.
  - destruct (String.eqb_spec k k0) as [->|Hne]; simpl.
    + by rewrite String.eqb_refl.
    + destruct (String.eqb_spec k k0); [done|]. by rewrite IH.
Qed.

Lemma get_Some_keys {V : Type} k (v : V) m :
  JsMap.get k m = Some v → k ∈ JsMap.keys m.
Proof.
  intros Hget. destruct (decide (k ∈ JsMap.keys m)) as [|Hnin]; [done|].
  apply get_None_keys in Hnin. congruence.
Qed.

Lemma keys_set_present {V : Type} k (v : V) m :
  JsMap.has k m = true → JsMap.keys (JsMap.set k v m) = JsMap.keys m.
Proof. intros Hk. by rewrite keys_set, Hk. Qed.

(** [insert] into a collection that is neither in memory nor on disk. *)
Lemma insert_new_run name id doc w :
  ready w →
  JsMap.get name (collectionData (db w)) = None →
  files (disk w) !! JSLiteDB._getCollectionFilePath (db w) name = None →
  JSLiteDB._getCollectionFilePath (db w) name ∉ dirs (disk w) →
  indexFilePath (db w) ∉ dirs (disk w) →
  Collection.insert name id (Some doc) w
  = (Returned (withId id doc),
     afterStore name id doc [] (collection_insert name id doc) w).
Proof.
  intros [Hinit Hidle] Hget Hfile Hpath Hindex.
  destruct w as [[fp ifp cf cd c ii mx [l q]] [fs ds] ck fid em].
  destruct Hidle as [Hl Hq].
  simpl in Hinit, Hl, Hq, Hget, Hfile, Hpath, Hindex. subst.
  unfold Collection.insert.
  erewrite bind_Returned; [|by apply ensureInitialized_ready].
  rewrite acquire_idle by done.
  unfold bind at 1. unfold ret at 1. cbn [fst snd].
  unfold bind at 1. unfold Collection.getOrCreate at 1.
  unfold bind at 1. unfold this at 1. norm. rewrite Hget.
  unfold JSLiteDB._loadCollection at 1.
  unfold bind at 1. unfold this at 1. unfold tryCatch at 1.
  unfold bind at 1. unfold JSLiteDB.readDataMap at 1.
  unfold bind at 1. unfold onDisk at 1. unfold fs.readFile at 1. norm.
  rewrite bool_decide_eq_false_2 by done. rewrite Hfile.
  unfold lift at 1, throw at 1.
  change (bool_decide (code (ENOENT (Path.join fp (name +:+ ".json")))
                       = Some "ENOENT")) with true. cbv iota.
  unfold bind at 1. unfold modify at 1. unfold ret at 1.
  change (JsMap.has (ToString id) JsMap.empty) with false. cbv iota.
  unfold bind at 1. unfold modify at 1.
  unfold bind at 1. rewrite addToCache_run.
  unfold bind at 1.
  erewrite saveCollection_run; [|norm; apply get_set_eq|exact Hpath].
  unfold bind at 1.
  rewrite saveCollectionIndex_run by exact Hindex.
  unfold bind at 1. unfold emit at 1. unfold ret. norm.
  unfold afterStore, cacheAfterAdd. normalise. by rewrite !set_set.
Qed.

Lemma ready_afterStore name id doc entries ev w :
  ready w → ready (afterStore name id doc entries ev w).
Proof. by intros [? [? ?]]. Qed.

(** An [insert] under an ID the collection holds is refused before
    anything is touched. *)
Lemma insert_present_run name w id body entries :
  ready w →
  JsMap.get name (collectionData (db w)) = Some entries →
  JsMap.has (ToString id) entries = true →
  Collection.insert name id (Some body) w
  = (Thrown (DocumentExists (ToString id) name), w).
Proof.
  intros [Hinit Hidle] Hcoll Hhas.
  unfold Collection.insert.
  erewrite bind_Returned; [|by apply ensureInitialized_ready].
  rewrite acquire_idle by done.
  unfold bind at 1. unfold ret at 1.
  unfold bind at 1. unfold Collection.getOrCreate at 1.
  unfold bind at 1. unfold this at 1.
  change (collectionData (db (lock w))) with (collectionData (db w)).
  rewrite Hcoll. unfold ret at 1. cbn [fst snd].
  rewrite Hhas. unfold throw. by rewrite unlock_lock.
Qed.

(** X1.  Inserting a document under an ID that an in-memory collection
    does not hold yet returns [{ id, ...doc }], appends the document at the
    end of the collection's insertion order and leaves the other
    collections and their order alone; the cache then holds the document,
    the collection file holds the whole collection and the manifest lists
    it; the store is ready for the next operation. *)
Theorem insert_appends_document name id doc w entries :
  ready w →
  JsMap.get name (collectionData (db w)) = Some entries →
  JsMap.has (ToString id) entries = false →
  JSLiteDB._getCollectionFilePath (db w) name ∉ dirs (disk w) →
  indexFilePath (db w) ∉ dirs (disk w) →
  ∃ w',
    Collection.insert name id (Some doc) w = (Returned (withId id doc), w')
    ∧ ready w'
    ∧ JsMap.get name (collectionData (db w'))
      = Some (entries ++ [(ToString id, doc)])
    ∧ JsMap.keys (collectionData (db w')) = JsMap.keys (collectionData (db w))
    ∧ (∀ other, other ≠ name →
         JsMap.get other (collectionData (db w'))
         = JsMap.get other (collectionData (db w)))
    ∧ JsMap.get (Collection.cacheKey name id) (cache (db w')) = Some doc
    ∧ files (disk w')
      = <[indexFilePath (db w) :=
            manifest (clock w) (JsMap.keys (collectionFiles (db w')))]>
          (<[JSLiteDB._getCollectionFilePath (db w) name :=
               JSON_stringify
                 (JObj (JsObject.fromEntries (entries ++ [(ToString id, doc)])))]>
             (files (disk w)))
    ∧ name ∈ JsMap.keys (collectionFiles (db w'))
    ∧ emitted w' = emitted w ++ [collection_insert name id doc].
Proof.
  intros Hready Hget Hfresh Hpath Hindex.
  eexists. split; [by apply insert_run|].
  assert (JsMap.set (ToString id) doc entries = entries ++ [(ToString id, doc)])
    as Happend.
  { apply set_fresh. by apply get_None_keys, has_false_get. }
  split_and!.
  - by apply ready_afterStore.
  - simpl. by rewrite get_set_eq, Happend.
  - simpl. apply keys_set_present. apply has_get. by rewrite Hget.
  - intros other Hne. simpl. by apply get_set_ne.
  - apply get_cacheAfterAdd.
  - simpl. by rewrite Happend.
  - simpl. eapply get_Some_keys, get_set_eq.
  - done.
Qed.

Lemma insert_appends_document_witness :
  ∃ w',
    Collection.insert "users" (JNum 2) (Some Sample.bob) Sample.world
    = (Returned (withId (JNum 2) Sample.bob), w')
    ∧ JsMap.get "users" (collectionData (db w'))
      = Some [("1", Sample.ann); ("2", Sample.bob)].
Proof.
  destruct (insert_appends_document "users" (JNum 2) Sample.bob Sample.world
              [("1", Sample.ann)])
    as (w' & Hrun & _ & Hdata & _).
  - split; [reflexivity | split; reflexivity].
  - reflexivity.
  - reflexivity.
  - vm_compute. intros H. discriminate H.
  - vm_compute. intros H. discriminate H.
  - exists w'. split; [exact Hrun | exact Hdata].
Defined.

(** X2.  Inserting into a collection that exists neither in memory nor
    on disk creates it: the new collection comes last in [collections()],
    holds the one document, gets its file and is listed in the
    manifest. *)
Theorem insert_creates_collection name id doc w :
  ready w →
  JsMap.get name (collectionData (db w)) = None →
  files (disk w) !! JSLiteDB._getCollectionFilePath (db w) name = None →
  JSLiteDB._getCollectionFilePath (db w) name ∉ dirs (disk w) →
  indexFilePath (db w) ∉ dirs (disk w) →
  ∃ w',
    Collection.insert name id (Some doc) w = (Returned (withId id doc), w')
    ∧ (JSLiteDB.collections w').1
      = Returned (JsMap.keys (collectionData (db w)) ++ [name])
    ∧ JsMap.get name (collectionData (db w')) = Some [(ToString id, doc)]
    ∧ JsMap.get name (collectionFiles (db w'))
      = Some (JSLiteDB._getCollectionFilePath (db w) name)
    ∧ files (disk w')
      = <[indexFilePath (db w) :=
            manifest (clock w) (JsMap.keys (collectionFiles (db w')))]>
          (<[JSLiteDB._getCollectionFilePath (db w) name :=
               JSON_stringify (JObj (JsObject.fromEntries [(ToString id, doc)]))]>
             (files (disk w))).
Proof.
  intros Hready Hget Hfile Hpath Hindex.
  eexists. split; [by apply insert_new_run|].
  split_and!.
  - unfold JSLiteDB.collections.
    erewrite bind_Returned;
      [|apply ensureInitialized_ready; by destruct Hready].
    unfold bind, this, ret. simpl. f_equal.
    rewrite keys_set. by apply has_false_get in Hget as ->.
  - simpl. by rewrite get_set_eq.
  - simpl. by rewrite get_set_eq.
  - done.
Qed.

Lemma insert_creates_collection_witness :
  ∃ w',
    Collection.insert "orders" (JStr "o1") (Some Sample.ann) Sample.world
    = (Returned (withId (JStr "o1") Sample.ann), w')
    ∧ (JSLiteDB.collections w').1 = Returned ["users"; "orders"].
Proof.
  destruct (insert_creates_collection "orders" (JStr "o1") Sample.ann Sample.world)
    as (w' & Hrun & Hnames & _).
  - split; [reflexivity | split; reflexivity].
  - reflexivity.
  - vm_compute. reflexivity.
  - vm_compute. intros H. discriminate H.
  - vm_compute. intros H. discriminate H.
  - exists w'. split; [exact Hrun | exact Hnames].
Defined.

(** X3.  After a successful [insert(id, body)], an [insert(id2, body2)]
    whose ID has the same string form (the number 42 and the string "42",
    say) throws the "already exists" error and changes nothing; the
    collection still holds [body] under that ID. *)
Theorem insert_twice_conflicts name id doc id2 doc2 w entries :
  ready w →
  JsMap.get name (collectionData (db w)) = Some entries →
  JsMap.has (ToString id) entries = false →
  JSLiteDB._getCollectionFilePath (db w) name ∉ dirs (disk w) →
  indexFilePath (db w) ∉ dirs (disk w) →
  ToString id2 = ToString id →
  ∃ w' entries',
    Collection.insert name id (Some doc) w = (Returned (withId id doc), w')
    ∧ Collection.insert name id2 (Some doc2) w'
      = (Thrown (DocumentExists (ToString id2) name), w')
    ∧ JsMap.get name (collectionData (db w')) = Some entries'
    ∧ JsMap.get (ToString id2) entries' = Some doc.
Proof.
  intros Hready Hget Hfresh Hpath Hindex Hsame.
  eexists _, (JsMap.set (ToString id) doc entries).
  split; [by apply insert_run|].
  assert (JsMap.get name
            (collectionData
               (db (afterStore name id doc entries
                      (collection_insert name id doc) w)))
          = Some (JsMap.set (ToString id) doc entries)) as Hget'.
  { simpl. by rewrite get_set_eq. }
  split_and!; [|done|by rewrite Hsame, get_set_eq].
  eapply insert_present_run; [by apply ready_afterStore | exact Hget' |].
  apply has_get. rewrite Hsame, get_set_eq. eauto.
Qed.

Lemma insert_twice_conflicts_witness :
  ∃ w',
    Collection.insert "users" (JNum 42) (Some Sample.bob) Sample.world
    = (Returned (withId (JNum 42) Sample.bob), w')
    ∧ Collection.insert "users" (JStr "42") (Some Sample.ann) w'
      = (Thrown (DocumentExists "42" "users"), w').
Proof.
  destruct (insert_twice_conflicts "users" (JNum 42) Sample.bob (JStr "42")
              Sample.ann Sample.world [("1", Sample.ann)])
    as (w' & entries' & Hrun & Hagain & _).
  - split; [reflexivity | split; reflexivity].
  - reflexivity.
  - reflexivity.
  - vm_compute. intros H. discriminate H.
  - vm_compute. intros H. discriminate H.
  - reflexivity.
  - exists w'. split; [exact Hrun | exact Hagain].
Defined.

(** X4.  [update] is an upsert that replaces in place: on a ready store
    it returns the body it was given; an ID the collection holds keeps its
    position in the insertion order and gets the new body, an ID it does
    not hold is appended; every other document is untouched. *)
Theorem update_replaces_in_place name id doc w entries :
  ready w →
  JsMap.get name (collectionData (db w)) = Some entries →
  JSLiteDB._getCollectionFilePath (db w) name ∉ dirs (disk w) →
  indexFilePath (db w) ∉ dirs (disk w) →
  ∃ w' entries',
    Collection.update name id doc w = (Returned doc, w')
    ∧ JsMap.get name (collectionData (db w')) = Some entries'
    ∧ JsMap.get (ToString id) entries' = Some doc
    ∧ (∀ other, other ≠ ToString id →
         JsMap.get other entries' = JsMap.get other entries)
    ∧ JsMap.keys entries'
      = (if JsMap.has (ToString id) entries then JsMap.keys entries
         else JsMap.keys entries ++ [ToString id]).
Proof.
  intros Hready Hget Hpath Hindex.
  eexists _, (JsMap.set (ToString id) doc entries).
  split; [by apply update_run|].
  split_and!.
  - simpl. by rewrite get_set_eq.
  - apply get_set_eq.
  - intros other Hne. by apply get_set_ne.
  - apply keys_set.
Qed.

Lemma update_replaces_in_place_witness :
  ∃ w',
    Collection.update "users" (JNum 1) Sample.bob Sample.world
    = (Returned Sample.bob, w')
    ∧ JsMap.get "users" (collectionData (db w')) = Some [("1", Sample.bob)].
Proof.
  destruct (update_replaces_in_place "users" (JNum 1) Sample.bob Sample.world
              [("1", Sample.ann)])
    as (w' & entries' & Hrun & Hdata & Hdoc & _ & Hkeys).
  - split; [reflexivity | split; reflexivity].
  - reflexivity.
  - vm_compute. intros H. discriminate H.
  - vm_compute. intros H. discriminate H.
  - exists w'. split; [exact Hrun|]. rewrite Hdata. f_equal.
    destruct entries' as [|[k v] [|? ?]]; try discriminate Hkeys.
    injection Hkeys as ->. simpl in Hdoc. by injection Hdoc as ->.
Defined.

(** X5.  Repeating an [update] with the same ID and body changes
    neither the collection data nor the file map, and leaves every file
    but the manifest, which is written anew, as the first [update] left
    it. *)
Theorem update_twice_same_store name id doc w entries :
  ready w →
  JsMap.get name (collectionData (db w)) = Some entries →
  JSLiteDB._getCollectionFilePath (db w) name ∉ dirs (disk w) →
  indexFilePath (db w) ∉ dirs (disk w) →
  ∃ w1 w2,
    Collection.update name id doc w = (Returned doc, w1)
    ∧ Collection.update name id doc w1 = (Returned doc, w2)
    ∧ collectionData (db w2) = collectionData (db w1)
    ∧ collectionFiles (db w2) = collectionFiles (db w1)
    ∧ ∀ p, p ≠ indexFilePath (db w) →
           files (disk w2) !! p = files (disk w1) !! p.
Proof.
  intros Hready Hget Hpath Hindex.
  eexists _, _. split; [by apply update_run|].
  split.
  - apply update_run.
    + by apply ready_afterStore.
    + simpl. by rewrite get_set_eq.
    + exact Hpath.
    + exact Hindex.
  - split_and!.
    + simpl. by rewrite !set_set.
    + simpl. by rewrite set_set.
    + intros p Hp. simpl. rewrite !set_set.
      rewrite !(lookup_insert_ne _ (indexFilePath (db w))) by done.
      rewrite !lookup_insert. repeat case_decide; done.
Qed.

Lemma update_twice_same_store_witness :
  ∃ w1 w2,
    Collection.update "users" (JNum 1) Sample.bob Sample.world
    = (Returned Sample.bob, w1)
    ∧ Collection.update "users" (JNum 1) Sample.bob w1 = (Returned Sample.bob, w2)
    ∧ collectionData (db w2) = collectionData (db w1).
Proof.
  destruct (update_twice_same_store "users" (JNum 1) Sample.bob Sample.world
              [("1", Sample.ann)])
    as (w1 & w2 & Hone & Htwo & Hdata & _).
  - split; [reflexivity | split; reflexivity].
  - reflexivity.
  - vm_compute. intros H. discriminate H.
  - vm_compute. intros H. discriminate H.
  - exists w1, w2. split_and!; done.
Defined.

(* ===================================================================== *)
(** * Reads against each other *)
(* ===================================================================== *)

Lemma count_fold (f : json → string → bool) (entries : list (string * json)) acc :
  fold_left (fun count entry => if f entry.2 entry.1 then count + 1 else count)
            entries acc
  = acc + Z.of_nat (length (List.filter (fun entry => f entry.2 entry.1) entries)).
Proof.
  revert acc. induction entries as [|[id document] entries IH]; intros acc; simpl.
  - lia.
  - rewrite IH. destruct (f document id); simpl; lia.
Qed.

Lemma count_run name arg w :
  isInitialized (db w) = true →
  Collection.count name arg w
  = (Returned
       (match JsMap.get name (collectionData (db w)) with
        | None => 0
        | Some entries =>
            match arg with
            | CountAll | CountOptions None => JsMap.size entries
            | CountFilter f | CountOptions (Some f) =>
                Z.of_nat (length (List.filter
                                    (fun entry => f entry.2 entry.1) entries))
            end
        end), w).
Proof.
  intros Hinit. unfold Collection.count.
  erewrite bind_Returned; [|by apply ensureInitialized_ready].
  unfold bind, this, ret.
  destruct (JsMap.get name (collectionData (db w))) as [entries|]; [|done].
  destruct arg as [|f|[f|]]; try done; by rewrite count_fold.
Qed.

Lemma filter_true {A : Type} (l : list A) : List.filter (fun _ => true) l = l.
Proof. induction l as [|x l IH]; simpl; [done|]. by rewrite IH. Qed.

Lemma length_unlimited flt entries :
  length (findResult None None flt entries)
  = length (List.filter (fun entry => Collection.passes flt entry.2 entry.1) entries).
Proof. unfold findResult, selected. simpl. by rewrite length_map. Qed.

(** X6.  On an initialised store [count] agrees with [find]: without a
    filter it is the number of documents [find()] returns, with a filter,
    given directly or inside an options object, the number of documents
    [find({ filter })] returns. *)
Theorem count_counts_what_find_returns name w f :
  isInitialized (db w) = true →
  ∃ all passing,
    Collection.find name noOptions w = (Returned all, w)
    ∧ Collection.find name {| limit := None; skip := None; filter := Some f |} w
      = (Returned passing, w)
    ∧ Collection.count name CountAll w = (Returned (Z.of_nat (length all)), w)
    ∧ Collection.count name (CountOptions None) w
      = (Returned (Z.of_nat (length all)), w)
    ∧ Collection.count name (CountFilter f) w
      = (Returned (Z.of_nat (length passing)), w)
    ∧ Collection.count name (CountOptions (Some f)) w
      = (Returned (Z.of_nat (length passing)), w).
Proof.
  intros Hinit. eexists _, _.
  rewrite !find_computes, !count_run by done.
  split; [reflexivity|]. split; [reflexivity|].
  destruct (JsMap.get name (collectionData (db w))) as [entries|]; [|done].
  cbn [limit skip filter noOptions].
  rewrite !length_unlimited. unfold Collection.passes, JsMap.size.
  by rewrite filter_true.
Qed.

Lemma count_counts_what_find_returns_witness :
  Collection.count "people" (CountFilter Sample.adult) Sample.fiveWorld
  = (Returned 2, Sample.fiveWorld).
Proof.
  destruct (count_counts_what_find_returns "people" Sample.fiveWorld Sample.adult
              eq_refl)
    as (all & passing & _ & Hfind & _ & _ & Hcount & _).
  rewrite Hcount. f_equal. f_equal.
  assert ((Returned passing : Outcome (list json))
          = Returned [withId (JStr "b") (Sample.person "Bea" 40);
                      withId (JStr "d") (Sample.person "Di" 25)]) as Hpass.
  { transitivity (Collection.find "people"
                    {| limit := None; skip := None; filter := Some Sample.adult |}
                    Sample.fiveWorld).1.
    - by rewrite Hfind.
    - vm_compute. reflexivity. }
  by injection Hpass as ->.
Defined.

(** X7.  [findOne(filter)] returns the first document, in insertion
    order, that [find({ filter })] returns, and null when there is none;
    [stream()] yields exactly the documents [find()] returns. *)
Theorem findOne_is_first_found name w flt :
  isInitialized (db w) = true →
  ∃ found,
    Collection.find name {| limit := None; skip := None; filter := flt |} w
    = (Returned found, w)
    ∧ Collection.findOne name flt w = (Returned (default JNull (head found)), w)
    ∧ (flt = None → Collection.stream name w = (Returned found, w)).
Proof.
  intros Hinit. eexists. split; [by apply find_computes|].
  split.
  - unfold Collection.findOne.
    erewrite bind_Returned; [|by apply find_computes].
    unfold ret. f_equal. f_equal. cbn [limit skip filter].
    destruct (JsMap.get name (collectionData (db w))) as [entries|]; [|done].
    unfold findResult. simpl.
    by destruct (selected 0 flt entries).
  - intros ->. rewrite stream_computes by done. f_equal. f_equal.
    cbn [limit skip filter].
    destruct (JsMap.get name (collectionData (db w))) as [entries|]; [|done].
    unfold findResult, selected, Collection.passes. simpl.
    by rewrite filter_true.
Qed.

Lemma findOne_is_first_found_witness :
  Collection.findOne "people" (Some Sample.adult) Sample.fiveWorld
  = (Returned (withId (JStr "b") (Sample.person "Bea" 40)), Sample.fiveWorld).
Proof.
  destruct (findOne_is_first_found "people" Sample.fiveWorld (Some Sample.adult)
              eq_refl) as (found & Hfind & Hone & _).
  rewrite Hone. f_equal. f_equal.
  assert ((Returned found : Outcome (list json))
          = Returned [withId (JStr "b") (Sample.person "Bea" 40);
                      withId (JStr "d") (Sample.person "Di" 25)]) as Hfound.
  { transitivity (Collection.find "people"
                    {| limit := None; skip := None; filter := Some Sample.adult |}
                    Sample.fiveWorld).1.
    - by rewrite Hfind.
    - vm_compute. reflexivity. }
  by injection Hfound as ->.
Defined.

Lemma sublist_map {A B : Type} (f : A → B) (l1 l2 : list A) :
  l1 `sublist_of` l2 → map f l1 `sublist_of` map f l2.
Proof. induction 1; simpl; by constructor. Qed.

Lemma sublist_List_filter {A : Type} (p : A → bool) (l : list A) :
  List.filter p l `sublist_of` l.
Proof.
  induction l as [|x l IH]; simpl; [done|]. destruct (p x); by constructor.
Qed.

(** X8.  Whatever the options, the documents [find] returns form a
    subsequence of the documents [stream()] yields, in the same order, and
    a strictly positive limit bounds their number. *)
Theorem find_is_ordered_part_of_stream name w options :
  isInitialized (db w) = true →
  ∃ found all,
    Collection.find name options w = (Returned found, w)
    ∧ Collection.stream name w = (Returned all, w)
    ∧ found `sublist_of` all
    ∧ ∀ n, limit options = Some n → 0 < n → Z.of_nat (length found) ≤ n.
Proof.
  intros Hinit. eexists _, _.
  split; [by apply find_computes|]. split; [by apply stream_computes|].
  destruct (JsMap.get name (collectionData (db w))) as [entries|];
    [|split; [done | simpl; lia]].
  assert (selected (default 0 (skip options)) (filter options) entries
          `sublist_of` map (fun entry => withId (JStr entry.1) entry.2) entries)
    as Hsub.
  { unfold selected. apply sublist_map.
    etransitivity; [apply sublist_List_filter | apply sublist_drop]. }
  split.
  - unfold findResult. destruct (limit options) as [n|]; [|done].
    destruct (n =? 0); [done|].
    etransitivity; [apply sublist_take | exact Hsub].
  - intros n Hn Hpos. unfold findResult. rewrite Hn.
    destruct (Z.eqb_spec n 0); [lia|].
    rewrite length_take. lia.
Qed.

Lemma find_is_ordered_part_of_stream_witness :
  ∃ found all,
    Collection.find "people"
      {| limit := Some 1; skip := Some 2; filter := Some Sample.adult |}
      Sample.fiveWorld = (Returned found, Sample.fiveWorld)
    ∧ Collection.stream "people" Sample.fiveWorld = (Returned all, Sample.fiveWorld)
    ∧ found `sublist_of` all.
Proof.
  destruct (find_is_ordered_part_of_stream "people" Sample.fiveWorld
              {| limit := Some 1; skip := Some 2; filter := Some Sample.adult |}
              eq_refl)
    as (found & all & Hfind & Hstream & Hsub & _).
  exists found, all. split_and!; done.
Defined.

(* ===================================================================== *)
(** * The cache: bound, eviction order, keys *)
(* ===================================================================== *)

Lemma delete_head {V : Type} k (v : V) m :
  k ∉ JsMap.keys m → JsMap.delete k ((k, v) :: m) = m.
Proof.
  intros Hk. unfold JsMap.delete. rewrite filter_cons. simpl.
  case_decide; [done|].
  induction m as [|[k' v'] m IH]; [done|].
  unfold JsMap.keys in Hk. rewrite fmap_cons in Hk.
  apply not_elem_of_cons in Hk as [Hne Hk].
  rewrite filter_cons. simpl in *. case_decide; [|congruence].
  f_equal. by apply IH.
Qed.

Lemma size_set_le {V : Type} k (v : V) m :
  JsMap.size (JsMap.set k v m) ≤ JsMap.size m + 1.
Proof.
  unfold JsMap.size. induction m as [|[k' v'] m IH]; simpl; [lia|].
  destruct (k =? k')%string; simpl; lia.
Qed.

(** X9.  [_addToCache] keeps the cache within [maxMemoryItems]: from a
    cache of at most that many entries (and a bound of at least one) it
    leaves a cache of at most that many entries, which holds the new value
    under the key. *)
Theorem addToCache_keeps_bound key value w :
  JsMap.wf (cache (db w)) →
  1 ≤ maxMemoryItems (db w) →
  JsMap.size (cache (db w)) ≤ maxMemoryItems (db w) →
  ∃ w',
    JSLiteDB._addToCache key value w = (Returned tt, w')
    ∧ JsMap.size (cache (db w')) ≤ maxMemoryItems (db w')
    ∧ JsMap.wf (cache (db w'))
    ∧ JsMap.get key (cache (db w')) = Some value.
Proof.
  intros Hwf Hmax Hsize. eexists. split; [apply addToCache_run|].
  simpl. split_and!; [| |apply get_cacheAfterAdd].
  - unfold cacheAfterAdd.
    destruct (Z.geb_spec (JsMap.size (cache (db w))) (maxMemoryItems (db w)))
      as [Hfull|Hroom].
    + destruct (cache (db w)) as [|[k0 v0] rest] eqn:Hcache.
      { unfold JsMap.size in *. simpl in *. lia. }
      simpl JsMap.keys. cbn [fmap list_fmap fst].
      rewrite delete_head.
      * pose proof (size_set_le key value rest).
        unfold JsMap.size in *. simpl in *. lia.
      * unfold JsMap.wf, JsMap.keys in Hwf. rewrite fmap_cons in Hwf.
        by apply NoDup_cons in Hwf as [? _].
    + pose proof (size_set_le key value (cache (db w))). lia.
  - unfold cacheAfterAdd. apply wf_set.
    destruct (JsMap.size (cache (db w)) >=? maxMemoryItems (db w)); [|done].
    destruct (JsMap.keys (cache (db w))); [done|]. by apply wf_delete.
Qed.

Lemma addToCache_keeps_bound_witness :
  ∃ w',
    JSLiteDB._addToCache "users:1" Sample.ann Sample.world = (Returned tt, w')
    ∧ JsMap.size (cache (db w')) ≤ 10000.
Proof.
  destruct (addToCache_keeps_bound "users:1" Sample.ann Sample.world)
    as (w' & Hrun & Hsize & _).
  - vm_compute. constructor.
  - vm_compute. discriminate.
  - vm_compute. discriminate.
  - exists w'. split; [exact Hrun|].
    assert (maxMemoryItems (db w') = 10000) as <-; [|exact Hsize].
    rewrite addToCache_run in Hrun. by injection Hrun as <-.
Defined.

(** X10.  Eviction follows insertion order, not use: when the cache is
    full, a [findById] that is served by the oldest entry leaves the cache
    as it is, and the next new key pushes that very entry out, the others
    keeping their order in front of the new one. *)
Theorem cache_evicts_oldest_inserted name id cached rest key value w :
  isInitialized (db w) = true →
  JsMap.wf (cache (db w)) →
  cache (db w) = (Collection.cacheKey name id, cached) :: rest →
  maxMemoryItems (db w) ≤ JsMap.size (cache (db w)) →
  key ∉ JsMap.keys (cache (db w)) →
  Collection.findById name id w = (Returned cached, w)
  ∧ ∃ w',
      JSLiteDB._addToCache key value w = (Returned tt, w')
      ∧ cache (db w') = rest ++ [(key, value)].
Proof.
  intros Hinit Hwf Hcache Hfull Hnew. split.
  - rewrite findById_computes by done. rewrite Hcache. simpl.
    by rewrite String.eqb_refl.
  - eexists. split; [apply addToCache_run|]. simpl. unfold cacheAfterAdd.
    destruct (Z.geb_spec (JsMap.size (cache (db w))) (maxMemoryItems (db w)));
      [|lia].
    rewrite Hcache in *. simpl JsMap.keys. cbn [fmap list_fmap fst].
    unfold JsMap.wf, JsMap.keys in Hwf, Hnew. rewrite fmap_cons in Hwf, Hnew.
    apply NoDup_cons in Hwf as [Hfirst _].
    apply not_elem_of_cons in Hnew as [_ Hnew].
    rewrite delete_head by done. by apply set_fresh.
Qed.

Lemma cache_evicts_oldest_inserted_witness :
  let w := upd_db (fun d => upd_cache (fun _ => [("users:1", Sample.ann);
                                                  ("users:2", Sample.bob)])
                             (JSLiteDB.new "data" (Some 2))) Sample.world in
  ∃ w', JSLiteDB._addToCache "users:3" Sample.ann
          (upd_db (set_isInitialized true) w) = (Returned tt, w')
        ∧ cache (db w') = [("users:2", Sample.bob); ("users:3", Sample.ann)].
Proof.
  intros w.
  destruct (cache_evicts_oldest_inserted "users" (JNum 1) Sample.ann
              [("users:2", Sample.bob)] "users:3" Sample.ann
              (upd_db (set_isInitialized true) w))
    as (_ & w' & Hrun & Hcache).
  - reflexivity.
  - vm_compute. repeat constructor; intros H; inversion H; subst.
    inversion H2.
  - reflexivity.
  - vm_compute. discriminate.
  - vm_compute. intros H. inversion H; subst. inversion H2; subst. inversion H3.
  - exists w'. split; [exact Hrun | exact Hcache].
Defined.

Lemma colonFree_split n n' s s' :
  colonFree n = true → colonFree n' = true →
  n +:+ ":" +:+ s = n' +:+ ":" +:+ s' → n = n' ∧ s = s'.
Proof.
  revert n'. induction n as [|a n IH]; intros [|a' n'] Hn Hn' Heq.
  - cbn in Heq. injection Heq as Heq. by subst.
  - cbn in Heq, Hn'. injection Heq as Ha _. subst a'. done.
  - cbn in Heq, Hn. injection Heq as Ha _. subst a. done.
  - cbn in Heq. injection Heq as Ha Heq. subst a'.
    cbn in Hn, Hn'.
    apply andb_prop in Hn as [_ Hn]. apply andb_prop in Hn' as [_ Hn'].
    destruct (IH n' Hn Hn' Heq) as [-> ->]. done.
Qed.

(** X11.  For collection names that hold no colon the cache key tells
    collections and IDs apart: two keys are equal only for the same
    collection and the same [String(id)]. *)
Theorem cacheKey_separates_collections name name' id id' :
  colonFree name = true →
  colonFree name' = true →
  Collection.cacheKey name id = Collection.cacheKey name' id' →
  name = name' ∧ ToString id = ToString id'.
Proof. intros Hn Hn'. unfold Collection.cacheKey. by apply colonFree_split. Qed.

Lemma cacheKey_separates_collections_witness :
  Collection.cacheKey "users" (JNum 42) = Collection.cacheKey "users" (JStr "42")
  ∧ ToString (JNum 42) = ToString (JStr "42").
Proof.
  split; [reflexivity|].
  exact (proj2 (cacheKey_separates_collections "users" "users" (JNum 42)
                  (JStr "42") eq_refl eq_refl eq_refl)).
Defined.

(** X12.  With a colon in a collection name two collections can share a
    cache key, and then the cache serves one collection the document of the
    other: after [insert(id', doc)] into [name'], [findById(id)] on [name]
    returns [doc] whenever the two keys coincide, whatever [name] holds. *)
Theorem cache_key_shared_between_collections name id name' id' doc w entries :
  ready w →
  JsMap.get name' (collectionData (db w)) = Some entries →
  JsMap.has (ToString id') entries = false →
  JSLiteDB._getCollectionFilePath (db w) name' ∉ dirs (disk w) →
  indexFilePath (db w) ∉ dirs (disk w) →
  Collection.cacheKey name id = Collection.cacheKey name' id' →
  ∃ w',
    Collection.insert name' id' (Some doc) w = (Returned (withId id' doc), w')
    ∧ (Collection.findById name id w').1 = Returned doc.
Proof.
  intros Hready Hget Hfresh Hpath Hindex Hkey.
  eexists. split; [by apply insert_run|].
  rewrite findById_computes by (by destruct Hready).
  simpl. rewrite Hkey. by rewrite get_cacheAfterAdd.
Qed.

Lemma cache_key_shared_between_collections_witness :
  let w := upd_db (upd_collectionData (fun _ => [("a:b", []); ("a", [])]))
                  Sample.world in
  ∃ w',
    Collection.insert "a:b" (JStr "c") (Some Sample.ann) w
    = (Returned (withId (JStr "c") Sample.ann), w')
    ∧ JsMap.get "a" (collectionData (db w')) = Some []
    ∧ (Collection.findById "a" (JStr "b:c") w').1 = Returned Sample.ann.
Proof.
  intros w.
  destruct (cache_key_shared_between_collections "a" (JStr "b:c") "a:b" (JStr "c")
              Sample.ann w [])
    as (w' & Hrun & Hfound).
  - split; [reflexivity | split; reflexivity].
  - reflexivity.
  - reflexivity.
  - vm_compute. intros H. discriminate H.
  - vm_compute. intros H. discriminate H.
  - reflexivity.
  - exists w'. split_and!; [exact Hrun | | exact Hfound].
    assert (w' = (Collection.insert "a:b" (JStr "c") (Some Sample.ann) w).2)
      as -> by (by rewrite Hrun).
    vm_compute. reflexivity.
Defined.

(* ===================================================================== *)
(** * Dropping a collection, clearing and closing the store *)
(* ===================================================================== *)

Lemma get_fold_delete {V : Type} (ks : list string) k (m : JsMap.t V) :
  JsMap.get k (fold_left (fun c k' => JsMap.delete k' c) ks m)
  = if bool_decide (k ∈ ks) then None else JsMap.get k m.
Proof.
  revert m. induction ks as [|k0 ks IH]; intros m; simpl; [done|].
  rewrite IH. case_bool_decide as Hin.
  - rewrite bool_decide_eq_true_2; [done | by right].
  - destruct (decide (k = k0)) as [->|Hne].
    + rewrite bool_decide_eq_true_2 by left. apply get_delete_eq.
    + rewrite bool_decide_eq_false_2.
      * by apply get_delete_ne.
      * intros Hin'. apply elem_of_cons in Hin' as [?|?]; done.
Qed.

Lemma forEach_cache_delete (ks : list string) w :
  forEach ks (fun key => modify (upd_cache (JsMap.delete key))) w
  = (Returned tt,
     upd_db (upd_cache (fun c => fold_left (fun c k => JsMap.delete k c) ks c)) w).
Proof.
  revert w. induction ks as [|k ks IH]; intros w; simpl.
  - unfold ret. by destruct w as [[] ? ? ? ?].
  - unfold bind, modify. rewrite IH. by destruct w as [[] ? ? ? ?].
Qed.

Lemma dropCollection_run name w :
  isInitialized (db w) = true →
  JsMap.has name (collectionData (db w)) = true →
  indexFilePath (db w) ∉ dirs (disk w) →
  JSLiteDB.dropCollection name w
  = (Returned true,
     add_event (collection_dropped name)
       (set_disk
          (written (indexFilePath (db w))
             (manifest (clock w)
                (JsMap.keys (JsMap.delete name (collectionFiles (db w)))))
             (match JsMap.get name (collectionFiles (db w)) with
              | Some filePath =>
                  if (filePath =? "")%string then disk w
                  else unlinked (disk w) filePath
              | None => disk w
              end))
          (upd_db
             (fun d =>
                upd_cache
                  (fun c =>
                     fold_left (fun c k => JsMap.delete k c)
                       (base.filter (fun cacheKey =>
                                  Path.startsWith cacheKey (name +:+ ":") = true)
                               (JsMap.keys c)) c)
                  (upd_collectionFiles (JsMap.delete name)
                     (upd_collectionData (JsMap.delete name) d))) w))).
Proof.
  intros Hinit Hhas Hindex.
  destruct w as [[fp ifp cf cd c ii mx mu] [fs ds] ck fid em].
  simpl in Hinit, Hhas, Hindex. subst.
  unfold JSLiteDB.dropCollection.
  erewrite bind_Returned; [|by apply ensureInitialized_ready].
  unfold bind at 1. unfold this at 1. norm. rewrite Hhas. cbn [negb].
  unfold bind at 1. unfold modify at 1.
  unfold bind at 1.
  destruct (JsMap.get name cf) as [filePath|].
  - destruct (filePath =? "")%string; cbn [negb].
    + unfold ret at 1. unfold bind at 1. unfold modify at 1.
      unfold bind at 1. unfold this at 1. norm.
      unfold bind at 1. rewrite forEach_cache_delete.
      unfold bind at 1. rewrite saveCollectionIndex_run by exact Hindex.
      unfold bind, emit, ret. norm. reflexivity.
    + rewrite unlinkQuietly_unlinked.
      unfold bind at 1. unfold modify at 1.
      unfold bind at 1. unfold this at 1. norm.
      unfold bind at 1. rewrite forEach_cache_delete.
      unfold bind at 1. rewrite saveCollectionIndex_run;
        [|norm; by rewrite dirs_unlinked].
      unfold bind, emit, ret. norm. reflexivity.
  - unfold ret at 1. unfold bind at 1. unfold modify at 1.
    unfold bind at 1. unfold this at 1. norm.
    unfold bind at 1. rewrite forEach_cache_delete.
    unfold bind at 1. rewrite saveCollectionIndex_run by exact Hindex.
    unfold bind, emit, ret. norm. reflexivity.
Qed.

(** X13.  [dropCollection(name)] on an initialised store: for a
    collection that is not in memory it returns false and touches nothing;
    otherwise it returns true, removes the collection from the data map and
    the file map, removes from the cache every key that starts with
    [name:] and no other, unlinks the collection's file and rewrites the
    manifest without the name. *)
Theorem dropCollection_removes name w :
  isInitialized (db w) = true →
  indexFilePath (db w) ∉ dirs (disk w) →
  (JsMap.has name (collectionData (db w)) = false →
   JSLiteDB.dropCollection name w = (Returned false, w))
  ∧ (JsMap.has name (collectionData (db w)) = true →
     ∃ w',
       JSLiteDB.dropCollection name w = (Returned true, w')
       ∧ JsMap.get name (collectionData (db w')) = None
       ∧ (∀ other, other ≠ name →
            JsMap.get other (collectionData (db w'))
            = JsMap.get other (collectionData (db w)))
       ∧ JsMap.get name (collectionFiles (db w')) = None
       ∧ (∀ key,
            JsMap.get key (cache (db w'))
            = if Path.startsWith key (name +:+ ":") then None
              else JsMap.get key (cache (db w)))
       ∧ files (disk w') !! indexFilePath (db w)
         = Some (manifest (clock w) (JsMap.keys (collectionFiles (db w'))))
       ∧ (JsMap.get name (collectionFiles (db w))
          = Some (JSLiteDB._getCollectionFilePath (db w) name) →
          JSLiteDB._getCollectionFilePath (db w) name ∉ dirs (disk w) →
          JSLiteDB._getCollectionFilePath (db w) name ≠ indexFilePath (db w) →
          files (disk w') !! JSLiteDB._getCollectionFilePath (db w) name = None)).
Proof.
  intros Hinit Hindex. split.
  - intros Hhas. unfold JSLiteDB.dropCollection.
    erewrite bind_Returned; [|by apply ensureInitialized_ready].
    unfold bind, this. by rewrite Hhas.
  - intros Hhas. eexists. split; [by apply dropCollection_run|].
    split_and!.
    + simpl. apply get_delete_eq.
    + intros other Hne. simpl. by apply get_delete_ne.
    + simpl. apply get_delete_eq.
    + intros key. simpl. rewrite get_fold_delete.
      destruct (Path.startsWith key (name +:+ ":")) eqn:Hprefix.
      * case_bool_decide as Hin; [done|].
        apply (proj2 (get_None_keys _ _)). intros Hkey. apply Hin.
        apply list_elem_of_filter. by split.
      * rewrite bool_decide_eq_false_2; [done|].
        intros Hin. apply list_elem_of_filter in Hin as [Hp _]. congruence.
    + simpl. by rewrite lookup_insert_eq.
    + intros Hfile Hpath Hne. simpl. rewrite Hfile.
      unfold JSLiteDB._getCollectionFilePath in *. rewrite join_nonempty.
      rewrite lookup_insert_ne by done.
      unfold unlinked. rewrite bool_decide_eq_false_2 by done.
      simpl. apply lookup_delete_eq.
Qed.

Lemma dropCollection_removes_witness :
  ∃ w',
    JSLiteDB.dropCollection "users" Sample.world = (Returned true, w')
    ∧ JsMap.get "users" (collectionData (db w')) = None
    ∧ files (disk w') !! "data/users.json" = None.
Proof.
  destruct (proj2 (dropCollection_removes "users" Sample.world eq_refl
                     ltac:(vm_compute; intros H; discriminate H)) eq_refl)
    as (w' & Hrun & Hdata & _ & _ & _ & _ & Hfile).
  exists w'. split_and!; [exact Hrun | exact Hdata |].
  apply Hfile.
  - reflexivity.
  - vm_compute. intros H. discriminate H.
  - discriminate.
Defined.

Lemma files_unlinked_keeps_None ps d q :
  files d !! q = None → files (fold_left unlinked ps d) !! q = None.
Proof.
  revert d. induction ps as [|p ps IH]; intros d Hq; simpl; [done|].
  apply IH. unfold unlinked. case_bool_decide; [done|]. simpl.
  destruct (decide (q = p)) as [->|Hne].
  - apply lookup_delete_eq.
  - by rewrite lookup_delete_ne.
Qed.

Lemma files_unlinked_gone ps d q :
  q ∈ ps → q ∉ dirs d → files (fold_left unlinked ps d) !! q = None.
Proof.
  revert d. induction ps as [|p ps IH]; intros d Hin Hdir; simpl.
  - by apply elem_of_nil in Hin.
  - destruct (decide (q = p)) as [->|Hne].
    + apply files_unlinked_keeps_None. unfold unlinked.
      rewrite bool_decide_eq_false_2 by done. simpl. apply lookup_delete_eq.
    + apply elem_of_cons in Hin as [?|Hin]; [done|].
      apply IH; [done|]. by rewrite dirs_unlinked.
Qed.

(** X14.  [clear()] on an initialised store returns true and empties the
    data map, the file map and the cache while the store stays initialised;
    every file of the file map and the manifest are unlinked, and every
    other file on the disk is left as it was. *)
Theorem clear_empties_store w :
  isInitialized (db w) = true →
  ∃ w',
    JSLiteDB.clear w = (Returned true, w')
    ∧ collectionData (db w') = []
    ∧ collectionFiles (db w') = []
    ∧ cache (db w') = []
    ∧ isInitialized (db w') = true
    ∧ (JSLiteDB.collections w').1 = Returned []
    ∧ (∀ p, p ∈ JsMap.values (collectionFiles (db w)) → p ∉ dirs (disk w) →
            files (disk w') !! p = None)
    ∧ (indexFilePath (db w) ∉ dirs (disk w) →
       files (disk w') !! indexFilePath (db w) = None)
    ∧ (∀ p, p ∉ JsMap.values (collectionFiles (db w)) →
            p ≠ indexFilePath (db w) →
            files (disk w') !! p = files (disk w) !! p).
Proof.
  intros Hinit. eexists. split; [by apply clear_run|].
  split_and!; try done.
  - unfold JSLiteDB.collections.
    erewrite bind_Returned; [|by apply ensureInitialized_ready]. done.
  - intros p Hin Hdir. simpl.
    destruct (decide (p = indexFilePath (db w))) as [->|Hne].
    + unfold unlinked at 1. rewrite dirs_unlinked_all.
      rewrite bool_decide_eq_false_2 by done. simpl. apply lookup_delete_eq.
    + rewrite files_unlinked by done. by apply files_unlinked_gone.
  - intros Hdir. simpl. unfold unlinked at 1. rewrite dirs_unlinked_all.
    rewrite bool_decide_eq_false_2 by done. simpl. apply lookup_delete_eq.
  - intros p Hnin Hne. simpl.
    rewrite files_unlinked by done. by apply files_unlinked_all.
Qed.

Lemma clear_empties_store_witness :
  ∃ w',
    JSLiteDB.clear Sample.world = (Returned true, w')
    ∧ collectionData (db w') = []
    ∧ files (disk w') !! "data/users.json" = None.
Proof.
  destruct (clear_empties_store Sample.world eq_refl)
    as (w' & Hrun & Hdata & _ & _ & _ & _ & Hfiles & _).
  exists w'. split_and!; [exact Hrun | exact Hdata |].
  apply Hfiles.
  - vm_compute. left.
  - vm_compute. intros H. discriminate H.
Defined.

(** X15.  [close()] never throws, not even when the manifest cannot be
    written: it returns, with the cache emptied and the store marked as
    uninitialised, while the collections stay in memory. *)
Theorem close_always_returns w :
  ∃ w',
    JSLiteDB.close w = (Returned tt, w')
    ∧ cache (db w') = []
    ∧ isInitialized (db w') = false
    ∧ collectionData (db w') = collectionData (db w)
    ∧ collectionFiles (db w') = collectionFiles (db w)
    ∧ (isInitialized (db w) = true →
       indexFilePath (db w) ∉ dirs (disk w) →
       files (disk w') !! indexFilePath (db w)
       = Some (manifest (clock w) (JsMap.keys (collectionFiles (db w)))))
    ∧ (indexFilePath (db w) ∈ dirs (disk w) → disk w' = disk w).
Proof.
  unfold JSLiteDB.close. unfold bind at 1. unfold this at 1.
  destruct (isInitialized (db w)) eqn:Hinit.
  - unfold bind at 1. unfold tryCatch.
    unfold JSLiteDB._saveCollectionIndex, bind at 1. unfold this at 1.
    unfold bind at 1. unfold Date_now at 1.
    unfold changeDisk, fs.writeFile.
    case_bool_decide as Hdir.
    + unfold ret at 1. eexists. split; [reflexivity|].
      split_and!; try done.
    + eexists. split; [reflexivity|].
      split_and!; try done.
      intros _ _. simpl. by rewrite lookup_insert_eq.
  - eexists. split; [reflexivity|]. split_and!; try done.
Qed.

Lemma close_always_returns_witness :
  let w := set_disk {| files := ∅; dirs := {[ "data"; "data/.index.json" ]} |}
             Sample.world in
  ∃ w',
    JSLiteDB.close w = (Returned tt, w')
    ∧ isInitialized (db w') = false
    ∧ disk w' = disk w.
Proof.
  intros w.
  destruct (close_always_returns w) as (w' & Hrun & _ & Hinit & _ & _ & _ & Hdisk).
  exists w'. split_and!; [exact Hrun | exact Hinit |].
  apply Hdisk. vm_compute. reflexivity.
Defined.

(* ===================================================================== *)
(** * Writes the disk refuses *)
(* ===================================================================== *)

(** X16.  When the collection file cannot be written, [insert] throws the
    error of the write, but the document has already been put into the
    collection and the cache and stays there: nothing is rolled back.  The
    disk and the event log are untouched, the mutex is released, and a retry
    of the same insert is refused as a duplicate. *)
Theorem insert_failed_write_keeps_document name id doc w entries :
  ready w →
  JsMap.get name (collectionData (db w)) = Some entries →
  JsMap.has (ToString id) entries = false →
  JSLiteDB._getCollectionFilePath (db w) name ∈ dirs (disk w) →
  ∃ w',
    Collection.insert name id (Some doc) w
    = (Thrown (EISDIR (JSLiteDB._getCollectionFilePath (db w) name)), w')
    ∧ JsMap.get name (collectionData (db w'))
      = Some (JsMap.set (ToString id) doc entries)
    ∧ JsMap.get (Collection.cacheKey name id) (cache (db w')) = Some doc
    ∧ disk w' = disk w
    ∧ emitted w' = emitted w
    ∧ ready w'
    ∧ Collection.insert name id (Some doc) w'
      = (Thrown (DocumentExists (ToString id) name), w').
Proof.
  intros [Hinit Hidle] Hget Hfresh Hpath.
  destruct w as [[fp ifp cf cd c ii mx [l q]] [fs ds] ck fid em].
  destruct Hidle as [Hl Hq]. simpl in Hinit, Hl, Hq, Hget, Hpath. subst.
  eexists. split.
  - unfold Collection.insert.
    erewrite bind_Returned; [|by apply ensureInitialized_ready].
    rewrite acquire_idle by done.
    unfold bind at 1. unfold ret at 1. cbn [fst snd].
    unfold bind at 1. unfold Collection.getOrCreate at 1.
    unfold bind at 1. unfold this at 1. norm. rewrite Hget. unfold ret at 1.
    rewrite Hfresh.
    unfold bind at 1. unfold modify at 1.
    unfold bind at 1. rewrite addToCache_run.
    unfold bind at 1. unfold JSLiteDB._saveCollection at 1.
    unfold bind at 1. unfold this at 1. norm. rewrite get_set_eq.
    unfold bind at 1. unfold changeDisk at 1, fs.writeFile at 1. norm.
    rewrite bool_decide_eq_true_2 by exact Hpath.
    reflexivity.
  - assert (Hin : JsMap.get name
                    (JsMap.set name (JsMap.set (ToString id) doc entries) cd)
                  = Some (JsMap.set (ToString id) doc entries))
      by apply get_set_eq.
    split_and!; try done.
    + norm. apply get_cacheAfterAdd.
    + apply insert_present_run with (entries := JsMap.set (ToString id) doc entries).
      * done.
      * exact Hin.
      * rewrite has_get. by rewrite get_set_eq.
Qed.

Lemma insert_failed_write_keeps_document_witness :
  let w := upd_db (upd_collectionData (fun _ => [("b", [])])) Sample.blockedWorld in
  ∃ w',
    Collection.insert "b" (JNum 7) (Some Sample.bob) w
    = (Thrown (EISDIR "data/b.json"), w')
    ∧ JsMap.get "b" (collectionData (db w')) = Some [("7", Sample.bob)]
    ∧ Collection.insert "b" (JNum 7) (Some Sample.bob) w'
      = (Thrown (DocumentExists "7" "b"), w').
Proof.
  intros w.
  destruct (insert_failed_write_keeps_document "b" (JNum 7) Sample.bob w [])
    as (w' & Hrun & Hdata & _ & _ & _ & _ & Hretry).
  - split; [reflexivity | by split].
  - reflexivity.
  - reflexivity.
  - vm_compute. set_solver.
  - exists w'. split_and!; [exact Hrun | exact Hdata | exact Hretry].
Defined.

(* ===================================================================== *)
(** * Collection files *)
(* ===================================================================== *)

(** X17.  [_saveCollection] followed by [_loadCollection] of the same
    collection returns a map with the same ID-to-body mapping and the same
    IDs (the iteration order can differ: integer-like IDs come first in a
    JSON object), and registers the collection and its file. *)
Theorem saveCollection_loadCollection_roundtrip name entries w :
  JsMap.get name (collectionData (db w)) = Some entries →
  JsMap.wf entries →
  JSLiteDB._getCollectionFilePath (db w) name ∉ dirs (disk w) →
  ∃ loaded w',
    (JSLiteDB._saveCollection name >>> JSLiteDB._loadCollection name) w
    = (Returned loaded, w')
    ∧ bodies loaded = bodies entries
    ∧ JsMap.keys loaded ≡ₚ JsMap.keys entries
    ∧ JsMap.get name (collectionData (db w')) = Some loaded
    ∧ JsMap.get name (collectionFiles (db w'))
      = Some (JSLiteDB._getCollectionFilePath (db w) name)
    ∧ files (disk w') !! JSLiteDB._getCollectionFilePath (db w) name
      = Some (JSON_stringify (JObj (JsObject.fromEntries entries))).
Proof.
  intros Hget Hwf Hpath.
  exists (JsMap.ofEntries (JsObject.fromEntries entries)). eexists. split.
  - erewrite bind_Returned; [|by apply saveCollection_run].
    unfold JSLiteDB._loadCollection.
    unfold bind at 1. unfold this at 1. unfold tryCatch.
    unfold bind at 1. unfold JSLiteDB.readDataMap at 1.
    unfold bind at 1. unfold onDisk at 1, fs.readFile at 1. norm.
    rewrite bool_decide_eq_false_2 by exact Hpath.
    rewrite lookup_insert_eq. unfold lift at 1, ret at 1.
    unfold bind at 1. unfold JSON_stringify, JSON_parse, lift at 1, ret at 1.
    unfold bind at 1. unfold Object_entries, lift at 1, ret at 1.
    unfold ret at 1. unfold bind at 1. unfold modify at 1.
    unfold bind at 1. unfold modify at 1. unfold ret. reflexivity.
  - split_and!.
    + by apply bodies_roundtrip.
    + unfold JsMap.keys. rewrite ofEntries_wf by by apply fromEntries_NoDup.
      by rewrite fromEntries_perm.
    + norm. apply get_set_eq.
    + norm. apply get_set_eq.
    + norm. by rewrite lookup_insert_eq.
Qed.

Lemma saveCollection_loadCollection_roundtrip_witness :
  ∃ loaded w',
    (JSLiteDB._saveCollection "people" >>> JSLiteDB._loadCollection "people")
      Sample.fiveWorld
    = (Returned loaded, w')
    ∧ bodies loaded = bodies Sample.five.
Proof.
  destruct (saveCollection_loadCollection_roundtrip "people" Sample.five
              Sample.fiveWorld)
    as (loaded & w' & Hrun & Hbodies & _).
  - reflexivity.
  - vm_compute. repeat constructor; intros H; inversion H; subst;
      repeat match goal with
             | H : _ ∈ _ |- _ => inversion H; clear H; subst
             end.
  - vm_compute. intros H. discriminate H.
  - exists loaded, w'. split; [exact Hrun | exact Hbodies].
Defined.

(* ===================================================================== *)
(** * Backups *)
(* ===================================================================== *)

(** X18.  On an initialised store [backup(path)] changes nothing but the
    backup file and the event log: the database object and every other file
    are as before.  When [path] is a directory it throws the wrapped error
    and leaves the whole world as it was. *)
Theorem backup_touches_only_backup_file backupPath w :
  isInitialized (db w) = true →
  (backupPath ∈ dirs (disk w) →
   JSLiteDB.backup backupPath w
   = (Thrown (Failure "Failed to backup data" (EISDIR backupPath)), w))
  ∧ (backupPath ∉ dirs (disk w) →
     ∃ w',
       JSLiteDB.backup backupPath w = (Returned tt, w')
       ∧ db w' = db w
       ∧ dirs (disk w') = dirs (disk w)
       ∧ files (disk w') !! backupPath
         = Some (JSON_stringify (backupDocument (clock w) (collectionData (db w))))
       ∧ (∀ p, p ≠ backupPath → files (disk w') !! p = files (disk w) !! p)
       ∧ emitted w' = emitted w ++ [backup_done backupPath]).
Proof.
  intros Hinit. split; intros Hpath.
  - unfold JSLiteDB.backup, tryCatch.
    erewrite bind_Returned; [|by apply ensureInitialized_ready].
    unfold bind at 1. unfold Date_now at 1.
    unfold bind at 1. unfold this at 1.
    unfold bind at 1. unfold changeDisk at 1, fs.writeFile at 1.
    rewrite bool_decide_eq_true_2 by exact Hpath. reflexivity.
  - eexists. split.
    + unfold JSLiteDB.backup, tryCatch.
      erewrite bind_Returned; [|by apply ensureInitialized_ready].
      unfold bind at 1. unfold Date_now at 1.
      unfold bind at 1. unfold this at 1.
      unfold bind at 1. rewrite writeFile_run by exact Hpath.
      unfold emit. reflexivity.
    + split_and!.
      * reflexivity.
      * reflexivity.
      * norm. by rewrite lookup_insert_eq.
      * intros p Hne. norm. by rewrite lookup_insert_ne.
      * reflexivity.
Qed.

Lemma backup_touches_only_backup_file_witness :
  JSLiteDB.backup "data" Sample.world
  = (Thrown (Failure "Failed to backup data" (EISDIR "data")), Sample.world)
  ∧ ∃ w', JSLiteDB.backup "backup.json" Sample.world = (Returned tt, w')
          ∧ db w' = db Sample.world.
Proof.
  destruct (backup_touches_only_backup_file "data" Sample.world eq_refl)
    as [Hdir _].
  destruct (backup_touches_only_backup_file "backup.json" Sample.world eq_refl)
    as [_ Hfile].
  split.
  - apply Hdir. vm_compute. set_solver.
  - destruct Hfile as (w' & Hrun & Hdb & _).
    + vm_compute. intros H. discriminate H.
    + exists w'. split; [exact Hrun | exact Hdb].
Defined.

(* ===================================================================== *)
(** * Counting *)
(* ===================================================================== *)

Lemma fold_sizes (cd : JsMap.t (JsMap.t json)) (total : Z) :
  fold_left (fun total collectionData => total + JsMap.size collectionData)
            (JsMap.values cd) total
  = total + foldr Z.add 0 (JsMap.size <$> JsMap.values cd).
Proof.
  unfold JsMap.values. revert total.
  induction cd as [|[n m] cd IH]; intros total; csimpl; [lia|].
  rewrite IH. lia.
Qed.

(** X19.  The store-wide [count()] is the sum, over the collections that
    [collections()] lists, of what [collection(name).count()] returns,
    provided no collection name is listed twice. *)
Theorem count_sums_collections w :
  isInitialized (db w) = true →
  JsMap.wf (collectionData (db w)) →
  ∃ names,
    (JSLiteDB.collections w).1 = Returned names
    ∧ (JSLiteDB.count w).1
      = Returned
          (foldr Z.add 0
             ((fun name =>
                 match (Collection.count name CountAll w).1 with
                 | Returned n => n
                 | _ => 0
                 end) <$> names))
    ∧ (JSLiteDB.count w).2 = w.
Proof.
  intros Hinit Hwf. exists (JsMap.keys (collectionData (db w))). split_and!.
  - unfold JSLiteDB.collections.
    erewrite bind_Returned; [|by apply ensureInitialized_ready]. done.
  - unfold JSLiteDB.count.
    erewrite bind_Returned; [|by apply ensureInitialized_ready].
    unfold bind, this, ret. cbn [fst]. f_equal.
    rewrite fold_sizes, Z.add_0_l. f_equal.
    assert (Hcount : ∀ name m,
      JsMap.get name (collectionData (db w)) = Some m →
      (Collection.count name CountAll w).1 = Returned (JsMap.size m)).
    { intros name m Hget. unfold Collection.count.
      erewrite bind_Returned; [|by apply ensureInitialized_ready].
      unfold bind, this. by rewrite Hget. }
    assert (Hall : ∀ entry, entry ∈ collectionData (db w) →
      (Collection.count entry.1 CountAll w).1 = Returned (JsMap.size entry.2)).
    { intros [n m] Hin. apply Hcount. rewrite get_bodies.
      by apply elem_of_list_to_map_1. }
    clear Hcount Hwf. unfold JsMap.keys, JsMap.values.
    induction (collectionData (db w)) as [|[n m] cd IH]; csimpl; [done|].
    pose proof (Hall (n, m) ltac:(left)) as Hn. simpl in Hn.
    rewrite Hn. rewrite IH; [done|].
    intros entry Hin. apply Hall. by right.
  - unfold JSLiteDB.count.
    erewrite bind_Returned; [|by apply ensureInitialized_ready]. done.
Qed.

Lemma count_sums_collections_witness :
  (JSLiteDB.count Sample.fiveWorld).1 = Returned 5
  ∧ (Collection.count "people" CountAll Sample.fiveWorld).1 = Returned 5.
Proof.
  destruct (count_sums_collections Sample.fiveWorld eq_refl)
    as (names & Hnames & Hcount & _).
  - vm_compute. repeat constructor. intros H. inversion H.
  - split; [|reflexivity]. rewrite Hcount.
    injection Hnames as <-. reflexivity.
Defined.

(* ===================================================================== *)
(** * Opening a store *)
(* ===================================================================== *)

Lemma readDataMap_Some p w dataMap :
  fileData (disk w) p = Some dataMap →
  JSLiteDB.readDataMap p w = (Returned dataMap, w).
Proof.
  unfold fileData, JSLiteDB.readDataMap, bind, onDisk, lift, ret, throw.
  destruct (fs.readFile p (disk w)) as [e|content]; [done|].
  destruct (JSON_parse content) as [e|value]; [done|].
  destruct (Object_entries value) as [e|entries]; [done|].
  by intros [= <-].
Qed.

Lemma readDataMap_None p w :
  fileData (disk w) p = None →
  ∃ error, JSLiteDB.readDataMap p w = (Thrown error, w).
Proof.
  unfold fileData, JSLiteDB.readDataMap, bind, onDisk, lift, ret, throw.
  destruct (fs.readFile p (disk w)) as [e|content]; [by eexists|].
  destruct (JSON_parse content) as [e|value]; [by eexists|].
  destruct (Object_entries value) as [e|entries]; [by eexists|done].
Qed.

Lemma delete_appended {V : Type} k (v : V) m :
  k ∉ JsMap.keys m → JsMap.delete k (m ++ [(k, v)]) = m.
Proof.
  intros Hnin. unfold JsMap.delete. rewrite filter_app.
  rewrite filter_cons, filter_nil. simpl.
  rewrite decide_False by (intros Hne; by apply Hne).
  rewrite app_nil_r.
  induction m as [|[k' v'] m IH]; [done|].
  unfold JsMap.keys in Hnin. rewrite fmap_cons in Hnin.
  apply not_elem_of_cons in Hnin as [Hne Hnin].
  rewrite filter_cons. simpl. rewrite decide_True by done.
  f_equal. by apply IH.
Qed.

Lemma keys_loadedData d folder names :
  ∀ n, n ∈ JsMap.keys (loadedData d folder names) → n ∈ names.
Proof.
  intros n Hin. unfold JsMap.keys, loadedData in Hin.
  apply list_elem_of_fmap in Hin as ([n' m] & -> & Hin).
  apply list_elem_of_omap in Hin as (n0 & Hn0 & Hsome).
  destruct (fileData d _); simplify_eq/=. done.
Qed.

Lemma keys_loadedFiles d folder names :
  JsMap.keys (loadedFiles d folder names) = JsMap.keys (loadedData d folder names).
Proof.
  unfold JsMap.keys, loadedFiles, loadedData.
  induction names as [|n names IH]; [done|]. csimpl.
  destruct (fileData d _); csimpl; [by rewrite IH | exact IH].
Qed.

(** The loop of [_loadCollectionIndex] over names that are new to the
    store. *)
Lemma loadCollectionIndex_loop d0 names :
  NoDup names →
  ∀ w,
    (∀ n, n ∈ names →
          (n ∉ JsMap.keys (collectionFiles (db w)))
          ∧ (n ∉ JsMap.keys (collectionData (db w)))) →
    ∃ w',
      forEach (JStr <$> names)
        (fun entry =>
           let collectionName := ToString entry in
           let filePath := JSLiteDB._getCollectionFilePath d0 collectionName in
           modify (upd_collectionFiles (JsMap.set collectionName filePath)) >>>
           tryCatch
             (let* dataMap := JSLiteDB.readDataMap filePath in
              modify (upd_collectionData (JsMap.set collectionName dataMap)))
             (fun _ => modify (upd_collectionFiles (JsMap.delete collectionName))))
        w
      = (Returned tt, w')
      ∧ collectionData (db w')
        = collectionData (db w) ++ loadedData (disk w) (folderPath d0) names
      ∧ collectionFiles (db w')
        = collectionFiles (db w) ++ loadedFiles (disk w) (folderPath d0) names
      ∧ disk w' = disk w
      ∧ isInitialized (db w') = isInitialized (db w)
      ∧ indexFilePath (db w') = indexFilePath (db w)
      ∧ folderPath (db w') = folderPath (db w)
      ∧ cache (db w') = cache (db w)
      ∧ writeMutex (db w') = writeMutex (db w)
      ∧ emitted w' = emitted w.
Proof.
  induction 1 as [|n names Hn Hnd IH]; intros w Hfresh.
  - exists w. unfold loadedData, loadedFiles. csimpl.
    rewrite !app_nil_r. by split_and!.
  - destruct (Hfresh n ltac:(left)) as [Hcf Hcd].
    rewrite fmap_cons. cbn [forEach ToString].
    unfold bind at 1. unfold bind at 1. unfold modify at 1.
    unfold tryCatch at 1.
    unfold loadedData, loadedFiles. csimpl.
    fold (loadedData (disk w) (folderPath d0) names).
    fold (loadedFiles (disk w) (folderPath d0) names).
    unfold JSLiteDB._getCollectionFilePath at 1 2.
    destruct (fileData (disk w) (Path.join (folderPath d0) (n +:+ ".json")))
      as [dataMap|] eqn:Hdata.
    + unfold bind at 1.
      erewrite readDataMap_Some; [|exact Hdata].
      unfold modify at 1.
      match goal with
      | |- ∃ w', forEach _ _ ?w1 = _ ∧ _ => destruct (IH w1) as (w' & Hrun & H)
      end.
      { intros n' Hin'. norm.
        rewrite !set_fresh by done.
        destruct (Hfresh n' ltac:(by right)) as [Hcf' Hcd'].
        unfold JsMap.keys in *. rewrite !fmap_app. csimpl.
        split; intros Hin; apply elem_of_app in Hin as [Hin|Hin]; try done;
          apply list_elem_of_singleton in Hin as ->; done. }
      exists w'. split; [exact Hrun|].
      destruct H as (Hd & Hf & Hdisk & Hi & Hix & Hfp & Hc & Hm & He).
      norm. rewrite Hd, Hf. rewrite !set_fresh by done.
      rewrite <- !app_assoc. by split_and!.
    + destruct (readDataMap_None (Path.join (folderPath d0) (n +:+ ".json"))
                  (upd_db (upd_collectionFiles
                     (JsMap.set n (Path.join (folderPath d0) (n +:+ ".json")))) w)
                  Hdata) as [error Herr].
      unfold bind at 1. rewrite Herr.
      unfold modify at 1.
      match goal with
      | |- ∃ w', forEach _ _ ?w1 = _ ∧ _ => destruct (IH w1) as (w' & Hrun & H)
      end.
      { intros n' Hin'. norm.
        rewrite set_fresh by done. rewrite delete_appended by done.
        apply Hfresh. by right. }
      exists w'. split; [exact Hrun|].
      destruct H as (Hd & Hf & Hdisk & Hi & Hix & Hfp & Hc & Hm & He).
      norm. rewrite Hd, Hf.
      rewrite set_fresh by done. rewrite delete_appended by done.
      by split_and!.
Qed.

Lemma ensureFolder_existing w :
  folderPath (db w) ∈ dirs (disk w) → JSLiteDB._ensureFolder w = (Returned tt, w).
Proof.
  intros Hdir. unfold JSLiteDB._ensureFolder, bind, this, tryCatch, changeDisk,
    fs.mkdir.
  destruct (files (disk w) !! folderPath (db w)); [done|].
  destruct w as [d [fs ds] ck fid em]. simpl in *.
  unfold set_disk. simpl. do 3 f_equal.
  apply subseteq_union_1_L. by apply singleton_subseteq_l.
Qed.

(** [init()] on an empty database object whose folder holds a manifest. *)
Lemma init_from_manifest w now names :
  isInitialized (db w) = false →
  collectionData (db w) = [] →
  collectionFiles (db w) = [] →
  folderPath (db w) ∈ dirs (disk w) →
  indexFilePath (db w) ∉ dirs (disk w) →
  files (disk w) !! indexFilePath (db w) = Some (manifest now names) →
  NoDup names →
  ∃ w',
    JSLiteDB.init w = (Returned tt, w')
    ∧ collectionData (db w') = loadedData (disk w) (folderPath (db w)) names
    ∧ collectionFiles (db w') = loadedFiles (disk w) (folderPath (db w)) names
    ∧ isInitialized (db w') = true
    ∧ disk w' = disk w
    ∧ emitted w' = emitted w.
Proof.
  intros Hinit Hcd Hcf Hfolder Hindex Hfile Hnd.
  destruct (loadCollectionIndex_loop (db w) names Hnd w) as (w1 & Hloop & H).
  { intros n _. rewrite Hcd, Hcf. split; apply not_elem_of_nil. }
  destruct H as (Hd & Hf & Hdisk & Hi & Hix & Hfp & Hc & Hm & He).
  rewrite Hcd in Hd. rewrite Hcf in Hf. simpl in Hd, Hf.
  exists (upd_db (set_isInitialized true) w1). split.
  - unfold JSLiteDB.init, JSLiteDB._ensureInitialized.
    unfold bind at 1. unfold this at 1. rewrite Hinit.
    unfold bind at 1. rewrite ensureFolder_existing by exact Hfolder.
    unfold bind at 1. unfold tryCatch at 1.
    unfold JSLiteDB._loadCollectionIndex at 1.
    unfold bind at 1. unfold this at 1.
    unfold bind at 1. unfold onDisk at 1, fs.readFile at 1.
    rewrite bool_decide_eq_false_2 by exact Hindex. rewrite Hfile.
    unfold lift at 1, ret at 1.
    unfold bind at 1. unfold manifest, JSON_stringify, JSON_parse, lift at 1, ret at 1.
    unfold bind at 1.
    change (getProperty _ "collections") with
      (inr (Some (JArr (JStr <$> names))) : Error + option json).
    unfold lift at 1, ret at 1.
    unfold bind at 1. unfold iterate, lift at 1, ret at 1.
    cbv zeta in Hloop. rewrite Hloop. reflexivity.
  - by split_and!.
Qed.

(** X20.  Opening a store whose folder holds a manifest: [init()] loads,
    in the order of the manifest, every listed collection whose file can
    be read, parsed and enumerated, skips the others without failing, and
    leaves the disk as it was. *)
Theorem init_loads_manifest w now names :
  isInitialized (db w) = false →
  collectionData (db w) = [] →
  collectionFiles (db w) = [] →
  folderPath (db w) ∈ dirs (disk w) →
  indexFilePath (db w) ∉ dirs (disk w) →
  files (disk w) !! indexFilePath (db w) = Some (manifest now names) →
  NoDup names →
  ∃ w',
    JSLiteDB.init w = (Returned tt, w')
    ∧ collectionData (db w') = loadedData (disk w) (folderPath (db w)) names
    ∧ collectionFiles (db w') = loadedFiles (disk w) (folderPath (db w)) names
    ∧ isInitialized (db w') = true
    ∧ disk w' = disk w
    ∧ emitted w' = emitted w.
Proof. apply init_from_manifest. Qed.

Lemma init_loads_manifest_witness :
  let w := {| db := JSLiteDB.new "data" None;
              disk := disk Sample.world;
              clock := 1700000000002;
              freshId := "lozq3x1k8f2a9bd";
              emitted := [] |} in
  ∃ w',
    JSLiteDB.init w = (Returned tt, w')
    ∧ collectionData (db w') = [("users", [("1", Sample.ann)])]
    ∧ collectionFiles (db w') = [("users", "data/users.json")].
Proof.
  intros w.
  destruct (init_loads_manifest w 1700000000000 ["users"])
    as (w' & Hrun & Hdata & Hfiles & _).
  - reflexivity.
  - reflexivity.
  - reflexivity.
  - vm_compute. reflexivity.
  - vm_compute. intros H. discriminate H.
  - reflexivity.
  - repeat constructor. intros H. inversion H.
  - exists w'. split_and!; [exact Hrun | by rewrite Hdata | by rewrite Hfiles].
Defined.

(* ===================================================================== *)
(** * Saving a store and opening it again *)
(* ===================================================================== *)

(** The loop of [save] over collection names that have files of their
    own, on a disk that accepts the writes. *)
Lemma save_loop names :
  ∀ w,
    (∀ n, n ∈ names → JSLiteDB._getCollectionFilePath (db w) n ∉ dirs (disk w)) →
    (∀ n n', n ∈ names → n' ∈ names →
             JSLiteDB._getCollectionFilePath (db w) n
             = JSLiteDB._getCollectionFilePath (db w) n' →
             n = n') →
    ∃ w',
      forEach names JSLiteDB._saveCollection w = (Returned tt, w')
      ∧ collectionData (db w') = collectionData (db w)
      ∧ dirs (disk w') = dirs (disk w)
      ∧ folderPath (db w') = folderPath (db w)
      ∧ indexFilePath (db w') = indexFilePath (db w)
      ∧ isInitialized (db w') = isInitialized (db w)
      ∧ cache (db w') = cache (db w)
      ∧ clock w' = clock w
      ∧ emitted w' = emitted w
      ∧ (JsMap.wf (collectionFiles (db w)) → JsMap.wf (collectionFiles (db w')))
      ∧ (∀ n entries,
           n ∈ names → JsMap.get n (collectionData (db w)) = Some entries →
           files (disk w') !! JSLiteDB._getCollectionFilePath (db w) n
           = Some (JSON_stringify (JObj (JsObject.fromEntries entries)))
           ∧ JsMap.get n (collectionFiles (db w'))
             = Some (JSLiteDB._getCollectionFilePath (db w) n))
      ∧ (∀ p, (∀ n, n ∈ names → p ≠ JSLiteDB._getCollectionFilePath (db w) n) →
              files (disk w') !! p = files (disk w) !! p)
      ∧ (∀ n, n ∉ names ∨ JsMap.get n (collectionData (db w)) = None →
              JsMap.get n (collectionFiles (db w'))
              = JsMap.get n (collectionFiles (db w))).
Proof.
  induction names as [|n names IH]; intros w Hdirs Hinj.
  - exists w. split_and!; try done.
    intros n entries Hin. by apply elem_of_nil in Hin.
  - cbn [forEach]. unfold bind at 1.
    destruct (JsMap.get n (collectionData (db w))) as [entries|] eqn:Hget.
    + erewrite saveCollection_run;
        [|exact Hget | apply Hdirs; left].
      match goal with
      | |- ∃ w', forEach _ _ ?w1 = _ ∧ _ => destruct (IH w1) as (w' & Hrun & H)
      end.
      { intros n' Hin'. norm. apply Hdirs. by right. }
      { intros a b Ha Hb. norm. apply Hinj; by right. }
      destruct H as (Hd & Hds & Hfp & Hix & Hi & Hc & Hck & He & Hwf' & HA & HB & HC).
      exists w'. split; [exact Hrun|]. norm.
      split_and!; try done.
      * intros Hwf. apply Hwf'. by apply wf_set.
      * intros n0 entries0 Hin Hget0.
        destruct (decide (n0 ∈ names)) as [Hn0|Hn0].
        { apply (HA n0 entries0 Hn0). exact Hget0. }
        apply elem_of_cons in Hin as [->|Hin]; [|done].
        assert (entries0 = entries) as -> by congruence.
        split.
        -- rewrite HB.
           ++ norm. by rewrite lookup_insert_eq.
           ++ intros n' Hin' Heq. apply Hinj in Heq; [by subst | left | by right].
        -- rewrite HC by by left. norm. apply get_set_eq.
      * intros p Hp. rewrite HB.
        -- norm. rewrite lookup_insert_ne; [done|].
           intros Heq. apply (Hp n); [left | done].
        -- intros n' Hin'. apply (Hp n'). by right.
      * intros n0 Hn0. rewrite HC.
        -- norm. apply get_set_ne. intros ->.
           destruct Hn0 as [Hn0|Hn0]; [apply Hn0; left | congruence].
        -- destruct Hn0 as [Hn0|Hn0]; [left | by right].
           intros Hin. apply Hn0. by right.
    + unfold JSLiteDB._saveCollection at 1. unfold bind at 1, this at 1.
      rewrite Hget. unfold ret at 1.
      destruct (IH w) as (w' & Hrun & H).
      { intros n' Hin'. apply Hdirs. by right. }
      { intros a b Ha Hb. apply Hinj; by right. }
      destruct H as (Hd & Hds & Hfp & Hix & Hi & Hc & Hck & He & Hwf' & HA & HB & HC).
      exists w'. split; [exact Hrun|].
      split_and!; try done.
      * intros n0 entries0 Hin Hget0.
        apply elem_of_cons in Hin as [->|Hin]; [congruence|].
        by apply HA.
      * intros p Hp. apply HB. intros n' Hin'. apply Hp. by right.
      * intros n0 Hn0. apply HC.
        destruct Hn0 as [Hn0|Hn0]; [left | by right].
        intros Hin. apply Hn0. by right.
Qed.

Lemma keys_same_get {V : Type} n (m m' : JsMap.t V) :
  JsMap.get n m = JsMap.get n m' → n ∈ JsMap.keys m ↔ n ∈ JsMap.keys m'.
Proof.
  intros Heq.
  destruct (decide (n ∈ JsMap.keys m)) as [Hin|Hnin];
    destruct (decide (n ∈ JsMap.keys m')) as [Hin'|Hnin']; try done.
  - apply get_None_keys in Hnin'. rewrite <- Heq in Hnin'.
    by apply get_None_keys in Hnin'.
  - apply get_None_keys in Hnin. rewrite Heq in Hnin.
    by apply get_None_keys in Hnin.
Qed.

(** [save()] on a disk that accepts the writes. *)
Lemma save_run w :
  isInitialized (db w) = true →
  (∀ n, n ∈ JsMap.keys (collectionData (db w)) →
        (JSLiteDB._getCollectionFilePath (db w) n ∉ dirs (disk w))
        ∧ JSLiteDB._getCollectionFilePath (db w) n ≠ indexFilePath (db w)) →
  (∀ n n', n ∈ JsMap.keys (collectionData (db w)) →
           n' ∈ JsMap.keys (collectionData (db w)) →
           JSLiteDB._getCollectionFilePath (db w) n
           = JSLiteDB._getCollectionFilePath (db w) n' →
           n = n') →
  indexFilePath (db w) ∉ dirs (disk w) →
  ∃ w',
    JSLiteDB.save w = (Returned tt, w')
    ∧ collectionData (db w') = collectionData (db w)
    ∧ cache (db w') = cache (db w)
    ∧ dirs (disk w') = dirs (disk w)
    ∧ emitted w' = emitted w
    ∧ (∀ n entries,
         JsMap.get n (collectionData (db w)) = Some entries →
         files (disk w') !! JSLiteDB._getCollectionFilePath (db w) n
         = Some (JSON_stringify (JObj (JsObject.fromEntries entries)))
         ∧ JsMap.get n (collectionFiles (db w'))
           = Some (JSLiteDB._getCollectionFilePath (db w) n))
    ∧ files (disk w') !! indexFilePath (db w)
      = Some (manifest (clock w) (JsMap.keys (collectionFiles (db w'))))
    ∧ (∀ n, n ∈ JsMap.keys (collectionFiles (db w'))
            ↔ n ∈ JsMap.keys (collectionFiles (db w))
              ∨ n ∈ JsMap.keys (collectionData (db w)))
    ∧ (JsMap.wf (collectionFiles (db w)) → JsMap.wf (collectionFiles (db w')))
    ∧ (∀ p, p ≠ indexFilePath (db w) →
            (∀ n, n ∈ JsMap.keys (collectionData (db w)) →
                  p ≠ JSLiteDB._getCollectionFilePath (db w) n) →
            files (disk w') !! p = files (disk w) !! p).
Proof.
  intros Hinit Hpaths Hinj Hindex.
  destruct (save_loop (JsMap.keys (collectionData (db w))) w) as (w1 & Hloop & H).
  { intros n Hin. by apply Hpaths. }
  { exact Hinj. }
  destruct H as (Hd & Hds & Hfp & Hix & Hi & Hc & Hck & He & Hwf' & HA & HB & HC).
  eexists. split.
  - unfold JSLiteDB.save.
    erewrite bind_Returned; [|by apply ensureInitialized_ready].
    unfold bind at 1. unfold this at 1.
    unfold bind at 1. rewrite Hloop.
    apply saveCollectionIndex_run. by rewrite Hix, Hds.
  - norm. rewrite Hix, Hck.
    assert (Hkeys : ∀ n entries,
              JsMap.get n (collectionData (db w)) = Some entries →
              n ∈ JsMap.keys (collectionData (db w)))
      by (intros n entries; apply get_Some_keys).
    split_and!; try done.
    + intros n entries Hget.
      destruct (HA n entries (Hkeys _ _ Hget) Hget) as [Hfile Hcf].
      split; [|exact Hcf].
      rewrite lookup_insert_ne; [exact Hfile|].
      intros Heq. by apply (proj2 (Hpaths n (Hkeys _ _ Hget))).
    + by rewrite lookup_insert_eq.
    + intros n.
      destruct (JsMap.get n (collectionData (db w))) as [entries|] eqn:Hget.
      * destruct (HA n entries (Hkeys _ _ Hget) Hget) as [_ Hcf].
        split; [intros _; right; by eapply Hkeys | intros _; by eapply get_Some_keys].
      * rewrite (keys_same_get _ _ _ (HC n (or_intror Hget))).
        apply get_None_keys in Hget. split; [by left | by intros [?|?]].
    + intros p Hne Hp. rewrite lookup_insert_ne by done. by apply HB.
Qed.

(** X21.  [save()] on an initialised store whose disk accepts the writes
    and where the collections in memory have files of their own, no two
    names sharing a file and none using the manifest as its file:
    every collection in memory then has its file, holding its documents,
    and an entry in the file map; the manifest lists exactly the names of
    the file map, which are the former ones and the collections in memory;
    memory and every other file are as before. *)
Theorem save_writes_every_collection w :
  isInitialized (db w) = true →
  (∀ n, n ∈ JsMap.keys (collectionData (db w)) →
        (JSLiteDB._getCollectionFilePath (db w) n ∉ dirs (disk w))
        ∧ JSLiteDB._getCollectionFilePath (db w) n ≠ indexFilePath (db w)) →
  (∀ n n', n ∈ JsMap.keys (collectionData (db w)) →
           n' ∈ JsMap.keys (collectionData (db w)) →
           JSLiteDB._getCollectionFilePath (db w) n
           = JSLiteDB._getCollectionFilePath (db w) n' →
           n = n') →
  indexFilePath (db w) ∉ dirs (disk w) →
  ∃ w',
    JSLiteDB.save w = (Returned tt, w')
    ∧ collectionData (db w') = collectionData (db w)
    ∧ cache (db w') = cache (db w)
    ∧ dirs (disk w') = dirs (disk w)
    ∧ emitted w' = emitted w
    ∧ (∀ n entries,
         JsMap.get n (collectionData (db w)) = Some entries →
         files (disk w') !! JSLiteDB._getCollectionFilePath (db w) n
         = Some (JSON_stringify (JObj (JsObject.fromEntries entries)))
         ∧ JsMap.get n (collectionFiles (db w'))
           = Some (JSLiteDB._getCollectionFilePath (db w) n))
    ∧ files (disk w') !! indexFilePath (db w)
      = Some (manifest (clock w) (JsMap.keys (collectionFiles (db w'))))
    ∧ (∀ n, n ∈ JsMap.keys (collectionFiles (db w'))
            ↔ n ∈ JsMap.keys (collectionFiles (db w))
              ∨ n ∈ JsMap.keys (collectionData (db w)))
    ∧ (JsMap.wf (collectionFiles (db w)) → JsMap.wf (collectionFiles (db w')))
    ∧ (∀ p, p ≠ indexFilePath (db w) →
            (∀ n, n ∈ JsMap.keys (collectionData (db w)) →
                  p ≠ JSLiteDB._getCollectionFilePath (db w) n) →
            files (disk w') !! p = files (disk w) !! p).
Proof. apply save_run. Qed.

Lemma save_writes_every_collection_witness :
  let w := upd_db (upd_collectionData
                     (fun _ => [("users", [("1", Sample.ann)]);
                                ("people", Sample.five)]))
             Sample.world in
  ∃ w',
    JSLiteDB.save w = (Returned tt, w')
    ∧ files (disk w') !! "data/people.json"
      = Some (JSON_stringify (JObj (JsObject.fromEntries Sample.five)))
    ∧ files (disk w') !! "data/users.json"
      = Some (JSON_stringify (JObj (JsObject.fromEntries [("1", Sample.ann)])))
    ∧ files (disk w') !! "notes.txt" = files (disk w) !! "notes.txt".
Proof.
  intros w.
  assert (Hnames : ∀ n, n ∈ JsMap.keys (collectionData (db w)) →
                        n = "users"%string ∨ n = "people"%string).
  { intros n Hin. vm_compute in Hin.
    apply elem_of_cons in Hin as [->|Hin]; [by left|].
    apply list_elem_of_singleton in Hin as ->. by right. }
  destruct (save_writes_every_collection w)
    as (w' & Hrun & _ & _ & _ & _ & Hfiles & _ & _ & _ & Hother).
  - reflexivity.
  - intros n Hin.
    destruct (Hnames n Hin) as [->| ->];
      (split; [vm_compute; intros H; discriminate H | discriminate]).
  - intros n n' Hin Hin' Heq.
    destruct (Hnames n Hin) as [->| ->], (Hnames n' Hin') as [->| ->];
      try done; vm_compute in Heq; discriminate Heq.
  - vm_compute. intros H. discriminate H.
  - exists w'. split_and!.
    + exact Hrun.
    + apply (Hfiles "people" Sample.five). reflexivity.
    + apply (Hfiles "users" [("1", Sample.ann)]). reflexivity.
    + apply Hother; [discriminate|].
      intros n Hin. destruct (Hnames n Hin) as [->| ->]; discriminate.
Defined.

Lemma get_loadedData d folder names n :
  JsMap.get n (loadedData d folder names)
  = if decide (n ∈ names) then fileData d (Path.join folder (n +:+ ".json"))
    else None.
Proof.
  unfold loadedData. induction names as [|n' names IH].
  - by rewrite decide_False by apply not_elem_of_nil.
  - csimpl. destruct (decide (n = n')) as [->|Hne].
    + rewrite decide_True by left.
      destruct (fileData d (Path.join folder (n' +:+ ".json"))) as [m|] eqn:Hm;
        csimpl.
      * by rewrite String.eqb_refl.
      * rewrite IH. case_decide; [done|done].
    + assert (n ∈ n' :: names ↔ n ∈ names) as Hiff.
      { rewrite elem_of_cons. split; [by intros [?|?] | by right]. }
      destruct (fileData d (Path.join folder (n' +:+ ".json"))) as [m|]; csimpl.
      * destruct (String.eqb_spec n n'); [done|]. rewrite IH.
        apply decide_ext. by symmetry.
      * rewrite IH. apply decide_ext. by symmetry.
Qed.

Lemma store_lookup cd n : store cd !! n = bodies <$> JsMap.get n cd.
Proof.
  unfold store. rewrite list_to_map_fmap, lookup_fmap. by rewrite get_bodies.
Qed.

Lemma loadedData_all d folder names :
  (∀ n, n ∈ names → is_Some (fileData d (Path.join folder (n +:+ ".json")))) →
  JsMap.keys (loadedData d folder names) = names.
Proof.
  unfold JsMap.keys, loadedData. induction names as [|n names IH]; intros Hall;
    csimpl; [done|].
  destruct (Hall n ltac:(left)) as [m ->]. csimpl. f_equal.
  apply IH. intros n' Hin. apply Hall. by right.
Qed.

(** X22.  What [save()] writes is what a new [JSLiteDB] object on the same
    folder loads: after [save()], a store opened on the resulting disk holds
    the same collections with the same documents.  The file map must list no
    collection that memory lacks, and the collections in memory must have
    files of their own: no two names may share a file (as [b] and [./b]
    do), and none may have the manifest as its file. *)
Theorem save_then_reopen w maxItems now ident :
  isInitialized (db w) = true →
  wellFormed (db w) →
  JsMap.wf (collectionFiles (db w)) →
  (∀ n, n ∈ JsMap.keys (collectionFiles (db w)) →
        n ∈ JsMap.keys (collectionData (db w))) →
  indexFilePath (db w) = Path.join (folderPath (db w)) ".index.json" →
  (∀ n, n ∈ JsMap.keys (collectionData (db w)) →
        (JSLiteDB._getCollectionFilePath (db w) n ∉ dirs (disk w))
        ∧ JSLiteDB._getCollectionFilePath (db w) n ≠ indexFilePath (db w)) →
  (∀ n n', n ∈ JsMap.keys (collectionData (db w)) →
           n' ∈ JsMap.keys (collectionData (db w)) →
           JSLiteDB._getCollectionFilePath (db w) n
           = JSLiteDB._getCollectionFilePath (db w) n' →
           n = n') →
  indexFilePath (db w) ∉ dirs (disk w) →
  folderPath (db w) ∈ dirs (disk w) →
  ∃ w1 w2,
    JSLiteDB.save w = (Returned tt, w1)
    ∧ JSLiteDB.init {| db := JSLiteDB.new (folderPath (db w)) maxItems;
                       disk := disk w1;
                       clock := now;
                       freshId := ident;
                       emitted := [] |}
      = (Returned tt, w2)
    ∧ store (collectionData (db w2)) = store (collectionData (db w))
    ∧ JsMap.keys (collectionData (db w2)) ≡ₚ JsMap.keys (collectionData (db w)).
Proof.
  intros Hinit [Hwf Hinner] Hwfcf Hsub Hix Hpaths Hinj Hindex Hfolder.
  destruct (save_run w Hinit) as (w1 & Hsave & H).
  { exact Hpaths. }
  { exact Hinj. }
  { exact Hindex. }
  destruct H as (Hd & Hc & Hds & He & Hfiles & Hmanifest & Hkeys & Hwf1 & Hother).
  set (names := JsMap.keys (collectionFiles (db w1))) in *.
  assert (Hnames : ∀ n, n ∈ names ↔ n ∈ JsMap.keys (collectionData (db w))).
  { intros n. rewrite Hkeys. split; [intros [?|?]; auto | by right]. }
  assert (Hload : ∀ n entries,
            JsMap.get n (collectionData (db w)) = Some entries →
            fileData (disk w1) (Path.join (folderPath (db w)) (n +:+ ".json"))
            = Some (JsMap.ofEntries (JsObject.fromEntries entries))).
  { intros n entries Hget. destruct (Hfiles n entries Hget) as [Hfile _].
    unfold fileData, fs.readFile.
    rewrite bool_decide_eq_false_2.
    - unfold JSLiteDB._getCollectionFilePath in Hfile. by rewrite Hfile.
    - rewrite Hds. apply Hpaths. by eapply get_Some_keys. }
  destruct (init_from_manifest
              {| db := JSLiteDB.new (folderPath (db w)) maxItems;
                 disk := disk w1; clock := now; freshId := ident; emitted := [] |}
              (clock w) names)
    as (w2 & Hopen & Hdata & _).
  - reflexivity.
  - reflexivity.
  - reflexivity.
  - simpl. by rewrite Hds.
  - simpl. rewrite Hds, <- Hix. exact Hindex.
  - simpl. rewrite <- Hix. exact Hmanifest.
  - by apply Hwf1.
  - simpl in Hdata. exists w1, w2. split_and!; [exact Hsave | exact Hopen | |].
    + apply map_eq. intros n. rewrite !store_lookup, Hdata, get_loadedData.
      destruct (JsMap.get n (collectionData (db w))) as [entries|] eqn:Hget.
      * rewrite decide_True by (apply Hnames; by eapply get_Some_keys).
        rewrite (Hload n entries Hget). simpl. f_equal.
        apply bodies_roundtrip.
        rewrite Forall_forall in Hinner.
        apply (Hinner (n, entries)).
        apply elem_of_list_to_map_2. by rewrite <- get_bodies.
      * rewrite decide_False; [done|].
        rewrite Hnames. by apply get_None_keys.
    + rewrite Hdata, loadedData_all.
      * apply NoDup_Permutation; [by apply Hwf1 | exact Hwf | exact Hnames].
      * intros n Hin. apply Hnames in Hin.
        destruct (JsMap.get n (collectionData (db w))) as [entries|] eqn:Hget.
        -- rewrite (Hload n entries Hget). by eexists.
        -- by apply get_None_keys in Hget.
Qed.

Lemma save_then_reopen_witness :
  let w := upd_db (upd_collectionData
                     (fun _ => [("users", [("1", Sample.ann)]);
                                ("people", Sample.five)]))
             Sample.world in
  ∃ w1 w2,
    JSLiteDB.save w = (Returned tt, w1)
    ∧ JSLiteDB.init {| db := JSLiteDB.new "data" None;
                       disk := disk w1;
                       clock := 1700000000002;
                       freshId := "lozq3x1k8f2a9bd";
                       emitted := [] |}
      = (Returned tt, w2)
    ∧ store (collectionData (db w2)) = store (collectionData (db w)).
Proof.
  intros w.
  assert (Hnames : ∀ n, n ∈ JsMap.keys (collectionData (db w)) →
                        n = "users"%string ∨ n = "people"%string).
  { intros n Hin. vm_compute in Hin.
    apply elem_of_cons in Hin as [->|Hin]; [by left|].
    apply list_elem_of_singleton in Hin as ->. by right. }
  assert (Hnodup : ∀ l : list string,
            l = ["a"; "b"; "c"; "d"; "e"]%string ∨ l = ["1"]%string
            ∨ l = ["users"; "people"]%string ∨ l = ["users"]%string → NoDup l).
  { intros l Hl.
    destruct Hl as [->|[->|[->| ->]]];
      repeat (apply NoDup_cons; split;
              [intros H; vm_compute in H;
               repeat (apply elem_of_cons in H as [H|H]; [discriminate H|]);
               by apply elem_of_nil in H|]);
      apply NoDup_nil_2. }
  destruct (save_then_reopen w None 1700000000002 "lozq3x1k8f2a9bd")
    as (w1 & w2 & Hsave & Hopen & Hstore & _).
  - reflexivity.
  - split.
    + apply Hnodup. right. right. left. reflexivity.
    + apply Forall_cons. split; [apply Hnodup; right; left; reflexivity|].
      apply Forall_cons. split; [apply Hnodup; left; reflexivity|].
      apply Forall_nil_2.
  - apply Hnodup. right. right. right. reflexivity.
  - intros n Hin. vm_compute in Hin. apply list_elem_of_singleton in Hin as ->.
    vm_compute. left.
  - reflexivity.
  - intros n Hin.
    destruct (Hnames n Hin) as [->| ->];
      (split; [vm_compute; intros H; discriminate H | discriminate]).
  - intros n n' Hin Hin' Heq.
    destruct (Hnames n Hin) as [->| ->], (Hnames n' Hin') as [->| ->];
      try done; vm_compute in Heq; discriminate Heq.
  - vm_compute. intros H. discriminate H.
  - vm_compute. reflexivity.
  - exists w1, w2. split_and!; [exact Hsave | exact Hopen | exact Hstore].
Defined.

(* ===================================================================== *)
(** * Deleting a document *)
(* ===================================================================== *)

Lemma get_filter_delete {V : Type} k k' (m : JsMap.t V) :
  JsMap.get k' (JsMap.delete k m) = if decide (k' = k) then None else JsMap.get k' m.
Proof.
  case_decide as Hk.
  - subst. apply get_delete_eq.
  - apply get_delete_ne. congruence.
Qed.

(** X23.  [delete(id)] on a ready store.  When the collection is not in
    memory or does not hold the ID, it returns false and the world is as
    before.  When the collection holds the ID and other documents besides,
    it returns true; the collection keeps the other documents in their
    order, the cache entry of the ID is dropped and the others stay, the
    collection file holds the remaining documents, the manifest still lists
    the collection, and one [collection:delete] event carries the removed
    body. *)
Theorem delete_removes_one_document name id w :
  ready w →
  ((JsMap.get name (collectionData (db w)) = None
    ∨ ∃ entries, JsMap.get name (collectionData (db w)) = Some entries
                 ∧ JsMap.get (ToString id) entries = None) →
   Collection.delete name id w = (Returned false, w))
  ∧ (∀ entries document,
       JsMap.get name (collectionData (db w)) = Some entries →
       JsMap.get (ToString id) entries = Some document →
       JsMap.delete (ToString id) entries ≠ [] →
       JSLiteDB._getCollectionFilePath (db w) name ∉ dirs (disk w) →
       indexFilePath (db w) ∉ dirs (disk w) →
       JSLiteDB._getCollectionFilePath (db w) name ≠ indexFilePath (db w) →
       ∃ w',
         Collection.delete name id w = (Returned true, w')
         ∧ JsMap.get name (collectionData (db w'))
           = Some (base.filter (fun entry => entry.1 ≠ ToString id) entries)
         ∧ (∀ other, other ≠ name →
              JsMap.get other (collectionData (db w'))
              = JsMap.get other (collectionData (db w)))
         ∧ (∀ key, JsMap.get key (cache (db w'))
                   = if decide (key = Collection.cacheKey name id) then None
                     else JsMap.get key (cache (db w)))
         ∧ files (disk w') !! JSLiteDB._getCollectionFilePath (db w) name
           = Some (JSON_stringify
                     (JObj (JsObject.fromEntries
                              (JsMap.delete (ToString id) entries))))
         ∧ files (disk w') !! indexFilePath (db w)
           = Some (manifest (clock w) (JsMap.keys (collectionFiles (db w'))))
         ∧ (name ∈ JsMap.keys (collectionFiles (db w')))
         ∧ emitted w' = emitted w ++ [collection_delete name id document]
         ∧ ready w').
Proof.
  intros [Hinit Hidle]. split.
  - intros Hmissing. unfold Collection.delete.
    erewrite bind_Returned; [|by apply ensureInitialized_ready].
    rewrite acquire_idle by done.
    unfold bind at 1. unfold this at 1.
    change (collectionData (db (lock w))) with (collectionData (db w)).
    destruct Hmissing as [Hnone|(entries & Hsome & Hnone)].
    + rewrite Hnone. unfold ret. by rewrite unlock_lock.
    + rewrite Hsome, Hnone. unfold ret. by rewrite unlock_lock.
  - intros entries document Hget Hdoc Hrest Hpath Hindex Hne.
    destruct w as [[fp ifp cf cd c ii mx [l q]] [fs ds] ck fid em].
    destruct Hidle as [Hl Hq]. simpl in Hinit, Hl, Hq, Hget, Hpath, Hindex, Hne.
    subst. eexists. split.
    + unfold Collection.delete.
      erewrite bind_Returned; [|by apply ensureInitialized_ready].
      rewrite acquire_idle by done.
      unfold bind at 1. unfold this at 1. norm.
      rewrite Hget, Hdoc.
      unfold bind at 1. unfold modify at 1.
      unfold bind at 1. unfold modify at 1.
      unfold bind at 1. norm.
      erewrite saveCollection_run; [|norm; apply get_set_eq|exact Hpath]. norm.
      assert ((JsMap.size (JsMap.delete (ToString id) entries) =? 0) = false) as ->.
      { apply Z.eqb_neq. unfold JsMap.size.
        destruct (JsMap.delete (ToString id) entries); [done|]. simpl. lia. }
      unfold bind at 1. unfold ret at 1.
      unfold bind at 1.
      rewrite saveCollectionIndex_run by exact Hindex. norm.
      unfold bind at 1. unfold emit at 1. unfold ret. norm. reflexivity.
    + norm. split_and!.
      * apply get_set_eq.
      * intros other Hother. by apply get_set_ne.
      * intros key. apply get_filter_delete.
      * rewrite lookup_insert_ne by done. by rewrite lookup_insert_eq.
      * by rewrite lookup_insert_eq.
      * eapply get_Some_keys. apply get_set_eq.
      * reflexivity.
      * by split.
Qed.

Lemma delete_removes_one_document_witness :
  Collection.delete "people" (JStr "z") Sample.fiveWorld
  = (Returned false, Sample.fiveWorld)
  ∧ ∃ w',
      Collection.delete "people" (JStr "c") Sample.fiveWorld = (Returned true, w')
      ∧ JsMap.keys <$> JsMap.get "people" (collectionData (db w'))
        = Some ["a"; "b"; "d"; "e"].
Proof.
  assert (Hready : ready Sample.fiveWorld) by (split; [reflexivity | by split]).
  split.
  - apply (proj1 (delete_removes_one_document "people" (JStr "z")
                    Sample.fiveWorld Hready)).
    right. exists Sample.five. split; reflexivity.
  - destruct (proj2 (delete_removes_one_document "people" (JStr "c")
                       Sample.fiveWorld Hready)
                Sample.five (Sample.person "Cy" 9))
      as (w' & Hrun & Hdata & _).
    + reflexivity.
    + reflexivity.
    + discriminate.
    + vm_compute. intros H. discriminate H.
    + vm_compute. intros H. discriminate H.
    + discriminate.
    + exists w'. split; [exact Hrun|]. by rewrite Hdata.
Defined.

(* ===================================================================== *)
(** * Restoring a legacy backup *)
(* ===================================================================== *)

(** X24.  [restore] of a backup that has no [collections] property (the
    legacy key-value format) puts every key of the backup into the single
    collection [_default]: memory then holds that collection only, the cache
    is empty, the file of [_default] and the manifest are written, and the
    files of the collections the store held before stay on the disk. *)
Theorem restore_legacy_into_default backupPath w backupData :
  isInitialized (db w) = true →
  fs.readFile backupPath (disk w) = inr (JSON_stringify backupData) →
  backupData ≠ JNull →
  getProperty backupData "collections" = inr None →
  JSLiteDB._getCollectionFilePath (db w) "_default" ∉ dirs (disk w) →
  indexFilePath (db w) ∉ dirs (disk w) →
  ∃ w',
    JSLiteDB.restore backupPath w = (Returned tt, w')
    ∧ collectionData (db w')
      = [("_default", JsMap.ofEntries (JsObject.ownProperties backupData))]
    ∧ collectionFiles (db w')
      = [("_default", JSLiteDB._getCollectionFilePath (db w) "_default")]
    ∧ cache (db w') = []
    ∧ files (disk w') !! indexFilePath (db w)
      = Some (manifest (clock w) ["_default"])
    ∧ (JSLiteDB._getCollectionFilePath (db w) "_default" ≠ indexFilePath (db w) →
       files (disk w') !! JSLiteDB._getCollectionFilePath (db w) "_default"
       = Some (JSON_stringify
                 (JObj (JsObject.fromEntries
                          (JsMap.ofEntries (JsObject.ownProperties backupData))))))
    ∧ (∀ p, p ≠ JSLiteDB._getCollectionFilePath (db w) "_default" →
            p ≠ indexFilePath (db w) →
            files (disk w') !! p = files (disk w) !! p)
    ∧ emitted w' = emitted w ++ [restore_done backupPath].
Proof.
  intros Hinit Hread Hnull Hlegacy Hpath Hindex.
  assert (Hfolder : ∃ folderBased, getProperty backupData "folderBased" = inr folderBased).
  { destruct backupData; try done; by eexists. }
  destruct Hfolder as [folderBased Hfolder].
  eexists. split.
  - unfold JSLiteDB.restore.
    unfold bind at 1. unfold this at 1. unfold tryCatch.
    unfold bind at 1. unfold onDisk at 1. rewrite Hread.
    unfold lift at 1, ret at 1.
    unfold bind at 1. unfold JSON_stringify, JSON_parse, lift at 1, ret at 1.
    unfold bind at 1.
    erewrite ensureInitialized_ready by exact Hinit.
    unfold bind at 1. unfold modify at 1.
    unfold bind at 1. unfold modify at 1.
    unfold bind at 1. unfold modify at 1.
    unfold bind at 1. rewrite Hfolder. unfold lift at 1, ret at 1.
    unfold bind at 1. rewrite Hlegacy. unfold lift at 1, ret at 1.
    unfold bind at 1. unfold JSLiteDB.restoreLegacy at 1.
    unfold bind at 1. rewrite Object_entries_object by exact Hnull.
    unfold lift at 1, ret at 1.
    unfold bind at 1. unfold modify at 1.
    erewrite saveCollection_run; [|norm; reflexivity|norm; exact Hpath].
    unfold bind at 1.
    rewrite saveCollectionIndex_run by (norm; exact Hindex).
    unfold bind at 1. unfold emit at 1. reflexivity.
  - norm. split_and!; try done.
    + by rewrite lookup_insert_eq.
    + intros Hne. rewrite lookup_insert_ne by done. by rewrite lookup_insert_eq.
    + intros p Hp Hp'. by rewrite !lookup_insert_ne.
Qed.

Lemma restore_legacy_into_default_witness :
  let legacy := JObj [("k1", Sample.ann); ("k2", Sample.bob)] in
  let w := set_disk (written "old.json" (JSON_stringify legacy) (disk Sample.world))
             Sample.world in
  ∃ w',
    JSLiteDB.restore "old.json" w = (Returned tt, w')
    ∧ collectionData (db w')
      = [("_default", [("k1", Sample.ann); ("k2", Sample.bob)])]
    ∧ files (disk w') !! "data/users.json" = files (disk w) !! "data/users.json".
Proof.
  intros legacy w.
  destruct (restore_legacy_into_default "old.json" w legacy)
    as (w' & Hrun & Hdata & _ & _ & _ & _ & Hother & _).
  - reflexivity.
  - vm_compute. reflexivity.
  - discriminate.
  - reflexivity.
  - vm_compute. intros H. discriminate H.
  - vm_compute. intros H. discriminate H.
  - exists w'. split_and!; [exact Hrun | by rewrite Hdata |].
    apply Hother; discriminate.
Defined.

(* ===================================================================== *)
(** * Waiting callers of the write mutex *)
(* ===================================================================== *)

Section SchedulerWaiting.
Import Scheduler.

Lemma accounted_init : accounted init.
Proof.
  unfold accounted, holds, init. simpl. split_and!.
  - intros c. rewrite lookup_empty. split; [done|]. intros H. by apply elem_of_nil in H.
  - apply NoDup_nil_2.
  - done.
Qed.

Lemma accounted_step s s' :
  invariant s → accounted s → step s s' → accounted s'.
Proof.
  intros (Hone & Hlocked & Hqueue & Hfifo) (Hwait & Hnd & Hholder) Hstep.
  destruct Hstep as [c s Hnew | c s Hgranted | c s Hrunning].
  - (* call *)
    assert (Hc : c ∉ WriteMutex.queue (mutex s)).
    { intros Hin. apply Hwait in Hin. congruence. }
    unfold call, WriteMutex._acquire.
    destruct (WriteMutex.locked (mutex s)) eqn:Hl; simpl.
    + unfold accounted, holds. simpl. split_and!.
      * intros c'. destruct (decide (c' = c)) as [->|Hne].
        -- rewrite lookup_insert_eq. split; [intros _|done].
           apply elem_of_app. right. by apply list_elem_of_singleton.
        -- rewrite lookup_insert_ne by done. rewrite Hwait.
           rewrite elem_of_app, list_elem_of_singleton.
           split; [by left | by intros [?|?]].
      * apply NoDup_app. split_and!; [done| |apply NoDup_singleton].
        intros x Hx Hx'. apply list_elem_of_singleton in Hx' as ->. done.
      * intros _. destruct (Hholder eq_refl) as [h Hh]. exists h.
        assert (h ≠ c) by (intros ->; destruct Hh; congruence).
        by rewrite !lookup_insert_ne.
    + unfold accounted, holds. simpl. split_and!.
      * intros c'. destruct (decide (c' = c)) as [->|Hne].
        -- rewrite lookup_insert_eq. split; [done | intros Hin; by apply Hc in Hin].
        -- rewrite lookup_insert_ne by done. apply Hwait.
      * done.
      * intros _. exists c. left. apply lookup_insert_eq.
  - (* start *)
    unfold accounted, holds, start. simpl. split_and!.
    + intros c'. destruct (decide (c' = c)) as [->|Hne].
      * rewrite lookup_insert_eq. split; [done|].
        intros Hin. apply Hwait in Hin. congruence.
      * rewrite lookup_insert_ne by done. apply Hwait.
    + done.
    + intros _. exists c. right. apply lookup_insert_eq.
  - (* finish *)
    assert (Hc : c ∉ WriteMutex.queue (mutex s)).
    { intros Hin. apply Hwait in Hin. congruence. }
    unfold finish, WriteMutex.release.
    destruct (WriteMutex.queue (mutex s)) as [|next rest] eqn:Hq; simpl.
    + unfold accounted, holds. simpl. split_and!.
      * intros c'. split; [|intros Hin; by apply elem_of_nil in Hin].
        destruct (decide (c' = c)) as [->|Hne].
        -- by rewrite lookup_insert_eq.
        -- rewrite lookup_insert_ne by done. intros Hw.
           apply Hwait in Hw. by apply elem_of_nil in Hw.
      * apply NoDup_nil_2.
      * done.
    + apply NoDup_cons in Hnd as [Hnext Hrest].
      assert (next ≠ c) as Hne by (intros ->; apply Hc; left).
      unfold accounted, holds. simpl. split_and!.
      * intros c'. destruct (decide (c' = next)) as [->|Hne1].
        -- rewrite lookup_insert_eq. by split.
        -- rewrite lookup_insert_ne by done.
           destruct (decide (c' = c)) as [->|Hne2].
           ++ rewrite lookup_insert_eq. split; [done|].
              intros Hin. exfalso. apply Hc. by right.
           ++ rewrite lookup_insert_ne by done. rewrite Hwait.
              rewrite elem_of_cons. split; [by intros [?|?] | by right].
      * done.
      * intros _. exists next. left. apply lookup_insert_eq.
Qed.

Lemma reachable_accounted s : reachable s → accounted s.
Proof.
  induction 1 as [|s s' Hreach IH Hstep]; [apply accounted_init|].
  eapply accounted_step; [by apply reachable_invariant | exact IH | exact Hstep].
Qed.

(** X25.  In every state the callers of [acquire(fn)] can reach, the
    queue of the mutex holds exactly the callers that wait, each of them
    once; the mutex is locked exactly when some caller holds it, so a lock
    is never left behind without a caller that will release it; and
    whenever a caller waits, another caller holds the lock and has a step to
    take. *)
Theorem waiting_callers_are_queued s :
  reachable s →
  (∀ c, phase s !! c = Some Waiting ↔ c ∈ WriteMutex.queue (mutex s))
  ∧ NoDup (WriteMutex.queue (mutex s))
  ∧ (WriteMutex.locked (mutex s) = true ↔ ∃ c, holds s c)
  ∧ (∀ c, phase s !! c = Some Waiting →
          ∃ holder, holder ≠ c ∧ holds s holder
                    ∧ (step s (start holder s) ∨ step s (finish holder s))).
Proof.
  intros Hreach.
  pose proof (reachable_invariant s Hreach) as (Hone & Hlocked & Hqueue & Hfifo).
  pose proof (reachable_accounted s Hreach) as (Hwait & Hnd & Hholder).
  split_and!; [done | done | |].
  - split; [exact Hholder | intros [c Hc]; by eapply Hlocked].
  - intros c Hc.
    destruct (WriteMutex.locked (mutex s)) eqn:Hl.
    + destruct (Hholder eq_refl) as [holder Hh]. exists holder. split_and!.
      * intros ->. destruct Hh; congruence.
      * exact Hh.
      * destruct Hh as [Hg|Hr]; [left; by constructor | right; by constructor].
    + apply Hwait in Hc. rewrite (Hqueue eq_refl) in Hc.
      by apply elem_of_nil in Hc.
Qed.

Lemma waiting_callers_are_queued_witness :
  let s := call 3 (call 2 (start 1 (call 1 init))) in
  WriteMutex.queue (mutex s) = [2%nat; 3%nat]
  ∧ ∃ holder : nat, holder ≠ 3%nat ∧ holds s holder.
Proof.
  intros s.
  assert (H1 : reachable (call 1 init)).
  { apply (reach_step init); [apply reach_init | by apply step_call]. }
  assert (H2 : reachable (start 1 (call 1 init))).
  { apply (reach_step _ _ H1). by apply step_start. }
  assert (H3 : reachable (call 2 (start 1 (call 1 init)))).
  { apply (reach_step _ _ H2). by apply step_call. }
  assert (H4 : reachable s).
  { apply (reach_step _ _ H3). by apply step_call. }
  destruct (waiting_callers_are_queued s H4) as (_ & _ & _ & Hwaiting).
  destruct (Hwaiting 3%nat eq_refl) as (holder & Hne & Hholds & _).
  split; [reflexivity|]. by exists holder.
Defined.

End SchedulerWaiting.

(* ===================================================================== *)
(** * Slicing a query result *)
(* ===================================================================== *)

Lemma take_min {A : Type} (n : Z) (l : list A) :
  take (Z.to_nat (Z.min n (Z.of_nat (length l)))) l = take (Z.to_nat n) l.
Proof.
  destruct (Z.le_gt_cases n (Z.of_nat (length l))) as [Hle|Hgt].
  - by rewrite Z.min_l.
  - rewrite Z.min_r by lia. rewrite Nat2Z.id.
    rewrite !take_ge; [done | lia | lia].
Qed.

Lemma drop_min {A : Type} (n : Z) (l : list A) :
  drop (Z.to_nat (Z.min n (Z.of_nat (length l)))) l = drop (Z.to_nat n) l.
Proof.
  destruct (Z.le_gt_cases n (Z.of_nat (length l))) as [Hle|Hgt].
  - by rewrite Z.min_l.
  - rewrite Z.min_r by lia. rewrite Nat2Z.id.
    rewrite !drop_ge; [done | lia | lia].
Qed.

Lemma take_rest {A : Type} (k : Z) (l : list A) :
  0 ≤ k →
  take (Z.to_nat (Z.of_nat (length l) - k)) (drop (Z.to_nat k) l)
  = drop (Z.to_nat k) l.
Proof. intros Hk. apply take_ge. rewrite length_drop. lia. Qed.

Lemma limit_eq count results :
  QueryResult.limit count results
  = take (Z.to_nat (if count <? 0
                    then Z.of_nat (length results) + count
                    else count))
         results.
Proof.
  unfold QueryResult.limit, slice. cbv zeta.
  change (0 <? 0) with false. cbv iota.
  rewrite (Z.min_l 0) by lia. rewrite Z.sub_0_r. change (Z.to_nat 0) with 0%nat.
  rewrite drop_0.
  destruct (Z.ltb_spec count 0) as [Hneg|Hpos].
  - destruct (Z.le_gt_cases 0 (Z.of_nat (length results) + count)).
    + by rewrite Z.max_l.
    + rewrite Z.max_r by lia. f_equal. lia.
  - apply take_min.
Qed.

Lemma skip_eq count results :
  QueryResult.skip count results
  = drop (Z.to_nat (if count <? 0
                    then Z.of_nat (length results) + count
                    else count))
         results.
Proof.
  unfold QueryResult.skip, slice. cbv zeta.
  destruct (Z.ltb_spec count 0) as [Hneg|Hpos].
  - rewrite take_rest by lia.
    destruct (Z.le_gt_cases 0 (Z.of_nat (length results) + count)).
    + by rewrite Z.max_l.
    + rewrite Z.max_r by lia. f_equal. lia.
  - rewrite take_rest by lia. apply drop_min.
Qed.

(** X26.  For every integer [count], also a negative one, [limit(count)]
    and [skip(count)] split a result in two: what the one keeps followed by
    what the other keeps is the whole result.  A negative [count] counts
    from the end: [limit(-k)] drops the last [k] elements and [skip(-k)]
    keeps them; [limit(0)] keeps nothing. *)
Theorem limit_and_skip_split count results :
  QueryResult.limit count results ++ QueryResult.skip count results = results
  ∧ (0 ≤ count →
     QueryResult.limit count results = take (Z.to_nat count) results
     ∧ QueryResult.skip count results = drop (Z.to_nat count) results)
  ∧ (count < 0 →
     QueryResult.limit count results
     = take (length results - Z.to_nat (- count)) results
     ∧ QueryResult.skip count results
       = drop (length results - Z.to_nat (- count)) results)
  ∧ QueryResult.limit 0 results = [].
Proof.
  rewrite limit_eq, skip_eq. split_and!.
  - apply take_drop.
  - intros Hpos. by rewrite (proj2 (Z.ltb_ge count 0) Hpos).
  - intros Hneg. rewrite (proj2 (Z.ltb_lt count 0) Hneg).
    assert (Z.to_nat (Z.of_nat (length results) + count)
            = (length results - Z.to_nat (- count))%nat) as -> by lia.
    done.
  - by rewrite limit_eq.
Qed.

Lemma limit_and_skip_split_witness :
  let item := fun k => {| QueryResult.key := k; QueryResult.value := JStr k |} in
  let results := [item "a"; item "b"; item "c"] in
  QueryResult.keys (QueryResult.limit (-1) results) = ["a"; "b"]
  ∧ QueryResult.keys (QueryResult.skip (-1) results) = ["c"]
  ∧ QueryResult.limit (-1) results ++ QueryResult.skip (-1) results = results.
Proof.
  intros item results. split_and!; [reflexivity | reflexivity |].
  apply (proj1 (limit_and_skip_split (-1) results)).
Defined.

(** X27.  Paging with [skip(offset).limit(size)] for non-negative
    arguments: the page holds [min size (count - offset)] elements (none when
    the offset is past the end), and the result from [offset] on is the page
    followed by the result from [offset + size] on, so consecutive pages tile
    the result without gap or overlap. *)
Theorem pages_tile_result offset size results :
  0 ≤ offset → 0 ≤ size →
  QueryResult.count (QueryResult.limit size (QueryResult.skip offset results))
  = Z.max 0 (Z.min size (QueryResult.count results - offset))
  ∧ QueryResult.skip offset results
    = QueryResult.limit size (QueryResult.skip offset results)
      ++ QueryResult.skip (offset + size) results
  ∧ QueryResult.skip size (QueryResult.skip offset results)
    = QueryResult.skip (offset + size) results.
Proof.
  intros Hoffset Hsize.
  rewrite !limit_eq, !skip_eq.
  rewrite (proj2 (Z.ltb_ge offset 0) Hoffset).
  rewrite (proj2 (Z.ltb_ge size 0) Hsize).
  rewrite (proj2 (Z.ltb_ge (offset + size) 0)) by lia.
  assert (drop (Z.to_nat (offset + size)) results
          = drop (Z.to_nat size) (drop (Z.to_nat offset) results)) as ->.
  { rewrite drop_drop. f_equal. lia. }
  split_and!.
  - unfold QueryResult.count. rewrite length_take, length_drop. lia.
  - by rewrite take_drop.
  - done.
Qed.

Lemma pages_tile_result_witness :
  let item := fun k => {| QueryResult.key := k; QueryResult.value := JStr k |} in
  let results := [item "a"; item "b"; item "c"; item "d"; item "e"] in
  QueryResult.keys (QueryResult.limit 2 (QueryResult.skip 2 results)) = ["c"; "d"]
  ∧ QueryResult.skip 2 results
    = QueryResult.limit 2 (QueryResult.skip 2 results) ++ QueryResult.skip 4 results.
Proof.
  intros item results.
  destruct (pages_tile_result 2 2 results) as (_ & Htile & _); [lia | lia |].
  split; [reflexivity | exact Htile].
Defined.

(* ===================================================================== *)
(** * Opening a store for the first time *)
(* ===================================================================== *)

Lemma dropPrefix_longer folder : Path.dropPrefix folder (folder +:+ "/") = None.
Proof.
  induction folder as [|a folder IH]; simpl; [done|].
  by rewrite Ascii.eqb_refl.
Qed.

Lemma childOf_self folder : Path.childOf folder folder = None.
Proof. unfold Path.childOf. by rewrite dropPrefix_longer. Qed.

Lemma omap_none {A B : Type} (f : A → option B) (l : list A) :
  (∀ x, x ∈ l → f x = None) → omap f l = [].
Proof.
  induction l as [|x l IH]; intros Hall; csimpl; [done|].
  rewrite (Hall x) by left. apply IH. intros y Hy. apply Hall. by right.
Qed.

(** X28.  Opening a store on a folder that holds nothing and no manifest:
    [init()] creates the folder, finds no manifest, scans the folder, writes
    a manifest that lists no collection and leaves the store initialised
    and empty, whatever the maps held before; no other file is touched. *)
Theorem init_creates_empty_store w :
  isInitialized (db w) = false →
  files (disk w) !! folderPath (db w) = None →
  (∀ p, p ∈ dom (files (disk w)) ∪ dirs (disk w) →
        Path.childOf (folderPath (db w)) p = None) →
  indexFilePath (db w) ∉ dirs (disk w) →
  indexFilePath (db w) ≠ folderPath (db w) →
  files (disk w) !! indexFilePath (db w) = None →
  ∃ w',
    JSLiteDB.init w = (Returned tt, w')
    ∧ isInitialized (db w') = true
    ∧ collectionData (db w') = []
    ∧ collectionFiles (db w') = []
    ∧ cache (db w') = cache (db w)
    ∧ dirs (disk w') = {[folderPath (db w)]} ∪ dirs (disk w)
    ∧ files (disk w')
      = <[indexFilePath (db w) := manifest (clock w) []]> (files (disk w))
    ∧ (JSLiteDB.collections w').1 = Returned [].
Proof.
  intros Hinit Hfolder Hempty Hindex Hne Hmanifest.
  assert (Hindex' : indexFilePath (db w) ∉ {[folderPath (db w)]} ∪ dirs (disk w)).
  { intros Hin. apply elem_of_union in Hin as [Hin|Hin]; [|done].
    by apply elem_of_singleton in Hin. }
  eexists. split.
  - unfold JSLiteDB.init, JSLiteDB._ensureInitialized.
    unfold bind at 1. unfold this at 1. rewrite Hinit.
    unfold bind at 1. unfold JSLiteDB._ensureFolder at 1.
    unfold bind at 1. unfold this at 1. unfold tryCatch at 1.
    unfold changeDisk at 1, fs.mkdir at 1. rewrite Hfolder.
    unfold bind at 1. unfold tryCatch at 1.
    unfold JSLiteDB._loadCollectionIndex at 1.
    unfold bind at 1. unfold this at 1.
    unfold bind at 1. unfold onDisk at 1, fs.readFile at 1. norm.
    rewrite bool_decide_eq_false_2 by exact Hindex'. rewrite Hmanifest.
    unfold lift at 1, throw at 1.
    unfold bind at 1. unfold JSLiteDB._scanCollections at 1.
    unfold bind at 1. unfold modify at 1.
    unfold bind at 1. unfold modify at 1.
    unfold tryCatch at 1. unfold bind at 1. unfold this at 1.
    unfold bind at 1. unfold onDisk at 1, fs.readdir at 1. norm.
    rewrite bool_decide_eq_true_2
      by (apply elem_of_union; left; by apply elem_of_singleton).
    rewrite omap_none.
    + unfold lift at 1, ret at 1. cbn [forEach]. unfold ret at 1.
      rewrite saveCollectionIndex_run by (norm; exact Hindex').
      unfold modify. reflexivity.
    + intros p Hp. apply elem_of_elements in Hp.
      apply elem_of_union in Hp as [Hp|Hp].
      * apply Hempty. apply elem_of_union. by left.
      * apply elem_of_union in Hp as [Hp|Hp].
        -- apply elem_of_singleton in Hp as ->. apply childOf_self.
        -- apply Hempty. apply elem_of_union. by right.
  - norm. split_and!; try done.
Qed.

Lemma init_creates_empty_store_witness :
  let w := {| db := JSLiteDB.new "data" None;
              disk := {| files := {[ "notes.txt" := Garbled "hello" ]}; dirs := ∅ |};
              clock := 1700000000000;
              freshId := "lozq3x1k8f2a9bc";
              emitted := [] |} in
  ∃ w',
    JSLiteDB.init w = (Returned tt, w')
    ∧ collectionData (db w') = []
    ∧ files (disk w') !! "data/.index.json" = Some (manifest 1700000000000 []).
Proof.
  intros w.
  destruct (init_creates_empty_store w)
    as (w' & Hrun & _ & Hdata & _ & _ & _ & Hfiles & _).
  - reflexivity.
  - reflexivity.
  - intros p Hp. apply elem_of_union in Hp as [Hp|Hp].
    + apply elem_of_dom in Hp as [t Ht]. simpl in Ht.
      apply lookup_singleton_Some in Ht as [<- _]. reflexivity.
    + simpl in Hp. by apply elem_of_empty in Hp.
  - simpl. apply not_elem_of_empty.
  - discriminate.
  - reflexivity.
  - exists w'. split_and!; [exact Hrun | exact Hdata |].
    rewrite Hfiles. simpl. apply lookup_insert_eq.
Defined.

(* ===================================================================== *)
(** * Writing to a collection that is on disk but not in memory *)
(* ===================================================================== *)

(** [getOrCreate] when the collection is not in memory and its file
    cannot be parsed or enumerated. *)
Lemma getOrCreate_unreadable name w content error :
  JsMap.get name (collectionData (db w)) = None →
  JSLiteDB._getCollectionFilePath (db w) name ∉ dirs (disk w) →
  files (disk w) !! JSLiteDB._getCollectionFilePath (db w) name = Some content →
  (content = Garbled error.1 ∧ error.2 = SyntaxError
   ∨ content = Json JNull ∧ error.2 = TypeError) →
  Collection.getOrCreate name w = (Thrown error.2, w).
Proof.
  intros Hget Hpath Hfile Hcontent.
  unfold Collection.getOrCreate. unfold bind at 1. unfold this at 1.
  rewrite Hget. unfold JSLiteDB._loadCollection.
  unfold bind at 1. unfold this at 1. unfold tryCatch.
  unfold bind at 1. unfold JSLiteDB.readDataMap at 1.
  unfold bind at 1. unfold onDisk at 1, fs.readFile at 1.
  rewrite bool_decide_eq_false_2 by exact Hpath. rewrite Hfile.
  unfold lift at 1, ret at 1.
  destruct Hcontent as [[-> ->]|[-> ->]]; reflexivity.
Qed.

(** X29.  When a collection is not in memory and its file holds text that
    is not JSON, or the JSON text [null], [insert] and [update] throw the
    [SyntaxError], respectively the [TypeError], of the load and leave the
    whole world as it was: the file is not overwritten and the mutex is
    released. *)
Theorem write_to_unreadable_collection name id doc w content :
  ready w →
  JsMap.get name (collectionData (db w)) = None →
  JSLiteDB._getCollectionFilePath (db w) name ∉ dirs (disk w) →
  files (disk w) !! JSLiteDB._getCollectionFilePath (db w) name = Some content →
  ((∃ raw, content = Garbled raw) →
   Collection.insert name id (Some doc) w = (Thrown SyntaxError, w)
   ∧ Collection.update name id doc w = (Thrown SyntaxError, w))
  ∧ (content = Json JNull →
     Collection.insert name id (Some doc) w = (Thrown TypeError, w)
     ∧ Collection.update name id doc w = (Thrown TypeError, w)).
Proof.
  intros [Hinit Hidle] Hget Hpath Hfile.
  assert (Hrun : ∀ error,
            (content = Garbled error.1 ∧ error.2 = SyntaxError
             ∨ content = Json JNull ∧ error.2 = TypeError) →
            Collection.insert name id (Some doc) w = (Thrown error.2, w)
            ∧ Collection.update name id doc w = (Thrown error.2, w)).
  { intros error Hcontent. split.
    - unfold Collection.insert.
      erewrite bind_Returned; [|by apply ensureInitialized_ready].
      rewrite acquire_idle by done.
      unfold bind at 1. unfold ret at 1. cbn [fst snd].
      unfold bind at 1.
      erewrite (getOrCreate_unreadable name (lock w)); [|done|done|done|done].
      by rewrite unlock_lock.
    - unfold Collection.update.
      erewrite bind_Returned; [|by apply ensureInitialized_ready].
      rewrite acquire_idle by done.
      unfold bind at 1.
      erewrite (getOrCreate_unreadable name (lock w)); [|done|done|done|done].
      by rewrite unlock_lock. }
  split.
  - intros [raw ->]. apply (Hrun (raw, SyntaxError)). by left.
  - intros ->. apply (Hrun (""%string, TypeError)). by right.
Qed.

Lemma write_to_unreadable_collection_witness :
  let w := set_disk (written "data/logs.json" (Garbled "{oops") (disk Sample.world))
             Sample.world in
  Collection.insert "logs" (JNum 1) (Some Sample.ann) w = (Thrown SyntaxError, w).
Proof.
  intros w.
  apply (proj1 (write_to_unreadable_collection "logs" (JNum 1) Sample.ann w
                  (Garbled "{oops")
                  ltac:(split; [reflexivity | by split])
                  eq_refl
                  ltac:(vm_compute; intros H; discriminate H)
                  eq_refl)).
  by exists "{oops"%string.
Defined.

(** [insert] into a collection that is on disk but not in memory. *)
Lemma insert_lazy_run name id doc w value :
  ready w →
  JsMap.get name (collectionData (db w)) = None →
  JSLiteDB._getCollectionFilePath (db w) name ∉ dirs (disk w) →
  files (disk w) !! JSLiteDB._getCollectionFilePath (db w) name = Some (Json value) →
  value ≠ JNull →
  JsMap.has (ToString id) (JsMap.ofEntries (JsObject.ownProperties value)) = false →
  indexFilePath (db w) ∉ dirs (disk w) →
  Collection.insert name id (Some doc) w
  = (Returned (withId id doc),
     afterStore name id doc (JsMap.ofEntries (JsObject.ownProperties value))
       (collection_insert name id doc) w).
Proof.
  intros [Hinit Hidle] Hget Hpath Hfile Hnull Hfresh Hindex.
  destruct w as [[fp ifp cf cd c ii mx [l q]] [fs ds] ck fid em].
  destruct Hidle as [Hl Hq].
  simpl in Hinit, Hl, Hq, Hget, Hfile, Hpath, Hindex. subst.
  unfold Collection.insert.
  erewrite bind_Returned; [|by apply ensureInitialized_ready].
  rewrite acquire_idle by done.
  unfold bind at 1. unfold ret at 1. cbn [fst snd].
  unfold bind at 1. unfold Collection.getOrCreate at 1.
  unfold bind at 1. unfold this at 1. norm. rewrite Hget.
  unfold JSLiteDB._loadCollection at 1.
  unfold bind at 1. unfold this at 1. unfold tryCatch at 1.
  unfold bind at 1. unfold JSLiteDB.readDataMap at 1.
  unfold bind at 1. unfold onDisk at 1. unfold fs.readFile at 1. norm.
  rewrite bool_decide_eq_false_2 by done. rewrite Hfile.
  unfold lift at 1, ret at 1.
  unfold bind at 1. unfold JSON_parse, lift at 1, ret at 1.
  unfold bind at 1. rewrite Object_entries_object by exact Hnull.
  unfold lift at 1, ret at 1. unfold ret at 1.
  unfold bind at 1. unfold modify at 1.
  unfold bind at 1. unfold modify at 1. unfold ret at 1.
  rewrite Hfresh.
  unfold bind at 1. unfold modify at 1.
  unfold bind at 1. rewrite addToCache_run.
  unfold bind at 1.
  erewrite saveCollection_run; [|norm; apply get_set_eq|exact Hpath].
  unfold bind at 1.
  rewrite saveCollectionIndex_run by exact Hindex.
  unfold bind at 1. unfold emit at 1. unfold ret. norm.
  unfold afterStore, cacheAfterAdd. normalise. by rewrite !set_set.
Qed.

(** X30.  [insert] into a collection that is not in memory but has a file
    on disk first loads the file: the documents of the file are kept, in the
    order of the file, the new document comes after them, and the file is
    rewritten with all of them; the collection is then in memory and in the
    manifest. *)
Theorem insert_loads_collection_from_disk name id doc w value :
  ready w →
  JsMap.get name (collectionData (db w)) = None →
  JSLiteDB._getCollectionFilePath (db w) name ∉ dirs (disk w) →
  files (disk w) !! JSLiteDB._getCollectionFilePath (db w) name = Some (Json value) →
  value ≠ JNull →
  JsMap.wf (JsObject.ownProperties value) →
  JsMap.has (ToString id) (JsObject.ownProperties value) = false →
  indexFilePath (db w) ∉ dirs (disk w) →
  JSLiteDB._getCollectionFilePath (db w) name ≠ indexFilePath (db w) →
  ∃ w',
    Collection.insert name id (Some doc) w = (Returned (withId id doc), w')
    ∧ JsMap.get name (collectionData (db w'))
      = Some (JsObject.ownProperties value ++ [(ToString id, doc)])
    ∧ files (disk w') !! JSLiteDB._getCollectionFilePath (db w) name
      = Some (JSON_stringify
                (JObj (JsObject.fromEntries
                         (JsObject.ownProperties value ++ [(ToString id, doc)]))))
    ∧ (name ∈ JsMap.keys (collectionFiles (db w')))
    ∧ files (disk w') !! indexFilePath (db w)
      = Some (manifest (clock w) (JsMap.keys (collectionFiles (db w'))))
    ∧ ready w'.
Proof.
  intros Hready Hget Hpath Hfile Hnull Hwf Hfresh Hindex Hne.
  assert (Hentries : JsMap.ofEntries (JsObject.ownProperties value)
                     = JsObject.ownProperties value) by by apply ofEntries_wf.
  eexists. split.
  - apply insert_lazy_run with (value := value); try done.
    by rewrite Hentries.
  - rewrite Hentries. unfold afterStore. norm. split_and!.
    + rewrite get_set_eq. f_equal. apply set_fresh.
      by apply get_None_keys, has_false_get.
    + rewrite lookup_insert_ne by done. rewrite lookup_insert_eq.
      do 4 f_equal. apply set_fresh. by apply get_None_keys, has_false_get.
    + eapply get_Some_keys. apply get_set_eq.
    + by rewrite lookup_insert_eq.
    + by apply ready_afterStore.
Qed.

Lemma insert_loads_collection_from_disk_witness :
  let w := upd_db (upd_collectionData (fun _ => [])) Sample.world in
  ∃ w',
    Collection.insert "users" (JNum 2) (Some Sample.bob) w
    = (Returned (withId (JNum 2) Sample.bob), w')
    ∧ JsMap.get "users" (collectionData (db w'))
      = Some [("1", Sample.ann); ("2", Sample.bob)].
Proof.
  intros w.
  destruct (insert_loads_collection_from_disk "users" (JNum 2) Sample.bob w
              (JObj [("1", Sample.ann)]))
    as (w' & Hrun & Hdata & _).
  - split; [reflexivity | by split].
  - reflexivity.
  - vm_compute. intros H. discriminate H.
  - reflexivity.
  - discriminate.
  - vm_compute. repeat constructor. intros H. inversion H.
  - reflexivity.
  - vm_compute. intros H. discriminate H.
  - discriminate.
  - exists w'. split; [exact Hrun | exact Hdata].
Defined.
